(** * The fire controller pipeline: a shallow embedding

    This development embeds the request pipeline of [controller.go] (the
    JSON:API controller of the fire framework) together with the parts of
    the [coal] storage manager it calls, and states the behaviour of the
    controller as theorems over that embedding.

    Conventions.
    - A [coal.ID] (a 12 byte object id) is the number it encodes.
    - A model (a Go struct) is a document: its id, its lock counter and a
      finite map from struct field names to values.
    - [stack.Abort] is the [Abort] outcome of the request monad [M]; a Go
      panic raised by a failed type assertion or a forced lookup is an
      [Abort] with a plain error as well.
    - Go iterates maps in an unspecified order; the embedding iterates the
      corresponding association lists from left to right.
    - Deadlines ([context.WithTimeout]), tracing and the HTTP transport are
      not part of the embedding. *)

From Stdlib Require Import ZArith NArith Lia Ascii String SpecFloat.
From stdpp Require Import gmap strings list fin_maps pretty.

Local Open Scope string_scope.
Local Open Scope Z_scope.

(** ** Object ids *)

Module coal.

Definition ID := N.

Definition IsZero (id : ID) : bool := N.eqb id 0.

Definition hexValue (a : ascii) : option N :=
  let n := N_of_ascii a in
  if (48 <=? n)%N && (n <=? 57)%N then Some (n - 48)%N
  else if (97 <=? n)%N && (n <=? 102)%N then Some (n - 87)%N
  else if (65 <=? n)%N && (n <=? 70)%N then Some (n - 55)%N
  else None.

Fixpoint parseHex (s : string) (acc : N) : option N :=
  match s with
  | EmptyString => Some acc
  | String a rest =>
      match hexValue a with
      | Some d => parseHex rest (acc * 16 + d)%N
      | None => None
      end
  end.

(** [FromHex] accepts exactly the strings of 24 hexadecimal digits. *)
Definition FromHex (s : string) : option ID :=
  if Nat.eqb (String.length s) 24 then parseHex s 0%N else None.

Definition IsHex (s : string) : bool :=
  match FromHex s with Some _ => true | None => false end.

Definition hexDigit (d : N) : ascii :=
  if (d <? 10)%N then ascii_of_N (48 + d) else ascii_of_N (87 + d).

Fixpoint hexDigits (k : nat) (n : N) (acc : string) : string :=
  match k with
  | O => acc
  | S k' => hexDigits k' (n / 16)%N (String (hexDigit (n mod 16)%N) acc)
  end.

(** [Hex] prints the 24 lower case hexadecimal digits of an id. *)
Definition Hex (id : ID) : string := hexDigits 24 id EmptyString.

(** [Contains] reports whether a list of ids has the given id. *)
Fixpoint Contains (list : list ID) (id : ID) : bool :=
  match list with
  | [] => false
  | item :: rest => if N.eqb item id then true else Contains rest id
  end.

(** Values held by model fields and by query documents. [VNull] is the
    nil pointer (for [*time.Time] and [*coal.ID] fields) and the BSON
    null. *)
Inductive Value :=
| VNull
| VBool (b : bool)
| VString (s : string)
| VInt (z : Z)
| VTime (t : Z)
| VID (id : ID)
| VIDs (ids : list ID).

#[global] Instance Value_eq_dec : EqDecision Value.
Proof. solve_decision. Defined.

(** The Go type of a struct field, as far as the controller looks at it. *)
Inductive FType :=
| TString | TBool | TInt | TTime | TTimePtr
| TID | TIDPtr | TIDs | THasOne | THasMany.

#[global] Instance FType_eq_dec : EqDecision FType.
Proof. solve_decision. Defined.

Record Field := {
  Name : string;
  Type_ : FType;
  JSONKey : string;
  BSONField : string;
  Flags : list string;
  Optional : bool;
  ToOne : bool;
  ToMany : bool;
  HasOne : bool;
  HasMany : bool;
  RelName : string;
  RelType : string;
  RelInverse : string;
}.

(** The meta data of a model. The Go [Meta] keeps three maps over the
    same fields ([Fields] by name, [Attributes] by JSON key,
    [Relationships] by relationship name) next to [OrderedFields]; here
    they are lookups over [OrderedFields]. *)
Record Meta := {
  MetaName : string;
  PluralName : string;
  Collection : string;
  OrderedFields : list Field;
}.

Definition Fields (m : Meta) (name : string) : option Field :=
  List.find (fun f => String.eqb (Name f) name) (OrderedFields m).

Definition isAttribute (f : Field) : bool := negb (String.eqb (JSONKey f) "").
Definition isRelationship (f : Field) : bool := negb (String.eqb (RelName f) "").

Definition AttributeList (m : Meta) : list Field :=
  List.filter isAttribute (OrderedFields m).

Definition RelationshipList (m : Meta) : list Field :=
  List.filter isRelationship (OrderedFields m).

Definition Attributes (m : Meta) (key : string) : option Field :=
  List.find (fun f => String.eqb (JSONKey f) key) (AttributeList m).

Definition Relationships (m : Meta) (name : string) : option Field :=
  List.find (fun f => String.eqb (RelName f) name) (RelationshipList m).

Definition hasFlag (flag : string) (f : Field) : bool :=
  existsb (String.eqb flag) (Flags f).

Definition FlaggedFields (m : Meta) (flag : string) : list Field :=
  List.filter (hasFlag flag) (OrderedFields m).

(** [L m flag true]: the name of the one field that carries the flag;
    the Go function panics when there is none or more than one. *)
Definition L (m : Meta) (flag : string) : option string :=
  match FlaggedFields m flag with
  | [f] => Some (Name f)
  | _ => None
  end.

(** [F m name]: the BSON key of the named field. *)
Definition F (m : Meta) (name : string) : option string :=
  match Fields m name with
  | Some f => Some (BSONField f)
  | None => None
  end.

(** A model value: the embedded [Base] (id and lock counter) and the
    remaining struct fields by name. *)
Record Model := {
  DocID : ID;
  Lock : Z;
  fields : gmap string Value;
}.

Definition zeroValue (t : FType) : Value :=
  match t with
  | TString => VString ""
  | TBool => VBool false
  | TInt => VInt 0
  | TTime => VTime 0
  | TTimePtr => VNull
  | TID => VID 0%N
  | TIDPtr => VNull
  | TIDs => VIDs []
  | THasOne => VNull
  | THasMany => VNull
  end.

Definition Make (m : Meta) : Model :=
  {| DocID := 0%N; Lock := 0;
     fields := list_to_map (List.map (fun f => (Name f, zeroValue (Type_ f))) (OrderedFields m)) |}.

Definition Get (m : Model) (name : string) : option Value := fields m !! name.

Definition Set_ (m : Model) (name : string) (v : Value) : Model :=
  {| DocID := DocID m; Lock := Lock m; fields := <[name := v]> (fields m) |}.

Definition setDocID (m : Model) (id : ID) : Model :=
  {| DocID := id; Lock := Lock m; fields := fields m |}.

Definition setLock (m : Model) (lk : Z) : Model :=
  {| DocID := DocID m; Lock := lk; fields := fields m |}.

End coal.

(** ** The document store

    The controller reaches the database through [coal.Manager] and
    [coal.Collection]. A collection is the list of its documents in
    insertion order, with the keys that carry a unique index. Queries are
    the [bson.M] documents the controller builds: a key is constrained to
    a value (null matches a null or missing field, an id matches an id
    array that has it) or to one of several values ([$in]). *)

Module mongo.
Import coal.

Inductive Cond :=
| CEq (v : Value)
| CIn (vs : list Value).

#[global] Instance Cond_eq_dec : EqDecision Cond.
Proof. solve_decision. Defined.

(** A query document: the conjunction ([$and]) of [bson.M] documents. *)
Definition Query := list (gmap string Cond).

Record Coll := {
  docs : list Model;
  unique : list string;
}.

Abbreviation Store := (gmap string Coll).

Definition emptyColl : Coll := {| docs := []; unique := [] |}.

Definition collection (st : Store) (name : string) : Coll :=
  default emptyColl (st !! name).

Definition setDocs (st : Store) (name : string) (ds : list Model) : Store :=
  <[name := {| docs := ds; unique := unique (collection st name) |}]> st.

(** The value a document has under a BSON key. *)
Definition docValue (meta : Meta) (d : Model) (key : string) : Value :=
  if String.eqb key "_id" then VID (DocID d)
  else if String.eqb key "_lk" then VInt (Lock d)
  else match List.find (fun f => String.eqb (BSONField f) key) (OrderedFields meta) with
       | Some f => default VNull (Get d (Name f))
       | None => VNull
       end.

Definition valueMatches (have want : Value) : bool :=
  match have, want with
  | VIDs ids, VID id => Contains ids id
  | _, _ => bool_decide (have = want)
  end.

Definition condMatches (have : Value) (c : Cond) : bool :=
  match c with
  | CEq v => valueMatches have v
  | CIn vs => existsb (valueMatches have) vs
  end.

(** A [bson.M] holds for a document when each of its keys does; [value]
    gives the value of the document under a key. *)
Definition matchesM (value : string -> Value) (m : gmap string Cond) : bool :=
  forallb (fun kc => condMatches (value (fst kc)) (snd kc)) (map_to_list m).

Definition matches (meta : Meta) (q : Query) (d : Model) : bool :=
  forallb (matchesM (docValue meta d)) q.

(** [replaceFirst p f ds] rewrites the first document that satisfies [p]. *)
Fixpoint replaceFirst (p : Model -> bool) (f : Model -> Model) (ds : list Model) : list Model :=
  match ds with
  | [] => []
  | d :: rest => if p d then f d :: rest else d :: replaceFirst p f rest
  end.

Fixpoint removeFirst (p : Model -> bool) (ds : list Model) : list Model :=
  match ds with
  | [] => []
  | d :: rest => if p d then rest else d :: removeFirst p rest
  end.

(** A write of [d] is refused with a duplicate key error when another
    document has the same id or the same value under a unique key. *)
Definition clashes (meta : Meta) (uniq : list string) (d other : Model) : bool :=
  N.eqb (DocID other) (DocID d)
  || existsb (fun k => bool_decide (docValue meta other k = docValue meta d k)) uniq.

Definition duplicate (meta : Meta) (c : Coll) (d : Model) : bool :=
  existsb (clashes meta (unique c) d) (docs c).

(** For a replacement the replaced document itself does not count. *)
Definition duplicateExcept (meta : Meta) (c : Coll) (p : Model -> bool) (d : Model) : bool :=
  existsb (clashes meta (unique c) d) (removeFirst p (docs c)).

Inductive DBError :=
| ErrDuplicate
| ErrTransactionRequired
| ErrOther (msg : string).

(** Ordering of documents for a sort specification: a list of BSON keys,
    a leading "-" for descending order. *)
Definition valueRank (v : Value) : Z * string :=
  match v with
  | VNull => (0, "")
  | VBool b => (if b then 1 else 0, "")
  | VInt z => (z, "")
  | VTime t => (t, "")
  | VID id => (Z.of_N id, "")
  | VString s => (0, s)
  | VIDs _ => (0, "")
  end.

Definition valueLe (a b : Value) : bool :=
  let (za, sa) := valueRank a in
  let (zb, sb) := valueRank b in
  (za <? zb) || ((za =? zb) && bool_decide (sa = sb \/ String.ltb sa sb)).

Definition sortKey (s : string) : bool * string :=
  match s with
  | String "-" rest => (true, rest)
  | _ => (false, s)
  end.

Fixpoint docLe (meta : Meta) (sort : list string) (a b : Model) : bool :=
  match sort with
  | [] => true
  | s :: rest =>
      let (desc, key) := sortKey s in
      let va := docValue meta a key in
      let vb := docValue meta b key in
      if bool_decide (va = vb) then docLe meta rest a b
      else if desc then valueLe vb va else valueLe va vb
  end.

Fixpoint insertSorted (le : Model -> Model -> bool) (d : Model) (ds : list Model) : list Model :=
  match ds with
  | [] => [d]
  | x :: rest => if le d x then d :: ds else x :: insertSorted le d rest
  end.

Definition sortDocs (meta : Meta) (sort : list string) (ds : list Model) : list Model :=
  match sort with
  | [] => ds
  | _ => List.fold_right (insertSorted (docLe meta sort)) [] ds
  end.

Definition page (skip limit : Z) (ds : list Model) : list Model :=
  let skipped := if 0 <? skip then List.skipn (Z.to_nat skip) ds else ds in
  if 0 <? limit then List.firstn (Z.to_nat limit) skipped else skipped.

End mongo.

(** ** JSON:API requests, documents and errors *)

Module jsonapi.
Import coal.

Inductive Intent :=
| ListResources | FindResource | CreateResource | UpdateResource | DeleteResource
| GetRelatedResources | GetRelationship
| SetRelationship | AppendToRelationship | RemoveFromRelationship
| CollectionAction | ResourceAction.

#[global] Instance Intent_eq_dec : EqDecision Intent.
Proof. solve_decision. Defined.

Definition DocumentExpected (i : Intent) : bool :=
  match i with
  | CreateResource | UpdateResource
  | SetRelationship | AppendToRelationship | RemoveFromRelationship => true
  | _ => false
  end.

Record Request := {
  Intent_ : Intent;
  Prefix : string;
  ResourceType : string;
  ResourceID : string;
  RelatedResource : string;
  Relationship : string;
  CollectionAction_ : string;
  ResourceAction_ : string;
  Fields : gmap string (list string);
  ReqFilters : list (string * list string);
  ReqSorting : list string;
  PageNumber : Z;
  PageSize : Z;
}.

Definition segment (s : string) : string :=
  if String.eqb s "" then "" else "/" ++ s.

(** The path of the request. *)
Definition Self (r : Request) : string :=
  segment (Prefix r) ++ segment (ResourceType r) ++ segment (ResourceID r)
  ++ segment (RelatedResource r)
  ++ (if String.eqb (Relationship r) "" then "" else "/relationships/" ++ Relationship r)
  ++ segment (CollectionAction_ r) ++ segment (ResourceAction_ r).

Record DocumentLinks := {
  LSelf : string;
  LRelated : string;
  LFirst : string;
  LPrevious : string;
  LNext : string;
  LLast : string;
}.

Inductive Resource :=
| MkResource (type id : string) (attributes : list (string * Value))
    (relationships : list (string * Document))
with Document :=
| MkDocument (data : option HybridResource) (links : option DocumentLinks)
with HybridResource :=
| MkHybrid (one : option Resource) (many : list Resource).

Definition RType (r : Resource) : string := let (t, _, _, _) := r in t.
Definition RID (r : Resource) : string := let (_, i, _, _) := r in i.
Definition RAttributes (r : Resource) : list (string * Value) := let (_, _, a, _) := r in a.
Definition RRelationships (r : Resource) : list (string * Document) := let (_, _, _, l) := r in l.
Definition Data (d : Document) : option HybridResource := let (h, _) := d in h.
Definition Links (d : Document) : option DocumentLinks := let (_, l) := d in l.
Definition One (h : HybridResource) : option Resource := let (o, _) := h in o.
Definition Many (h : HybridResource) : list Resource := let (_, m) := h in m.

(** An error as [stack.Abort] receives it: a [jsonapi.Error] with its
    status, or any other Go error, which the transport answers with an
    internal server error. *)
Inductive Error :=
| JSONAPIError (status : Z) (detail : string)
| PlainError (msg : string).

Definition StatusOK : Z := 200.
Definition StatusCreated : Z := 201.
Definition StatusNoContent : Z := 204.
Definition StatusBadRequest : Z := 400.
Definition StatusUnauthorized : Z := 401.
Definition StatusNotFound : Z := 404.
Definition StatusMethodNotAllowed : Z := 405.
Definition StatusConflict : Z := 409.
Definition StatusInternalServerError : Z := 500.

Definition BadRequest (detail : string) : Error := JSONAPIError StatusBadRequest detail.
Definition BadRequestPointer (detail pointer : string) : Error := JSONAPIError StatusBadRequest detail.
Definition NotFound (detail : string) : Error := JSONAPIError StatusNotFound detail.
Definition ErrorFromStatus (status : Z) (detail : string) : Error := JSONAPIError status detail.

(** The status the client sees. *)
Definition statusOf (e : Error) : Z :=
  match e with
  | JSONAPIError s _ => s
  | PlainError _ => StatusInternalServerError
  end.

End jsonapi.

(** ** The storage manager

    [coal.Manager], from the sources. A request runs against a world: the
    database, the source of fresh object ids ([coal.New]) and the clock
    ([time.Now]). The [txn] argument says whether the Go context carries a
    transaction ([getKey(ctx, hasTransaction)]). The controller of these
    sources calls [Replace], [ReplaceFirst], [Update], [FindAll] and
    [Count] without the trailing [lock] argument the manager declares; the
    embedding passes [false] there. *)

Module manager.
Import coal mongo.

Record World := {
  store : Store;
  lastID : N;
  clock : Z;
}.

Definition setStore (st : Store) (w : World) : World :=
  {| store := st; lastID := lastID w; clock := clock w |}.

(** [coal.New]: the next object id; it is never the zero id. *)
Definition New (w : World) : ID * World :=
  (N.succ (lastID w), {| store := store w; lastID := N.succ (lastID w); clock := clock w |}).

(** [time.Now]: reads the clock, which then advances. *)
Definition Now (w : World) : Z * World :=
  (clock w, {| store := store w; lastID := lastID w; clock := clock w + 1 |}).

Definition docsOf (meta : Meta) (w : World) : list Model :=
  docs (collection (store w) (Collection meta)).

Definition putDocs (meta : Meta) (ds : list Model) (w : World) : World :=
  setStore (setDocs (store w) (Collection meta) ds) w.

Definition incrementLock (d : Model) : Model := setLock d (Lock d + 1).

(** The translation of the keys of a query or update document.

    Modelled from the spec: the [Translator] of the manager is not among
    the sources. The controller hands the manager keys that are struct
    field names ([createResource], [updateResource], [deleteResource]) as
    well as BSON keys ([loadModel], [loadModels]): a key that names a
    struct field stands for the BSON key of that field, any other key
    stands for itself. *)
Definition translate (meta : Meta) (key : string) : string :=
  match coal.Fields meta key with
  | Some f => BSONField f
  | None => key
  end.

(** The documents a query of the manager selects. *)
Definition selects (meta : Meta) (query : Query) (d : Model) : bool :=
  forallb (matchesM (fun key => docValue meta d (translate meta key))) query.

Definition FindFirst (txn : bool) (meta : Meta) (query : Query) (sort : list string)
    (skip : Z) (lock : bool) (w : World) : DBError + (option Model * World) :=
  if lock && negb txn then inl ErrTransactionRequired
  else
    match List.find (selects meta query) (docsOf meta w) with
    | None => inr (None, w)
    | Some d =>
        if lock then
          inr (Some (incrementLock d),
               putDocs meta (replaceFirst (selects meta query) incrementLock (docsOf meta w)) w)
        else inr (Some d, w)
    end.

Definition translateSort (meta : Meta) (s : string) : string :=
  let (desc, key) := sortKey s in
  if desc then "-" ++ translate meta key else translate meta key.

Definition lockAll (meta : Meta) (query : Query) (ds : list Model) : list Model :=
  List.map (fun d => if selects meta query d then incrementLock d else d) ds.

Definition FindAll (txn : bool) (meta : Meta) (query : Query) (sort : list string)
    (skip limit : Z) (lock : bool) (w : World) : DBError + (list Model * World) :=
  if negb txn then inl ErrTransactionRequired
  else if lock && ((0 <? skip) || (0 <? limit)) then inl (ErrOther "cannot lock with skip and limit")
  else
    let w' := if lock then putDocs meta (lockAll meta query (docsOf meta w)) w else w in
    inr (page skip limit (sortDocs meta (List.map (translateSort meta) sort) (List.filter (selects meta query) (docsOf meta w'))), w').

Definition Count (txn : bool) (meta : Meta) (query : Query) (skip limit : Z)
    (lock : bool) (w : World) : DBError + (Z * World) :=
  if negb txn then inl ErrTransactionRequired
  else if lock && ((0 <? skip) || (0 <? limit)) then inl (ErrOther "cannot lock with skip and limit")
  else if lock then
    inr (Z.of_nat (length (List.filter (selects meta query) (docsOf meta w))),
         putDocs meta (lockAll meta query (docsOf meta w)) w)
  else
    inr (Z.of_nat (length (page skip limit (List.filter (selects meta query) (docsOf meta w)))), w).

Definition ensureID (model : Model) (w : World) : Model * World :=
  if IsZero (DocID model) then let (id, w') := New w in (setDocID model id, w')
  else (model, w).

Definition Insert (meta : Meta) (model : Model) (w : World) : DBError + (Model * World) :=
  let (model, w) := ensureID model w in
  if duplicate meta (collection (store w) (Collection meta)) model then inl ErrDuplicate
  else inr (model, putDocs meta (docsOf meta w ++ [model]) w).

(** The upsert with [$setOnInsert]: nothing is written when a document
    matches the query, otherwise the model is inserted. *)
Definition InsertIfMissing (txn : bool) (meta : Meta) (query : Query) (model : Model)
    (w : World) : DBError + (bool * Model * World) :=
  if negb txn then inl ErrTransactionRequired
  else
    let (model, w) := ensureID model w in
    if existsb (selects meta query) (docsOf meta w) then inr (false, model, w)
    else if duplicate meta (collection (store w) (Collection meta)) model then inl ErrDuplicate
    else inr (true, model, putDocs meta (docsOf meta w ++ [model]) w).

Definition replaceOne (meta : Meta) (p : Model -> bool) (model : Model) (w : World)
    : DBError + (bool * World) :=
  if existsb p (docsOf meta w) then
    if duplicateExcept meta (collection (store w) (Collection meta)) p model then inl ErrDuplicate
    else inr (true, putDocs meta (replaceFirst p (fun _ => model) (docsOf meta w)) w)
  else inr (false, w).

Definition byID (id : ID) (d : Model) : bool := N.eqb (DocID d) id.

Definition Replace (txn : bool) (meta : Meta) (model : Model) (lock : bool) (w : World)
    : DBError + (bool * Model * World) :=
  if IsZero (DocID model) then inl (ErrOther "model has a zero id")
  else if lock && negb txn then inl ErrTransactionRequired
  else
    let model := if lock then setLock model (Lock model + 1000) else model in
    match replaceOne meta (byID (DocID model)) model w with
    | inl e => inl e
    | inr (found, w') => inr (found, model, w')
    end.

Definition ReplaceFirst (txn : bool) (meta : Meta) (query : Query) (model : Model)
    (lock : bool) (w : World) : DBError + (bool * Model * World) :=
  if lock && negb txn then inl ErrTransactionRequired
  else
    let model := if lock then setLock model (Lock model + 1000) else model in
    match replaceOne meta (selects meta query) model w with
    | inl e => inl e
    | inr (found, w') => inr (found, model, w')
    end.

(** A [$set] update document: keys and their new values. *)
Definition setKey (meta : Meta) (d : Model) (kv : string * Value) : Model :=
  match List.find (fun f => String.eqb (BSONField f) (translate meta (fst kv))) (OrderedFields meta) with
  | Some f => Set_ d (Name f) (snd kv)
  | None => d
  end.

Definition applySet (meta : Meta) (update : list (string * Value)) (d : Model) : Model :=
  List.fold_left (setKey meta) update d.

Definition Update (txn : bool) (meta : Meta) (id : ID) (update : list (string * Value))
    (lock : bool) (w : World) : DBError + (bool * World) :=
  if lock && negb txn then inl ErrTransactionRequired
  else
    let change d := let d' := applySet meta update d in if lock then incrementLock d' else d' in
    match List.find (byID id) (docsOf meta w) with
    | None => inr (false, w)
    | Some d =>
        if duplicateExcept meta (collection (store w) (Collection meta)) (byID id) (change d)
        then inl ErrDuplicate
        else inr (true, putDocs meta (replaceFirst (byID id) change (docsOf meta w)) w)
    end.

Definition Delete (meta : Meta) (id : ID) (w : World) : DBError + (bool * World) :=
  if existsb (byID id) (docsOf meta w)
  then inr (true, putDocs meta (removeFirst (byID id) (docsOf meta w)) w)
  else inr (false, w).

Definition IsDuplicate (e : DBError) : bool :=
  match e with ErrDuplicate => true | _ => false end.

End manager.

(** ** Controllers, contexts and the request monad *)

Module fire.
Import coal mongo manager jsonapi.

Inductive Operation :=
| List | Find | Create | Update | Delete | CollectionAction | ResourceAction.

#[global] Instance Operation_eq_dec : EqDecision Operation.
Proof. solve_decision. Defined.

(** Modelled from the spec: the declaration of [Operation.Write] is not
    among the sources. The operations that write are those of the table in
    [TestAction] (jsonapi/context_test.go): create, update and delete. *)
Definition Write (o : Operation) : bool :=
  match o with
  | Create | Update | Delete => true
  | _ => false
  end.

(** Modelled from the spec: the declaration of [Operation.Action] is not
    among the sources. The spec (4.1, step 7) separates the two action
    operations from the five that run in a transaction. *)
Definition Action_ (o : Operation) : bool :=
  match o with
  | CollectionAction | ResourceAction => true
  | _ => false
  end.

Record Context := {
  Operation_ : Operation;
  Selector : gmap string Cond;
  Filters : list (gmap string Cond);
  Sorting : list string;
  ReadableFields : list string;
  WritableFields : list string;
  RelationshipFilters : gmap string (list (gmap string Cond));
  Body : option Document;
  Request_ : option Document;
  Model_ : option Model;
  Models : list Model;
  Original : option Model;
  Response : option Document;
  ResponseCode : Z;
  JSONAPIRequest : Request;
  Transaction : bool;
  Header : option Z;
}.

Definition setOperation (v : Operation) (ctx : Context) : Context :=
  {| Operation_ := v; Selector := Selector ctx; Filters := Filters ctx;
     Sorting := Sorting ctx; ReadableFields := ReadableFields ctx;
     WritableFields := WritableFields ctx;
     RelationshipFilters := RelationshipFilters ctx; Body := Body ctx;
     Request_ := Request_ ctx; Model_ := Model_ ctx; Models := Models ctx;
     Original := Original ctx; Response := Response ctx;
     ResponseCode := ResponseCode ctx; JSONAPIRequest := JSONAPIRequest ctx;
     Transaction := Transaction ctx; Header := Header ctx |}.

Definition setSelector (v : gmap string Cond) (ctx : Context) : Context :=
  {| Operation_ := Operation_ ctx; Selector := v; Filters := Filters ctx;
     Sorting := Sorting ctx; ReadableFields := ReadableFields ctx;
     WritableFields := WritableFields ctx;
     RelationshipFilters := RelationshipFilters ctx; Body := Body ctx;
     Request_ := Request_ ctx; Model_ := Model_ ctx; Models := Models ctx;
     Original := Original ctx; Response := Response ctx;
     ResponseCode := ResponseCode ctx; JSONAPIRequest := JSONAPIRequest ctx;
     Transaction := Transaction ctx; Header := Header ctx |}.

Definition setFilters (v : list (gmap string Cond)) (ctx : Context) : Context :=
  {| Operation_ := Operation_ ctx; Selector := Selector ctx; Filters := v;
     Sorting := Sorting ctx; ReadableFields := ReadableFields ctx;
     WritableFields := WritableFields ctx;
     RelationshipFilters := RelationshipFilters ctx; Body := Body ctx;
     Request_ := Request_ ctx; Model_ := Model_ ctx; Models := Models ctx;
     Original := Original ctx; Response := Response ctx;
     ResponseCode := ResponseCode ctx; JSONAPIRequest := JSONAPIRequest ctx;
     Transaction := Transaction ctx; Header := Header ctx |}.

Definition setSorting (v : list string) (ctx : Context) : Context :=
  {| Operation_ := Operation_ ctx; Selector := Selector ctx; Filters := Filters ctx;
     Sorting := v; ReadableFields := ReadableFields ctx;
     WritableFields := WritableFields ctx;
     RelationshipFilters := RelationshipFilters ctx; Body := Body ctx;
     Request_ := Request_ ctx; Model_ := Model_ ctx; Models := Models ctx;
     Original := Original ctx; Response := Response ctx;
     ResponseCode := ResponseCode ctx; JSONAPIRequest := JSONAPIRequest ctx;
     Transaction := Transaction ctx; Header := Header ctx |}.

Definition setReadableFields (v : list string) (ctx : Context) : Context :=
  {| Operation_ := Operation_ ctx; Selector := Selector ctx; Filters := Filters ctx;
     Sorting := Sorting ctx; ReadableFields := v; WritableFields := WritableFields ctx;
     RelationshipFilters := RelationshipFilters ctx; Body := Body ctx;
     Request_ := Request_ ctx; Model_ := Model_ ctx; Models := Models ctx;
     Original := Original ctx; Response := Response ctx;
     ResponseCode := ResponseCode ctx; JSONAPIRequest := JSONAPIRequest ctx;
     Transaction := Transaction ctx; Header := Header ctx |}.

Definition setWritableFields (v : list string) (ctx : Context) : Context :=
  {| Operation_ := Operation_ ctx; Selector := Selector ctx; Filters := Filters ctx;
     Sorting := Sorting ctx; ReadableFields := ReadableFields ctx; WritableFields := v;
     RelationshipFilters := RelationshipFilters ctx; Body := Body ctx;
     Request_ := Request_ ctx; Model_ := Model_ ctx; Models := Models ctx;
     Original := Original ctx; Response := Response ctx;
     ResponseCode := ResponseCode ctx; JSONAPIRequest := JSONAPIRequest ctx;
     Transaction := Transaction ctx; Header := Header ctx |}.

Definition setRelationshipFilters (v : gmap string (list (gmap string Cond))) (ctx : Context) : Context :=
  {| Operation_ := Operation_ ctx; Selector := Selector ctx; Filters := Filters ctx;
     Sorting := Sorting ctx; ReadableFields := ReadableFields ctx;
     WritableFields := WritableFields ctx; RelationshipFilters := v; Body := Body ctx;
     Request_ := Request_ ctx; Model_ := Model_ ctx; Models := Models ctx;
     Original := Original ctx; Response := Response ctx;
     ResponseCode := ResponseCode ctx; JSONAPIRequest := JSONAPIRequest ctx;
     Transaction := Transaction ctx; Header := Header ctx |}.

Definition setBody (v : option Document) (ctx : Context) : Context :=
  {| Operation_ := Operation_ ctx; Selector := Selector ctx; Filters := Filters ctx;
     Sorting := Sorting ctx; ReadableFields := ReadableFields ctx;
     WritableFields := WritableFields ctx;
     RelationshipFilters := RelationshipFilters ctx; Body := v;
     Request_ := Request_ ctx; Model_ := Model_ ctx; Models := Models ctx;
     Original := Original ctx; Response := Response ctx;
     ResponseCode := ResponseCode ctx; JSONAPIRequest := JSONAPIRequest ctx;
     Transaction := Transaction ctx; Header := Header ctx |}.

Definition setRequest (v : option Document) (ctx : Context) : Context :=
  {| Operation_ := Operation_ ctx; Selector := Selector ctx; Filters := Filters ctx;
     Sorting := Sorting ctx; ReadableFields := ReadableFields ctx;
     WritableFields := WritableFields ctx;
     RelationshipFilters := RelationshipFilters ctx; Body := Body ctx; Request_ := v;
     Model_ := Model_ ctx; Models := Models ctx; Original := Original ctx;
     Response := Response ctx; ResponseCode := ResponseCode ctx;
     JSONAPIRequest := JSONAPIRequest ctx; Transaction := Transaction ctx;
     Header := Header ctx |}.

Definition setModel (v : option Model) (ctx : Context) : Context :=
  {| Operation_ := Operation_ ctx; Selector := Selector ctx; Filters := Filters ctx;
     Sorting := Sorting ctx; ReadableFields := ReadableFields ctx;
     WritableFields := WritableFields ctx;
     RelationshipFilters := RelationshipFilters ctx; Body := Body ctx;
     Request_ := Request_ ctx; Model_ := v; Models := Models ctx;
     Original := Original ctx; Response := Response ctx;
     ResponseCode := ResponseCode ctx; JSONAPIRequest := JSONAPIRequest ctx;
     Transaction := Transaction ctx; Header := Header ctx |}.

Definition setModels (v : list Model) (ctx : Context) : Context :=
  {| Operation_ := Operation_ ctx; Selector := Selector ctx; Filters := Filters ctx;
     Sorting := Sorting ctx; ReadableFields := ReadableFields ctx;
     WritableFields := WritableFields ctx;
     RelationshipFilters := RelationshipFilters ctx; Body := Body ctx;
     Request_ := Request_ ctx; Model_ := Model_ ctx; Models := v;
     Original := Original ctx; Response := Response ctx;
     ResponseCode := ResponseCode ctx; JSONAPIRequest := JSONAPIRequest ctx;
     Transaction := Transaction ctx; Header := Header ctx |}.

Definition setOriginal (v : option Model) (ctx : Context) : Context :=
  {| Operation_ := Operation_ ctx; Selector := Selector ctx; Filters := Filters ctx;
     Sorting := Sorting ctx; ReadableFields := ReadableFields ctx;
     WritableFields := WritableFields ctx;
     RelationshipFilters := RelationshipFilters ctx; Body := Body ctx;
     Request_ := Request_ ctx; Model_ := Model_ ctx; Models := Models ctx;
     Original := v; Response := Response ctx; ResponseCode := ResponseCode ctx;
     JSONAPIRequest := JSONAPIRequest ctx; Transaction := Transaction ctx;
     Header := Header ctx |}.

Definition setResponse (v : option Document) (ctx : Context) : Context :=
  {| Operation_ := Operation_ ctx; Selector := Selector ctx; Filters := Filters ctx;
     Sorting := Sorting ctx; ReadableFields := ReadableFields ctx;
     WritableFields := WritableFields ctx;
     RelationshipFilters := RelationshipFilters ctx; Body := Body ctx;
     Request_ := Request_ ctx; Model_ := Model_ ctx; Models := Models ctx;
     Original := Original ctx; Response := v; ResponseCode := ResponseCode ctx;
     JSONAPIRequest := JSONAPIRequest ctx; Transaction := Transaction ctx;
     Header := Header ctx |}.

Definition setResponseCode (v : Z) (ctx : Context) : Context :=
  {| Operation_ := Operation_ ctx; Selector := Selector ctx; Filters := Filters ctx;
     Sorting := Sorting ctx; ReadableFields := ReadableFields ctx;
     WritableFields := WritableFields ctx;
     RelationshipFilters := RelationshipFilters ctx; Body := Body ctx;
     Request_ := Request_ ctx; Model_ := Model_ ctx; Models := Models ctx;
     Original := Original ctx; Response := Response ctx; ResponseCode := v;
     JSONAPIRequest := JSONAPIRequest ctx; Transaction := Transaction ctx;
     Header := Header ctx |}.

Definition setJSONAPIRequest (v : Request) (ctx : Context) : Context :=
  {| Operation_ := Operation_ ctx; Selector := Selector ctx; Filters := Filters ctx;
     Sorting := Sorting ctx; ReadableFields := ReadableFields ctx;
     WritableFields := WritableFields ctx;
     RelationshipFilters := RelationshipFilters ctx; Body := Body ctx;
     Request_ := Request_ ctx; Model_ := Model_ ctx; Models := Models ctx;
     Original := Original ctx; Response := Response ctx;
     ResponseCode := ResponseCode ctx; JSONAPIRequest := v;
     Transaction := Transaction ctx; Header := Header ctx |}.

Definition setTransaction (v : bool) (ctx : Context) : Context :=
  {| Operation_ := Operation_ ctx; Selector := Selector ctx; Filters := Filters ctx;
     Sorting := Sorting ctx; ReadableFields := ReadableFields ctx;
     WritableFields := WritableFields ctx;
     RelationshipFilters := RelationshipFilters ctx; Body := Body ctx;
     Request_ := Request_ ctx; Model_ := Model_ ctx; Models := Models ctx;
     Original := Original ctx; Response := Response ctx;
     ResponseCode := ResponseCode ctx; JSONAPIRequest := JSONAPIRequest ctx;
     Transaction := v; Header := Header ctx |}.

Definition setHeader (v : option Z) (ctx : Context) : Context :=
  {| Operation_ := Operation_ ctx; Selector := Selector ctx; Filters := Filters ctx;
     Sorting := Sorting ctx; ReadableFields := ReadableFields ctx;
     WritableFields := WritableFields ctx;
     RelationshipFilters := RelationshipFilters ctx; Body := Body ctx;
     Request_ := Request_ ctx; Model_ := Model_ ctx; Models := Models ctx;
     Original := Original ctx; Response := Response ctx;
     ResponseCode := ResponseCode ctx; JSONAPIRequest := JSONAPIRequest ctx;
     Transaction := Transaction ctx; Header := v |}.

(** The query of a context.

    Modelled from the spec: [Context.Query] is not among the sources. The
    spec (section 3) has the selector as the base constraints and the
    filters as additional constraints of the query: the conjunction of
    the selector, when it has an entry, and the filters. *)
Definition Query_ (ctx : Context) : Query :=
  ((if bool_decide (Selector ctx = ∅) then [] else [Selector ctx]) ++ Filters ctx)%list.

(** The outcome of running a piece of the pipeline: it returns, with the
    context and the world as they are then, or it was aborted
    ([stack.Abort]) in some world. *)
Inductive Result (A : Type) :=
| Ok (a : A) (ctx : Context) (w : World)
| Abort (e : Error) (w : World).

Arguments Ok {A} a ctx w.
Arguments Abort {A} e w.

Definition M (A : Type) : Type := Context -> World -> Result A.

#[global] Instance M_ret : MRet M := fun A a ctx w => Ok a ctx w.

#[global] Instance M_bind : MBind M := fun A B f m ctx w =>
  match m ctx w with
  | Ok a ctx' w' => f a ctx' w'
  | Abort e w' => Abort e w'
  end.

Definition abort {A : Type} (e : Error) : M A := fun _ w => Abort e w.

Definition getCtx : M Context := fun ctx w => Ok ctx ctx w.

Definition modifyCtx (f : Context -> Context) : M unit := fun ctx w => Ok tt (f ctx) w.

Definition getWorld : M World := fun ctx w => Ok w ctx w.

Definition when (b : bool) (m : M unit) : M unit := if b then m else mret tt.

(** A forced lookup or type assertion: a Go panic when it fails. *)
Definition must {A : Type} (msg : string) (o : option A) : M A :=
  match o with
  | Some a => mret a
  | None => abort (PlainError msg)
  end.

Definition newID : M ID := fun ctx w => let (id, w') := New w in Ok id ctx w'.

Definition timeNow : M Z := fun ctx w => let (t, w') := Now w in Ok t ctx w'.

(** A call into the manager: the error it returns, or its result in the
    world it leaves. *)
Definition call {A : Type} (f : World -> DBError + (A * World)) : M (DBError + A) :=
  fun ctx w =>
    match f w with
    | inl e => Ok (inl e) ctx w
    | inr (a, w') => Ok (inr a) ctx w'
    end.

Definition dbError (e : DBError) : Error :=
  match e with
  | ErrDuplicate => PlainError "duplicate key"
  | ErrTransactionRequired => PlainError "operation requires a transaction"
  | ErrOther msg => PlainError msg
  end.

(** [stack.AbortIf(err)] after a manager call. *)
Definition abortIf {A : Type} (r : DBError + A) : M A :=
  match r with
  | inl e => abort (dbError e)
  | inr a => mret a
  end.

(** [if coal.IsDuplicate(err) { stack.Abort(409) }; stack.AbortIf(err)]. *)
Definition abortIfDuplicate {A : Type} (r : DBError + A) : M A :=
  match r with
  | inl e =>
      if IsDuplicate e then abort (ErrorFromStatus StatusConflict "document is not unique")
      else abort (dbError e)
  | inr a => mret a
  end.

(** What a callback or an action handler does: it returns nil, possibly
    after changing the context and the world, or it returns an error,
    marked as safe ([fire.Safe]) or not. *)
Inductive CbResult :=
| CbOk (ctx : Context) (w : World)
| CbSafe (msg : string) (w : World)
| CbFail (e : Error) (w : World).

Record Callback := {
  Matcher : Context -> bool;
  Handler : Context -> World -> CbResult;
}.

Record Action := {
  Methods : list string;
  BodyLimit : Z;
  Timeout : Z;
  ActionHandler : Context -> World -> CbResult;
}.

Record Controller := {
  meta : Meta;
  Supported : Context -> bool;
  CFilters : list string;
  Sorters : list string;
  Authorizers : list Callback;
  Validators : list Callback;
  Decorators : list Callback;
  Notifiers : list Callback;
  ListLimit : Z;
  CollectionActions : gmap string Action;
  ResourceActions : gmap string Action;
  TolerateViolations : bool;
  IdempotentCreate : bool;
  ConsistentUpdate : bool;
  SoftDelete : bool;
}.

(** The controllers of a group by resource type. *)
Abbreviation Group := (gmap string Controller).

Definition Contains (list : list string) (str : string) : bool :=
  existsb (String.eqb str) list.

(** [Intersect a b]: the items of [a] that are in [b]. *)
Definition Intersect (a b : list string) : list string :=
  List.filter (Contains b) a.

Definition dq : string := String (ascii_of_nat 34) EmptyString.

Definition quoted (s : string) : string := dq ++ s ++ dq.

Definition runHandler (h : Context -> World -> CbResult) (errorStatus : Z) : M unit :=
  fun ctx w =>
    match h ctx w with
    | CbOk ctx' w' => Ok tt ctx' w'
    | CbSafe msg w' => Abort (JSONAPIError errorStatus msg) w'
    | CbFail e w' => Abort e w'
    end.

Fixpoint runCallbacks (list : list Callback) (errorStatus : Z) : M unit :=
  match list with
  | [] => mret tt
  | cb :: rest =>
      ctx ← getCtx;
      (if Matcher cb ctx then runHandler (Handler cb) errorStatus else mret tt);;
      runCallbacks rest errorStatus
  end.

Definition runAction (a : Action) (errorStatus : Z) : M unit :=
  runHandler (ActionHandler a) errorStatus.

(** *** Reading and writing the model of the context *)

Definition theModel : M Model :=
  ctx ← getCtx; must "nil model" (Model_ ctx).

(** [coal.MustGet(ctx.Model, name)]. *)
Definition MustGet (name : string) : M Value :=
  model ← theModel; must ("coal: field not found: " ++ name) (Get model name).

(** [coal.MustSet(ctx.Model, name, value)]. *)
Definition MustSet (name : string) (value : Value) : M unit :=
  model ← theModel;
  _ ← must ("coal: field not found: " ++ name) (Get model name);
  modifyCtx (setModel (Some (Set_ model name value))).

(** The type assertions of the controller. *)
Definition asString (v : Value) : M string :=
  match v with VString s => mret s | _ => abort (PlainError "interface conversion: not a string") end.

Definition asID (v : Value) : M ID :=
  match v with VID id => mret id | _ => abort (PlainError "interface conversion: not a coal.ID") end.

Definition asOptionalID (v : Value) : M (option ID) :=
  match v with
  | VID id => mret (Some id)
  | VNull => mret None
  | _ => abort (PlainError "interface conversion: not a *coal.ID")
  end.

Definition asIDs (v : Value) : M (list ID) :=
  match v with VIDs ids => mret ids | _ => abort (PlainError "interface conversion: not a []coal.ID") end.

(** [coal.L(model, flag, true)] and [coal.F(model, field)] panic when the
    field is missing. *)
Definition flagged (m : Meta) (flag : string) : M string :=
  must ("coal: no or multiple fields flagged as " ++ quoted flag) (L m flag).

Definition bsonKey (m : Meta) (field : string) : M string :=
  must ("coal: field " ++ quoted field ++ " not found") (F m field).

Fixpoint forEach {A : Type} (f : A -> M unit) (l : list A) : M unit :=
  match l with
  | [] => mret tt
  | x :: rest => f x;; forEach f rest
  end.

Fixpoint mapEach {A B : Type} (f : A -> M B) (l : list A) : M (list B) :=
  match l with
  | [] => mret []
  | x :: rest => y ← f x; ys ← mapEach f rest; mret (y :: ys)
  end.

(** 64 bit signed arithmetic wraps around. *)
Definition int64 (z : Z) : Z := (z + 2 ^ 63) mod 2 ^ 64 - 2 ^ 63.

Definition setPage (number size : Z) (r : Request) : Request :=
  {| Intent_ := Intent_ r; Prefix := Prefix r; ResourceType := ResourceType r;
     ResourceID := ResourceID r; RelatedResource := RelatedResource r;
     Relationship := Relationship r; CollectionAction_ := CollectionAction_ r;
     ResourceAction_ := ResourceAction_ r; Fields := Fields r;
     ReqFilters := ReqFilters r; ReqSorting := ReqSorting r;
     PageNumber := number; PageSize := size |}.

Definition TrimPrefix (s p : string) : string :=
  if String.prefix p s then String.substring (String.length p) (String.length s - String.length p) s
  else s.

Definition parseID (detail : string) (str : string) : M ID :=
  match FromHex str with
  | Some id => mret id
  | None => abort (BadRequest detail)
  end.

Definition initialFields (c : Controller) (r : option Request) : M (list string) :=
  (* add attributes and relationships *)
  let list := (List.map Name (AttributeList (meta c)) ++ List.map Name (RelationshipList (meta c)))%list in
  let requestedFields :=
    match r with
    | Some r => default [] (Fields r !! PluralName (meta c))
    | None => []
    end in
  (* check if a field whitelist has been provided *)
  if (0 <? length requestedFields)%nat then
    requested ← mapEach (fun field =>
      match Attributes (meta c) field with
      | Some f => mret (Name f)
      | None =>
          match Relationships (meta c) field with
          | Some f => mret (Name f)
          | None => abort (BadRequest ("invalid sparse field " ++ quoted field))
          end
      end) requestedFields;
    (* whitelist requested fields *)
    mret (Intersect requested list)
  else mret list.

Definition loadModel (c : Controller) : M unit :=
  (* set selector query (id has been validated earlier) *)
  ctx ← getCtx;
  id ← must "invalid object id" (FromHex (ResourceID (JSONAPIRequest ctx)));
  modifyCtx (fun ctx => setSelector (<["_id" := CEq (VID id)]> (Selector ctx)) ctx);;
  (* filter out deleted documents if configured *)
  when (SoftDelete c) (
    softDeleteField ← flagged (meta c) "fire-soft-delete";
    key ← bsonKey (meta c) softDeleteField;
    modifyCtx (fun ctx => setSelector (<[key := CEq VNull]> (Selector ctx)) ctx));;
  (* run authorizers *)
  runCallbacks (Authorizers c) StatusUnauthorized;;
  (* lock document if a write is expected *)
  ctx ← getCtx;
  let lock := Write (Operation_ ctx) in
  (* find model *)
  r ← call (FindFirst (Transaction ctx) (meta c) (Query_ ctx) [] 0 lock);
  found ← abortIf r;
  match found with
  | None => abort (NotFound "resource not found")
  | Some model =>
      (* set model *)
      modifyCtx (setModel (Some model));;
      (* set original on update operations *)
      when (bool_decide (Operation_ ctx = Update)) (modifyCtx (setOriginal (Some model)))
  end.

Definition addFilter (m : gmap string Cond) : M unit :=
  modifyCtx (fun ctx => setFilters (Filters ctx ++ [m])%list ctx).

Definition loadModels (c : Controller) : M unit :=
  (* filter out deleted documents if configured *)
  when (SoftDelete c) (
    softDeleteField ← flagged (meta c) "fire-soft-delete";
    key ← bsonKey (meta c) softDeleteField;
    modifyCtx (fun ctx => setSelector (<[key := CEq VNull]> (Selector ctx)) ctx));;
  (* add filters *)
  ctx ← getCtx;
  forEach (fun nv : string * list string =>
    let (name, values) := nv in
    match Attributes (meta c) name with
    | Some field =>
        (* handle attributes filter: check whitelist *)
        if negb (Contains (CFilters c) (Name field)) then
          abort (BadRequest ("invalid filter " ++ quoted name))
        (* handle boolean values *)
        else if bool_decide (Type_ field = TBool) && (length values =? 1)%nat then
          addFilter {[BSONField field := CEq (VBool (String.eqb (List.hd "" values) "true"))]}
        (* handle string values *)
        else addFilter {[BSONField field := CIn (List.map VString values)]}
    | None =>
        match Relationships (meta c) name with
        | Some field =>
            (* handle relationship filters: check whitelist *)
            if (negb (ToOne field) && negb (ToMany field)) || negb (Contains (CFilters c) (Name field)) then
              abort (BadRequest ("invalid filter " ++ quoted name))
            else
              (* convert to object ids *)
              ids ← mapEach (parseID "relationship filter value is not an object id") values;
              (* set relationship filter *)
              addFilter {[BSONField field := CIn (List.map VID ids)]}
        | None =>
            (* raise an error on a unsupported filter *)
            abort (BadRequest ("invalid filter " ++ quoted name))
        end
    end) (ReqFilters (JSONAPIRequest ctx));;
  (* add sorting *)
  forEach (fun sorter : string =>
    (* get direction *)
    let descending := String.prefix "-" sorter in
    (* normalize sorter *)
    let normalizedSorter := TrimPrefix sorter "-" in
    (* find field *)
    match Attributes (meta c) normalizedSorter with
    | None => abort (BadRequest ("invalid sorter " ++ quoted normalizedSorter))
    | Some field =>
        (* check whitelist *)
        if negb (Contains (Sorters c) (Name field)) then
          abort (BadRequest ("unsupported sorter " ++ quoted normalizedSorter))
        (* add sorter *)
        else if descending then
          modifyCtx (fun ctx => setSorting (Sorting ctx ++ [("-" ++ BSONField field)%string])%list ctx)
        else
          modifyCtx (fun ctx => setSorting (Sorting ctx ++ [BSONField field])%list ctx)
    end) (ReqSorting (JSONAPIRequest ctx));;
  (* honor list limit *)
  modifyCtx (fun ctx =>
    let r := JSONAPIRequest ctx in
    if (0 <? ListLimit c) && ((PageSize r =? 0) || (ListLimit c <? PageSize r)) then
      (* restrain page size and enforce pagination *)
      setJSONAPIRequest
        (setPage (if PageNumber r =? 0 then 1 else PageNumber r) (ListLimit c) r) ctx
    else ctx);;
  (* run authorizers *)
  runCallbacks (Authorizers c) StatusUnauthorized;;
  (* add pagination *)
  ctx ← getCtx;
  let r := JSONAPIRequest ctx in
  let paginate := (0 <? PageNumber r) && (0 <? PageSize r) in
  let limit := if paginate then PageSize r else 0 in
  let skip := if paginate then int64 ((PageNumber r - 1) * PageSize r) else 0 in
  (* load models *)
  res ← call (FindAll (Transaction ctx) (meta c) (Query_ ctx) (Sorting ctx) skip limit false);
  models ← abortIf res;
  (* set models *)
  modifyCtx (setModels models).

(** The JSON keys and relationship names of a list of field names; the
    common first loop of [assignData] and [constructResource]. *)
Definition fieldKeys (c : Controller) (what : string) (names : list string) : M (list string) :=
  keys ← mapEach (fun field =>
    f ← must ("unknown " ++ what ++ " field " ++ field) (coal.Fields (meta c) field);
    mret (if negb (String.eqb (JSONKey f) "") then [JSONKey f]
          else if negb (String.eqb (RelName f) "") then [RelName f]
          else [])) names;
  mret (List.concat keys).

(** The relationship names of a list of field names; the first loop of
    [preloadRelationships]. *)
Definition relationshipKeys (c : Controller) (names : list string) : M (list string) :=
  keys ← mapEach (fun field =>
    f ← must ("unknown readable field " ++ field) (coal.Fields (meta c) field);
    mret (if negb (String.eqb (RelName f) "") then [RelName f] else [])) names;
  mret (List.concat keys).

(** [jsonapi.Map.Assign] for one attribute: the value decoded into the
    struct field, or no model when the value does not fit the field. A
    null leaves a field that is no pointer as it is. *)
Definition assignAttribute (model : Model) (f : Field) (v : Value) : option Model :=
  match v, Type_ f with
  | VNull, (TTimePtr | TIDPtr) => Some (Set_ model (Name f) VNull)
  | VNull, _ => Some model
  | VString _, TString | VBool _, TBool | VInt _, TInt
  | VTime _, (TTime | TTimePtr) | VID _, (TID | TIDPtr) | VIDs _, TIDs =>
      Some (Set_ model (Name f) v)
  | _, _ => None
  end.

Definition Assign (c : Controller) (attributes : list (string * Value)) : M unit :=
  forEach (fun kv : string * Value =>
    model ← theModel;
    match Attributes (meta c) (fst kv) with
    | None => mret tt
    | Some f =>
        match assignAttribute model f (snd kv) with
        | Some model' => modifyCtx (setModel (Some model'))
        | None => abort (BadRequest "invalid attribute value")
        end
    end) attributes.

Definition assignRelationship (c : Controller) (rel : Document) (field : Field) : M unit :=
  (* handle to-one relationship *)
  when (ToOne field) (
    (* set and check id if available *)
    id ← match Data rel ≫= One with
         | Some one =>
             (* check type *)
             if negb (String.eqb (RType one) (RelType field)) then
               abort (BadRequest "resource type mismatch")
             else parseID "invalid relationship id" (RID one)
         | None => mret 0%N
         end;
    (* set id properly *)
    if negb (Optional field) then MustSet (Name field) (VID id)
    else if negb (IsZero id) then MustSet (Name field) (VID id)
    else MustSet (Name field) VNull);;
  (* handle to-many relationship *)
  when (ToMany field) (
    (* convert all ids if data is available *)
    ids ← match Data rel with
          | Some data =>
              mapEach (fun r : Resource =>
                if negb (String.eqb (RType r) (RelType field)) then
                  abort (BadRequest "resource type mismatch")
                else parseID "invalid relationship id" (RID r)) (Many data)
          | None => mret []
          end;
    (* set ids *)
    MustSet (Name field) (VIDs ids)).

Definition assignData (c : Controller) (res : Resource) : M unit :=
  (* covert field names to attributes and relationships *)
  ctx ← getCtx;
  whitelist ← fieldKeys c "writable" (WritableFields ctx);
  (* whitelist attributes *)
  attributes ← mapEach (fun nv : string * Value =>
    let (name, value) := nv in
    match Attributes (meta c) name with
    | None => abort (BadRequestPointer "invalid attribute" ("/data/attributes/" ++ name))
    | Some field =>
        if negb (Contains whitelist name) then
          (* ignore violation if tolerated *)
          if TolerateViolations c then mret []
          else abort (BadRequestPointer "attribute is not writable" ("/data/attributes/" ++ name))
        else mret [(name, value)]
    end) (RAttributes res);
  (* map attributes to struct *)
  Assign c (List.concat attributes);;
  (* iterate relationships *)
  forEach (fun nr : string * Document =>
    let (name, rel) := nr in
    match Relationships (meta c) name with
    | None => abort (BadRequestPointer "invalid relationship" ("/data/relationships/" ++ name))
    | Some field =>
        if negb (Contains whitelist name) || (negb (ToOne field) && negb (ToMany field)) then
          (* ignore violation if tolerated *)
          if TolerateViolations c then mret tt
          else abort (BadRequestPointer "relationship is not writable" ("/data/relationships/" ++ name))
        else assignRelationship c rel field
    end) (RRelationships res).

(** [ctx.C(model).FindAll]: the documents of the collection that match. *)
Definition findAll (m : Meta) (query : Query) (w : World) : list Model :=
  List.filter (matches m query) (docsOf m w).

(** The ids a reference document contributes to the entry of an owner:
    the body of the two innermost loops of [preloadRelationships]. *)
Definition referencesTo (rm : Meta) (rel : Field) (modelID : ID) (reference : Model) : list ID :=
  ((if ToOne rel then
      match docValue rm reference (BSONField rel) with
      | VID rid => if negb (IsZero rid) && N.eqb rid modelID then [DocID reference] else []
      | _ => []
      end
    else []) ++
   (if ToMany rel then
      match docValue rm reference (BSONField rel) with
      | VIDs rids =>
          List.flat_map (fun rid =>
            if negb (IsZero rid) && N.eqb rid modelID then [DocID reference] else []) rids
      | _ => []
      end
    else []))%list.

Definition collectReferences (rm : Meta) (rel : Field) (modelIDs : list ID)
    (references : list Model) : gmap ID (list ID) :=
  List.fold_left (fun entry modelID =>
    List.fold_left (fun entry reference =>
      match referencesTo rm rel modelID reference with
      | [] => entry
      | ids => <[modelID := (default [] (entry !! modelID) ++ ids)%list]> entry
      end) references entry) modelIDs ∅.

Definition preloadRelationship (g : Group) (c : Controller) (models : list Model)
    (whitelist : list string) (field : Field) : M (option (string * gmap ID (list ID))) :=
  (* skip to one and to many relationships *)
  if ToOne field || ToMany field then mret None
  (* check if whitelisted *)
  else if negb (Contains whitelist (RelName field)) then mret None
  else
    (* get related controller *)
    rc ← must ("missing related controller " ++ RelType field) (g !! RelType field);
    (* find relationship *)
    rel ← must ("no relationship matching the inverse name " ++ RelInverse field)
             (Relationships (meta rc) (RelInverse field));
    (* collect model ids *)
    let modelIDs := List.map DocID models in
    (* prepare query *)
    let query : gmap string Cond := {[BSONField rel := CIn (List.map VID modelIDs)]} in
    (* exclude soft deleted documents *)
    query ← (if SoftDelete rc then
               softDeleteField ← flagged (meta rc) "fire-soft-delete";
               key ← bsonKey (meta rc) softDeleteField;
               mret (<[key := CEq VNull]> query)
             else mret query);
    (* prepare filters and add relationship filters *)
    ctx ← getCtx;
    let filters := (query :: default [] (RelationshipFilters ctx !! Name field))%list in
    (* load all references *)
    w ← getWorld;
    let references := findAll (meta rc) filters w in
    (* collect references *)
    mret (Some (RelName field, collectReferences (meta rc) rel modelIDs references)).

Definition preloadRelationships (g : Group) (c : Controller) (models : list Model)
    : M (gmap string (gmap ID (list ID))) :=
  (* covert field names to relationships *)
  ctx ← getCtx;
  whitelist ← relationshipKeys c (ReadableFields ctx);
  (* go through all relationships *)
  entries ← mapEach (preloadRelationship g c models whitelist) (RelationshipList (meta c));
  mret (List.fold_left (fun relationships entry =>
          match entry with
          | Some (name, refs) => <[name := refs]> relationships
          | None => relationships
          end) entries ∅).

(** [jsonapi.StructToMap]: the attributes of the model under the
    whitelisted JSON keys. *)
Definition StructToMap (m : Meta) (model : Model) (whitelist : list string) : list (string * Value) :=
  List.flat_map (fun f =>
    if Contains whitelist (JSONKey f) then [(JSONKey f, default VNull (Get model (Name f)))] else [])
    (AttributeList m).

Definition getField (model : Model) (name : string) : M Value :=
  must ("coal: field not found: " ++ name) (Get model name).

Definition reference (type : string) (id : ID) : Resource := MkResource type (Hex id) [] [].

Definition constructRelationship (c : Controller) (model : Model)
    (relationships : option (gmap string (gmap ID (list ID)))) (whitelist : list string)
    (base : string) (field : Field) : M (list (string * Document)) :=
  (* check if whitelisted *)
  if negb (Contains whitelist (RelName field)) then mret []
  else
    (* prepare relationship links *)
    let links := {| LSelf := base ++ "/relationships/" ++ RelName field;
                    LRelated := base ++ "/" ++ RelName field;
                    LFirst := ""; LPrevious := ""; LNext := ""; LLast := "" |} in
    let set (data : HybridResource) : M (list (string * Document)) :=
      mret [(RelName field, MkDocument (Some data) (Some links))] in
    if ToOne field then
      (* handle to-one relationship *)
      v ← getField model (Name field);
      if Optional field then
        oid ← asOptionalID v;
        set (MkHybrid (reference (RelType field) <$> oid) [])
      else
        id ← asID v;
        set (MkHybrid (Some (reference (RelType field) id)) [])
    else if ToMany field then
      (* get ids and set all references *)
      v ← getField model (Name field);
      ids ← asIDs v;
      set (MkHybrid None (List.map (reference (RelType field)) ids))
    else if HasOne field then
      match relationships with
      | None =>
          (* set links and empty reference *)
          set (MkHybrid None [])
      | Some relationships =>
          (* get preloaded references *)
          let refs := default [] (relationships !! RelName field ≫= (fun entry => entry !! DocID model)) in
          (* check length *)
          if (1 <? length refs)%nat then
            abort (PlainError "has one relationship returned more than one result")
          else
            (* set reference *)
            set (MkHybrid (reference (RelType field) <$> List.head refs) [])
      end
    else if HasMany field then
      match relationships with
      | None =>
          (* set links and empty references *)
          set (MkHybrid None [])
      | Some relationships =>
          (* get preloaded references and set all references *)
          let refs := default [] (relationships !! RelName field ≫= (fun entry => entry !! DocID model)) in
          set (MkHybrid None (List.map (reference (RelType field)) refs))
      end
    else mret [].

Definition constructResource (c : Controller) (model : Model)
    (relationships : option (gmap string (gmap ID (list ID)))) : M Resource :=
  (* covert field names to attributes and relationships *)
  ctx ← getCtx;
  whitelist ← fieldKeys c "readable" (ReadableFields ctx);
  (* create map from model *)
  let m := StructToMap (meta c) model whitelist in
  (* generate base link *)
  let base := "/" ++ PluralName (meta c) ++ "/" ++ Hex (DocID model) in
  let base := if negb (String.eqb (Prefix (JSONAPIRequest ctx)) "")
              then "/" ++ Prefix (JSONAPIRequest ctx) ++ base else base in
  (* go through all relationships *)
  rels ← mapEach (constructRelationship c model relationships whitelist base)
           (RelationshipList (meta c));
  mret (MkResource (PluralName (meta c)) (Hex (DocID model)) m (List.concat rels)).

Definition resourceForModel (c : Controller) (model : Model)
    (relationships : option (gmap string (gmap ID (list ID)))) : M Resource :=
  constructResource c model relationships.

Definition resourcesForModels (c : Controller) (models : list Model)
    (relationships : option (gmap string (gmap ID (list ID)))) : M (list Resource) :=
  mapEach (fun model => constructResource c model relationships) models.

(** *** Pagination links

    [listLinks] computes the last page in [float64]: both operands are
    converted, divided, rounded up and converted back to [int64]. The
    binary64 operations are those of the IEEE 754 specification of the
    standard library ([SpecFloat]). A result outside of the [int64] range
    converts to the smallest [int64], as on amd64. *)

Definition float64 (z : Z) : spec_float := binary_normalize 53 1024 z 0 false.

Definition float64Div (x y : spec_float) : spec_float := SFdiv 53 1024 x y.

(** [int64(math.Ceil(f))]. *)
Definition ceilInt64 (f : spec_float) : Z :=
  match f with
  | S754_zero _ => 0
  | S754_finite s m e =>
      let v := if s then Z.neg m else Z.pos m in
      let c := if 0 <=? e then v * 2 ^ e else - ((- v) / 2 ^ (- e)) in
      if (- 2 ^ 63 <=? c) && (c <? 2 ^ 63) then c else - 2 ^ 63
  | _ => - 2 ^ 63
  end.

Definition lastPage (count pageSize : Z) : Z :=
  ceilInt64 (float64Div (float64 count) (float64 pageSize)).

(** [fmt.Sprintf("%s?page[number]=%d&page[size]=%d", self, number, size)]. *)
Definition pageLink (self : string) (number size : Z) : string :=
  self ++ "?page[number]=" ++ pretty number ++ "&page[size]=" ++ pretty size.

Definition listLinks (c : Controller) (self : string) : M DocumentLinks :=
  ctx ← getCtx;
  let r := JSONAPIRequest ctx in
  (* add pagination links *)
  if (0 <? PageNumber r) && (0 <? PageSize r) then
    (* count resources *)
    res ← call (Count (Transaction ctx) (meta c) (Query_ ctx) 0 0 false);
    count ← abortIf res;
    (* calculate last page *)
    let lastPage := lastPage count (PageSize r) in
    mret {| (* add basic pagination links *)
            LSelf := pageLink self (PageNumber r) (PageSize r);
            LRelated := "";
            LFirst := pageLink self 1 (PageSize r);
            (* add previous link if not on first page *)
            LPrevious := if 1 <? PageNumber r
                         then pageLink self (int64 (PageNumber r - 1)) (PageSize r) else "";
            (* add next link if not on last page *)
            LNext := if PageNumber r <? lastPage
                     then pageLink self (int64 (PageNumber r + 1)) (PageSize r) else "";
            LLast := pageLink self lastPage (PageSize r) |}
  else
    mret {| LSelf := self; LRelated := ""; LFirst := ""; LPrevious := ""; LNext := ""; LLast := "" |}.

Definition selfLinks (self : string) : DocumentLinks :=
  {| LSelf := self; LRelated := ""; LFirst := ""; LPrevious := ""; LNext := ""; LLast := "" |}.

Definition respond (code : Z) (doc : option Document) : M unit :=
  modifyCtx (fun ctx => setResponseCode code (setResponse doc ctx)).

(** *** The operation handlers *)

Definition listResources (g : Group) (c : Controller) : M unit :=
  (* load models *)
  loadModels c;;
  (* run decorators *)
  runCallbacks (Decorators c) StatusInternalServerError;;
  (* preload relationships *)
  ctx ← getCtx;
  relationships ← preloadRelationships g c (Models ctx);
  (* compose response *)
  many ← resourcesForModels c (Models ctx) (Some relationships);
  links ← listLinks c (Self (JSONAPIRequest ctx));
  respond StatusOK (Some (MkDocument (Some (MkHybrid None many)) (Some links)));;
  (* run notifiers *)
  runCallbacks (Notifiers c) StatusInternalServerError.

Definition findResource (g : Group) (c : Controller) : M unit :=
  (* load model *)
  loadModel c;;
  (* run decorators *)
  runCallbacks (Decorators c) StatusInternalServerError;;
  (* preload relationships *)
  model ← theModel;
  relationships ← preloadRelationships g c [model];
  (* compose response *)
  one ← resourceForModel c model (Some relationships);
  ctx ← getCtx;
  respond StatusOK (Some (MkDocument (Some (MkHybrid (Some one) []))
                            (Some (selfLinks (Self (JSONAPIRequest ctx))))));;
  (* run notifiers *)
  runCallbacks (Notifiers c) StatusInternalServerError.

(** [ctx.Request.Data], a nil pointer dereference when there is no
    request document. *)
Definition requestData : M (option HybridResource) :=
  ctx ← getCtx;
  request ← must "nil pointer dereference: no request document" (Request_ ctx);
  mret (Data request).

(** The resource of the request document: [ctx.Request.Data.One], after
    the basic input data check. *)
Definition requestResource : M Resource :=
  data ← requestData;
  match data ≫= One with
  | Some one => mret one
  | None => abort (BadRequest "missing document")
  end.

(** The insert of [createResource], with or without the idempotent create
    mechanism. *)
Definition createResource_insert (c : Controller) : M unit :=
  (* check if idempotent create is enabled *)
  if IdempotentCreate c then
    (* get idempotent create field *)
    idempotentCreateField ← flagged (meta c) "fire-idempotent-create";
    (* get supplied idempotent create token *)
    v ← MustGet idempotentCreateField;
    idempotentCreateToken ← asString v;
    when (String.eqb idempotentCreateToken "")
      (abort (BadRequest "missing idempotent create token"));;
    (* insert model *)
    model ← theModel;
    ctx ← getCtx;
    res ← call (InsertIfMissing (Transaction ctx) (meta c)
                  [{[idempotentCreateField := CEq (VString idempotentCreateToken)]}] model);
    '(inserted, model) ← abortIfDuplicate res;
    modifyCtx (setModel (Some model));;
    (* fail if not inserted *)
    when (negb inserted)
      (abort (ErrorFromStatus StatusConflict "existing document with same idempotent create token"))
  else
    (* insert model *)
    model ← theModel;
    res ← call (Insert (meta c) model);
    model ← abortIfDuplicate res;
    modifyCtx (setModel (Some model)).

(** The model of [createResource]: after the authorizers a new model with
    a new id takes the data of the request document, the validators run
    and the initial consistent update token is set. *)
Definition createResource_model (c : Controller) (one : Resource) : M unit :=
  (* run authorizers *)
  runCallbacks (Authorizers c) StatusUnauthorized;;
  (* create model with id *)
  id ← newID;
  modifyCtx (setModel (Some (setDocID (Make (meta c)) id)));;
  (* assign attributes *)
  assignData c one;;
  (* run validators *)
  runCallbacks (Validators c) StatusBadRequest;;
  (* set initial update token if consistent update is enabled *)
  when (ConsistentUpdate c) (
    consistentUpdateField ← flagged (meta c) "fire-consistent-update";
    token ← newID;
    MustSet consistentUpdateField (VString (Hex token))).

(** The response of [createResource]: the decorators run, the inserted
    model is answered with 201 and the notifiers run. *)
Definition createResource_respond (c : Controller) : M unit :=
  (* run decorators *)
  runCallbacks (Decorators c) StatusInternalServerError;;
  (* compose response *)
  model ← theModel;
  one ← resourceForModel c model None;
  ctx ← getCtx;
  respond StatusCreated
    (Some (MkDocument (Some (MkHybrid (Some one) []))
       (Some (selfLinks (Self (JSONAPIRequest ctx) ++ "/" ++ Hex (DocID model))))));;
  (* run notifiers *)
  runCallbacks (Notifiers c) StatusInternalServerError.

Definition createResource (g : Group) (c : Controller) : M unit :=
  (* basic input data check *)
  one ← requestResource;
  ctx ← getCtx;
  (* check resource type *)
  when (negb (String.eqb (RType one) (ResourceType (JSONAPIRequest ctx))))
    (abort (BadRequest "resource type mismatch"));;
  (* check id *)
  when (negb (String.eqb (RID one) ""))
    (abort (BadRequest "unnecessary resource id"));;
  (* authorize, make the model, assign, validate, set the update token *)
  createResource_model c one;;
  (* insert the model, idempotently if enabled *)
  createResource_insert c;;
  (* decorate, respond, notify *)
  createResource_respond c.

(** The first consistent update step of [updateResource]: get and reset
    the stored consistent update token. *)
Definition updateResource_token (c : Controller) : M string :=
  if ConsistentUpdate c then
    consistentUpdateField ← flagged (meta c) "fire-consistent-update";
    v ← MustGet consistentUpdateField;
    storedConsistentUpdateToken ← asString v;
    MustSet consistentUpdateField (VString "");;
    mret storedConsistentUpdateToken
  else mret "".

(** The replacement of [updateResource], with or without the consistent
    update mechanism. *)
Definition updateResource_replace (c : Controller) (storedConsistentUpdateToken : string) : M unit :=
  (* check if consistent update is enabled *)
  if ConsistentUpdate c then
    (* get consistency update field *)
    consistentUpdateField ← flagged (meta c) "fire-consistent-update";
    (* get consistent update token *)
    v ← MustGet consistentUpdateField;
    consistentUpdateToken ← asString v;
    when (negb (String.eqb consistentUpdateToken storedConsistentUpdateToken))
      (abort (BadRequest "invalid consistent update token"));;
    (* generate new update token *)
    token ← newID;
    MustSet consistentUpdateField (VString (Hex token));;
    (* update model *)
    model ← theModel;
    ctx ← getCtx;
    res ← call (ReplaceFirst (Transaction ctx) (meta c)
                  [<[consistentUpdateField := CEq (VString consistentUpdateToken)]>
                     {["_id" := CEq (VID (DocID model))]}]
                  model false);
    '(updated, model) ← abortIfDuplicate res;
    modifyCtx (setModel (Some model));;
    (* fail if not updated *)
    when (negb updated)
      (abort (ErrorFromStatus StatusConflict "existing document with different consistent update token"))
  else
    (* replace model *)
    model ← theModel;
    ctx ← getCtx;
    res ← call (Replace (Transaction ctx) (meta c) model false);
    '(_, model) ← abortIfDuplicate res;
    modifyCtx (setModel (Some model)).

(** The assignment of [updateResource]: the document is assigned to the
    loaded model, the idempotent create token is checked and the
    validators run. *)
Definition updateResource_assign (c : Controller) (one : Resource)
    (storedIdempotentCreateToken : string) : M unit :=
  (* assign attributes *)
  assignData c one;;
  (* check if idempotent create token has been changed *)
  when (IdempotentCreate c) (
    idempotentCreateField ← flagged (meta c) "fire-idempotent-create";
    v ← MustGet idempotentCreateField;
    idempotentCreateToken ← asString v;
    when (negb (String.eqb storedIdempotentCreateToken idempotentCreateToken))
      (abort (BadRequest "idempotent create token cannot be changed")));;
  (* run validators *)
  runCallbacks (Validators c) StatusBadRequest.

(** The stored idempotent create token of the loaded model, read by
    [updateResource] before the assignment. *)
Definition updateResource_created (c : Controller) : M string :=
  if IdempotentCreate c then
    idempotentCreateField ← flagged (meta c) "fire-idempotent-create";
    v ← MustGet idempotentCreateField;
    asString v
  else mret "".

(** The response of [updateResource]: the decorators run, the replaced
    model is answered with 200 and the notifiers run. *)
Definition updateResource_respond (g : Group) (c : Controller) : M unit :=
  (* run decorators *)
  runCallbacks (Decorators c) StatusInternalServerError;;
  (* preload relationships *)
  model ← theModel;
  relationships ← preloadRelationships g c [model];
  (* compose response *)
  one ← resourceForModel c model (Some relationships);
  ctx ← getCtx;
  respond StatusOK (Some (MkDocument (Some (MkHybrid (Some one) []))
                            (Some (selfLinks (Self (JSONAPIRequest ctx))))));;
  (* run notifiers *)
  runCallbacks (Notifiers c) StatusInternalServerError.

Definition updateResource (g : Group) (c : Controller) : M unit :=
  (* basic input data check *)
  one ← requestResource;
  ctx ← getCtx;
  (* check resource type *)
  when (negb (String.eqb (RType one) (ResourceType (JSONAPIRequest ctx))))
    (abort (BadRequest "resource type mismatch"));;
  (* check id *)
  when (negb (String.eqb (RID one) (ResourceID (JSONAPIRequest ctx))))
    (abort (BadRequest "resource id mismatch"));;
  (* load model *)
  loadModel c;;
  (* get stored idempotent create token *)
  storedIdempotentCreateToken ← updateResource_created c;
  (* get and reset stored consistent update token *)
  storedConsistentUpdateToken ← updateResource_token c;
  (* assign attributes, check the idempotent create token, run validators *)
  updateResource_assign c one storedIdempotentCreateToken;;
  (* replace the model, consistently if enabled *)
  updateResource_replace c storedConsistentUpdateToken;;
  (* decorate, preload, respond, notify *)
  updateResource_respond g c.

(** The removal of [deleteResource]: the soft delete, which sets the
    delete timestamp, or the delete. *)
Definition deleteResource_remove (c : Controller) : M unit :=
  model ← theModel;
  ctx ← getCtx;
  (* check if soft delete has been enabled *)
  if SoftDelete c then
    (* get soft delete field *)
    softDeleteField ← flagged (meta c) "fire-soft-delete";
    (* soft delete model *)
    now ← timeNow;
    res ← call (manager.Update (Transaction ctx) (meta c) (DocID model)
                  [(softDeleteField, VTime now)] false);
    _ ← abortIf res;
    mret tt
  else
    (* delete model *)
    res ← call (manager.Delete (meta c) (DocID model));
    _ ← abortIf res;
    mret tt.

Definition deleteResource (g : Group) (c : Controller) : M unit :=
  (* load model *)
  loadModel c;;
  (* run validators *)
  runCallbacks (Validators c) StatusBadRequest;;
  (* soft delete or delete the model *)
  deleteResource_remove c;;
  (* run notifiers *)
  runCallbacks (Notifiers c) StatusInternalServerError;;
  (* set status *)
  modifyCtx (setHeader (Some StatusNoContent)).

(** *** Relationships *)

(** Runs a virtual request on its own context and keeps that context next
    to the one of the caller; the world is shared. *)
Definition subRequest (m : M unit) (subCtx : Context) : M Context :=
  fun ctx w =>
    match m subCtx w with
    | Ok _ subCtx' w' => Ok subCtx' ctx w'
    | Abort e w' => Abort e w'
    end.

Definition relatedRequest (r : Request) (type : string) : Request :=
  {| Intent_ := ListResources; Prefix := Prefix r; ResourceType := type;
     ResourceID := ""; RelatedResource := "";
     Relationship := Relationship r; CollectionAction_ := CollectionAction_ r;
     ResourceAction_ := ResourceAction_ r; Fields := Fields r;
     ReqFilters := ReqFilters r; ReqSorting := ReqSorting r;
     PageNumber := PageNumber r; PageSize := PageSize r |}.

Definition subContext (ctx : Context) (req : Request) : Context :=
  {| Operation_ := List; Selector := ∅; Filters := []; Sorting := [];
     ReadableFields := []; WritableFields := []; RelationshipFilters := ∅;
     Body := None; Request_ := None; Model_ := None; Models := []; Original := None;
     Response := None; ResponseCode := 0; JSONAPIRequest := req;
     Transaction := Transaction ctx; Header := None |}.

Definition responseMany (ctx : Context) : M (list Resource) :=
  response ← must "nil pointer dereference: no response" (Response ctx);
  data ← must "nil pointer dereference: no response data" (Data response);
  mret (Many data).

Definition Replace1 (s from to : string) : string :=
  match String.index 0 from s with
  | Some n =>
      String.substring 0 n s ++ to
      ++ String.substring (n + String.length from) (String.length s - n - String.length from) s
  | None => s
  end.

Definition rewriteLinks (from to : string) (l : DocumentLinks) : DocumentLinks :=
  {| LSelf := Replace1 (LSelf l) from to; LRelated := Replace1 (LRelated l) from to;
     LFirst := Replace1 (LFirst l) from to; LPrevious := Replace1 (LPrevious l) from to;
     LNext := Replace1 (LNext l) from to; LLast := Replace1 (LLast l) from to |}.

Definition operationOf (i : Intent) : Operation :=
  match i with
  | ListResources => List
  | FindResource => Find
  | CreateResource => Create
  | UpdateResource => Update
  | DeleteResource => Delete
  | GetRelatedResources | GetRelationship => Find
  | SetRelationship | AppendToRelationship | RemoveFromRelationship => Update
  | jsonapi.CollectionAction => CollectionAction
  | jsonapi.ResourceAction => ResourceAction
  end.

(** The transaction around an operation.

    Modelled from the spec: [Store.T] is not among the sources. The spec
    (4.1, step 7) opens a storage transaction, runs the operation handler
    inside it, commits on success and rolls back on any error; a request
    that already runs in a transaction (a virtual request for a
    relationship) shares it. *)
Definition T (m : M unit) : M unit :=
  fun ctx w =>
    if Transaction ctx then m ctx w
    else
      match m (setTransaction true ctx) w with
      | Ok a ctx' w' => Ok a ctx' w'
      | Abort e w' => Abort e (setStore (store w) w')
      end.

(** [Controller.handle] for a request that has been parsed, over the
    dispatch [runOperation]. The response is not written here. *)
Definition handleWith (runOperation : Controller -> M unit) (c : Controller)
    (selector : gmap string Cond) : M unit :=
  (* parse document if not yet present and expected *)
  ctx ← getCtx;
  match Request_ ctx, DocumentExpected (Intent_ (JSONAPIRequest ctx)) with
  | None, true =>
      doc ← match Body ctx with
            | Some doc => mret doc
            | None => abort (BadRequest "invalid document")
            end;
      modifyCtx (setRequest (Some doc))
  | _, _ => mret tt
  end;;
  (* validate id if present *)
  when (negb (String.eqb (ResourceID (JSONAPIRequest ctx)) "")
        && negb (IsHex (ResourceID (JSONAPIRequest ctx))))
    (abort (BadRequest "invalid resource id"));;
  (* set operation *)
  modifyCtx (setOperation (operationOf (Intent_ (JSONAPIRequest ctx))));;
  (* check if supported *)
  ctx ← getCtx;
  when (negb (Supported c ctx))
    (abort (ErrorFromStatus StatusMethodNotAllowed "unsupported operation"));;
  (* prepare context *)
  modifyCtx (fun ctx => setFilters [] (setSelector selector ctx));;
  readable ← initialFields c (Some (JSONAPIRequest ctx));
  modifyCtx (setReadableFields readable);;
  writable ← initialFields c None;
  modifyCtx (fun ctx => setRelationshipFilters ∅ (setWritableFields writable ctx));;
  (* run operation with transaction if not an action *)
  ctx ← getCtx;
  if negb (Action_ (Operation_ ctx)) then T (runOperation c) else runOperation c.

(** The dispatch of a virtual request: its intent is [ListResources]. *)
Definition subOperation (g : Group) (c : Controller) : M unit :=
  ctx ← getCtx;
  match Intent_ (JSONAPIRequest ctx) with
  | ListResources => listResources g c
  | _ => abort (PlainError "a virtual request lists resources")
  end.

Definition virtualRequest (g : Group) (rc : Controller) (selector : gmap string Cond)
    (subCtx : Context) : M Context :=
  subRequest (handleWith (subOperation g) rc selector) subCtx.

(** The check of a to-one or has-one response and the pull of its
    resource. *)
Definition finishOne (msg : string) (subCtx : Context) : M Context :=
  (* check response *)
  many ← responseMany subCtx;
  if (1 <? length many)%nat then abort (PlainError msg)
  else
    (* pull out resource and unset list *)
    response ← must "nil pointer dereference: no response" (Response subCtx);
    data ← must "nil pointer dereference: no response data" (Data response);
    let one := match many with [r] => Some r | _ => One data end in
    mret (setResponse (Some (MkDocument (Some (MkHybrid one [])) (Links response))) subCtx).

Definition getRelatedResources (g : Group) (c : Controller) : M unit :=
  ctx ← getCtx;
  (* find relationship *)
  match Relationships (meta c) (RelatedResource (JSONAPIRequest ctx)) with
  | None => abort (BadRequest "invalid relationship")
  | Some rel =>
      (* load model *)
      loadModel c;;
      (* check if relationship is readable *)
      ctx ← getCtx;
      when (negb (Contains (ReadableFields ctx) (Name rel)))
        (abort (BadRequest "relationship is not readable"));;
      (* get related controller *)
      rc ← must ("missing related controller for " ++ RelType rel) (g !! RelType rel);
      (* prepare sub context, copy and prepare request *)
      let subCtx := subContext ctx (relatedRequest (JSONAPIRequest ctx) (RelType rel)) in
      model ← theModel;
      (* finish to-one relationship *)
      subCtx ← (if ToOne rel then
                  (* lookup id of related resource *)
                  fresh ← newID;
                  v ← MustGet (Name rel);
                  id ← (if Optional rel then oid ← asOptionalID v; mret (default fresh oid)
                        else asID v);
                  (* handle virtual request *)
                  subCtx ← virtualRequest g rc {["_id" := CEq (VID id)]} subCtx;
                  finishOne "to one relationship returned more than one result" subCtx
                else mret subCtx);
      (* finish to-many relationship *)
      subCtx ← (if ToMany rel then
                  (* get ids from loaded model *)
                  v ← MustGet (Name rel);
                  ids ← asIDs v;
                  (* handle virtual request *)
                  virtualRequest g rc {["_id" := CIn (List.map VID ids)]} subCtx
                else mret subCtx);
      (* finish has-one relationship *)
      subCtx ← (if HasOne rel then
                  (* find inverse relationship *)
                  inverse ← must "nil pointer dereference: no inverse relationship"
                              (Relationships (meta rc) (RelInverse rel));
                  (* handle virtual request *)
                  subCtx ← virtualRequest g rc {[BSONField inverse := CEq (VID (DocID model))]} subCtx;
                  finishOne "has one relationship returned more than one result" subCtx
                else mret subCtx);
      (* finish has-many relationship *)
      subCtx ← (if HasMany rel then
                  (* find inverse relationship *)
                  inverse ← must "nil pointer dereference: no inverse relationship"
                              (Relationships (meta rc) (RelInverse rel));
                  (* handle virtual request *)
                  virtualRequest g rc {[BSONField inverse := CIn [VID (DocID model)]]} subCtx
                else mret subCtx);
      (* copy response *)
      response ← must "nil pointer dereference: no response" (Response subCtx);
      links ← must "nil pointer dereference: no links" (Links response);
      (* rewrite links *)
      ctx ← getCtx;
      let from := Self (JSONAPIRequest subCtx) in
      let to := Self (JSONAPIRequest ctx) in
      respond (ResponseCode subCtx)
        (Some (MkDocument (Data response) (Some (rewriteLinks from to links))))
  end.

(** The response of the relationship intents: the document of the
    relationship in the resource of the model. *)
Definition respondRelationship (g : Group) (c : Controller) : M unit :=
  (* preload relationships *)
  model ← theModel;
  relationships ← preloadRelationships g c [model];
  (* get resource *)
  resource ← resourceForModel c model (Some relationships);
  (* get relationship *)
  ctx ← getCtx;
  respond StatusOK
    (snd <$> List.find (fun kv => String.eqb (fst kv) (Relationship (JSONAPIRequest ctx)))
       (RRelationships resource));;
  (* run notifiers *)
  runCallbacks (Notifiers c) StatusInternalServerError.

Definition getRelationship (g : Group) (c : Controller) : M unit :=
  ctx ← getCtx;
  (* get relationship *)
  match Relationships (meta c) (Relationship (JSONAPIRequest ctx)) with
  | None => abort (BadRequest "invalid relationship")
  | Some field =>
      (* load model *)
      loadModel c;;
      (* check if relationship is readable *)
      ctx ← getCtx;
      when (negb (Contains (ReadableFields ctx) (Name field)))
        (abort (BadRequest "relationship is not readable"));;
      (* run decorators *)
      runCallbacks (Decorators c) StatusInternalServerError;;
      respondRelationship g c
  end.

Definition partialUpdatesNotAllowed : Error :=
  ErrorFromStatus StatusMethodNotAllowed "partial updates not allowed with consistent updates".

(** The common end of the relationship mutations: validate, replace,
    decorate and respond. *)
Definition replaceAndRespond (g : Group) (c : Controller) : M unit :=
  (* run validators *)
  runCallbacks (Validators c) StatusBadRequest;;
  (* replace model *)
  model ← theModel;
  ctx ← getCtx;
  res ← call (Replace (Transaction ctx) (meta c) model false);
  '(_, model) ← abortIfDuplicate res;
  modifyCtx (setModel (Some model));;
  (* run decorators *)
  runCallbacks (Decorators c) StatusInternalServerError;;
  respondRelationship g c.

Definition setRelationship (g : Group) (c : Controller) : M unit :=
  (* abort if consistent update is enabled *)
  when (ConsistentUpdate c) (abort partialUpdatesNotAllowed);;
  (* get relationship *)
  ctx ← getCtx;
  match Relationships (meta c) (Relationship (JSONAPIRequest ctx)) with
  | None => abort (BadRequest "invalid relationship")
  | Some rel =>
      when (negb (ToOne rel) && negb (ToMany rel)) (abort (BadRequest "invalid relationship"));;
      (* load model *)
      loadModel c;;
      (* check if relationship is writable *)
      ctx ← getCtx;
      when (negb (Contains (WritableFields ctx) (Name rel)))
        (abort (BadRequest "relationship is not writable"));;
      (* assign relationship *)
      request ← must "nil pointer dereference: no request document" (Request_ ctx);
      assignRelationship c request rel;;
      replaceAndRespond g c
  end.

(** [ctx.Request.Data.Many]. *)
Definition requestMany : M (list Resource) :=
  data ← requestData;
  data ← must "nil pointer dereference: no request data" data;
  mret (Many data).

(** The id of a reference of the request document, after the check of
    its type. *)
Definition referenceID (rel : Field) (ref : Resource) : M ID :=
  (* check type *)
  when (negb (String.eqb (RType ref) (RelType rel)))
    (abort (BadRequest "resource type mismatch"));;
  (* get id *)
  parseID "invalid relationship id" (RID ref).

(** One round of the loop of [appendToRelationship]. *)
Definition appendReference (rel : Field) (ref : Resource) : M unit :=
  refID ← referenceID rel ref;
  (* get current ids *)
  v ← MustGet (Name rel);
  ids ← asIDs v;
  (* check if id is already present *)
  if coal.Contains ids refID then mret tt
  (* add id *)
  else MustSet (Name rel) (VIDs (ids ++ [refID])).

Definition appendToRelationship (g : Group) (c : Controller) : M unit :=
  (* abort if consistent update is enabled *)
  when (ConsistentUpdate c) (abort partialUpdatesNotAllowed);;
  (* get relationship *)
  ctx ← getCtx;
  match Relationships (meta c) (Relationship (JSONAPIRequest ctx)) with
  | None => abort (BadRequest "invalid relationship")
  | Some rel =>
      when (negb (ToMany rel)) (abort (BadRequest "invalid relationship"));;
      (* load model *)
      loadModel c;;
      (* check if relationship is writable *)
      ctx ← getCtx;
      when (negb (Contains (WritableFields ctx) (Name rel)))
        (abort (BadRequest "relationship is not writable"));;
      (* process all references *)
      refs ← requestMany;
      forEach (appendReference rel) refs;;
      replaceAndRespond g c
  end.

(** The position mark of [removeFromRelationship]: the index of the last
    id equal to [refID], or the initial mark. *)
Fixpoint markPosition (ids : list ID) (refID : ID) (i pos : Z) : Z :=
  match ids with
  | [] => pos
  | id :: rest => markPosition rest refID (i + 1) (if N.eqb id refID then i else pos)
  end.

(** [append(ids[:pos], ids[pos+1:]...)]. *)
Definition removeAt (ids : list ID) (pos : Z) : list ID :=
  (List.firstn (Z.to_nat pos) ids ++ List.skipn (Z.to_nat (pos + 1)) ids)%list.

(** One round of the loop of [removeFromRelationship]. *)
Definition removeReference (rel : Field) (ref : Resource) : M unit :=
  refID ← referenceID rel ref;
  (* get current ids *)
  v ← MustGet (Name rel);
  ids ← asIDs v;
  (* check if id is already present *)
  let pos := markPosition ids refID 0 (-1) in
  (* remove id if present *)
  if 0 <=? pos then MustSet (Name rel) (VIDs (removeAt ids pos))
  else mret tt.

Definition removeFromRelationship (g : Group) (c : Controller) : M unit :=
  (* abort if consistent update is enabled *)
  when (ConsistentUpdate c) (abort partialUpdatesNotAllowed);;
  (* get relationship *)
  ctx ← getCtx;
  match Relationships (meta c) (Relationship (JSONAPIRequest ctx)) with
  | None => abort (BadRequest "invalid relationship")
  | Some rel =>
      when (negb (ToMany rel)) (abort (BadRequest "invalid relationship"));;
      (* load model *)
      loadModel c;;
      (* check if relationship is writable *)
      ctx ← getCtx;
      when (negb (Contains (WritableFields ctx) (Name rel)))
        (abort (BadRequest "relationship is not writable"));;
      (* process all references *)
      refs ← requestMany;
      forEach (removeReference rel) refs;;
      replaceAndRespond g c
  end.

(** *** Actions *)

Definition handleCollectionAction (c : Controller) : M unit :=
  (* get action *)
  ctx ← getCtx;
  match CollectionActions c !! CollectionAction_ (JSONAPIRequest ctx) with
  | None => abort (PlainError "missing collection action callback")
  | Some action =>
      (* run authorizers *)
      runCallbacks (Authorizers c) StatusUnauthorized;;
      (* run callback *)
      runAction action StatusBadRequest
  end.

Definition handleResourceAction (c : Controller) : M unit :=
  (* get action *)
  ctx ← getCtx;
  match ResourceActions c !! ResourceAction_ (JSONAPIRequest ctx) with
  | None => abort (PlainError "missing resource action callback")
  | Some action =>
      (* load model *)
      loadModel c;;
      (* run callback *)
      runAction action StatusBadRequest
  end.

(** *** Dispatch *)

Definition runOperation (g : Group) (c : Controller) : M unit :=
  ctx ← getCtx;
  match Intent_ (JSONAPIRequest ctx) with
  | ListResources => listResources g c
  | FindResource => findResource g c
  | CreateResource => createResource g c
  | UpdateResource => updateResource g c
  | DeleteResource => deleteResource g c
  | GetRelatedResources => getRelatedResources g c
  | GetRelationship => getRelationship g c
  | SetRelationship => setRelationship g c
  | AppendToRelationship => appendToRelationship g c
  | RemoveFromRelationship => removeFromRelationship g c
  | jsonapi.CollectionAction => handleCollectionAction c
  | jsonapi.ResourceAction => handleResourceAction c
  end.

Definition handle (g : Group) (c : Controller) (selector : gmap string Cond) : M unit :=
  handleWith (runOperation g) c selector.

End fire.

(** ** The authorization strategies of [ash]

    An authorizer inspects the context of a request and returns a set of
    enforcers, no set, or an error. A strategy is a callback of the
    controller: it consults its authorizers in order and runs the
    enforcers of the first authorizer that returns a set. *)

Module ash.
Import coal mongo manager jsonapi fire.

(** [fire.ErrAccessDenied] (callbacks.go). *)
Definition ErrAccessDenied : Error := ErrorFromStatus StatusUnauthorized "access denied".

(** An enforcer is a callback of the controller. *)
Abbreviation Enforcer := Callback.

(** What the handler of an authorizer returns: a set of enforcers or no
    set ([nil]), with the context and the world as the handler leaves
    them, or an error, marked as safe or not. *)
Inductive Outcome :=
| Enforcers (set : option (list Enforcer)) (ctx : Context) (w : World)
| Safe (msg : string) (w : World)
| Fail (e : Error) (w : World).

Record Authorizer := {
  Matcher : Context -> bool;
  Handler : Context -> World -> Outcome;
}.

(** [A]: the authorizer of a matcher and a handler. Without a matcher it
    matches every context ([fire.All]). The handler is wrapped in tracing
    code, which is left out. *)
Definition A (name : string) (m : option (Context -> bool))
    (h : Context -> World -> Outcome) : Authorizer :=
  {| Matcher := default (fun _ => true) m; Handler := h |}.

Definition And (a b : Authorizer) : Authorizer :=
  A "ash/And" (Some (fun ctx => Matcher a ctx && Matcher b ctx)) (fun ctx w =>
    (* check if callback a can be run *)
    if negb (Matcher a ctx) then Enforcers None ctx w
    else
      (* run first callback *)
      match Handler a ctx w with
      | Enforcers (Some enforcers1) ctx w =>
          (* check if callback b can be run *)
          if negb (Matcher b ctx) then Enforcers None ctx w
          else
            (* run second callback *)
            match Handler b ctx w with
            | Enforcers (Some enforcers2) ctx w =>
                (* merge both sets *)
                Enforcers (Some (enforcers1 ++ enforcers2)%list) ctx w
            | r => r
            end
      | r => r
      end).

Definition Or (a b : Authorizer) : Authorizer :=
  A "ash/Or" (Some (fun ctx => Matcher a ctx || Matcher b ctx)) (fun ctx w =>
    (* check first authorizer *)
    match (if Matcher a ctx then Handler a ctx w else Enforcers None ctx w) with
    | Enforcers None ctx w =>
        (* check second authorizer *)
        if Matcher b ctx then Handler b ctx w else Enforcers None ctx w
    | r => r
    end).

Record Strategy := {
  (* single operations *)
  List : list Authorizer;
  Find : list Authorizer;
  Create : list Authorizer;
  Update : list Authorizer;
  Delete : list Authorizer;
  (* single action operations *)
  CollectionAction : gmap string (list Authorizer);
  ResourceAction : gmap string (list Authorizer);
  (* all action operations *)
  CollectionActions : list Authorizer;
  ResourceActions : list Authorizer;
  (* all List and Find operations *)
  Read : list Authorizer;
  (* all Create, Update and Delete operations *)
  Write : list Authorizer;
  (* all CollectionAction and ResourceAction operations *)
  Actions : list Authorizer;
  (* all operations *)
  All : list Authorizer;
}.

(** The loop of [Strategy.call] over the enforcers of an authorizer. An
    enforcer that does not match the context is a panic, which is an
    error that is not safe. *)
Fixpoint enforce (enforcers : list Enforcer) (ctx : Context) (w : World) : CbResult :=
  match enforcers with
  | [] => CbOk ctx w
  | enforcer :: rest =>
      (* check if enforcer can be run *)
      if negb (fire.Matcher enforcer ctx) then CbFail (PlainError "ash: not supported") w
      else
        (* run callback and return error *)
        match fire.Handler enforcer ctx w with
        | CbOk ctx w => enforce rest ctx w
        | r => r
        end
  end.

(** The loop of [Strategy.call] over the authorizers of one list: what
    the call returns, or the context and the world with which the next
    list is consulted. *)
Fixpoint callList (list : list Authorizer) (ctx : Context) (w : World)
    : CbResult + Context * World :=
  match list with
  | [] => inr (ctx, w)
  | authorizer :: rest =>
      (* check if authenticator can be run *)
      if negb (Matcher authorizer ctx) then callList rest ctx w
      else
        (* run callback and return on error *)
        match Handler authorizer ctx w with
        | Safe msg w => inl (CbSafe msg w)
        | Fail e w => inl (CbFail e w)
        (* run enforcers on success *)
        | Enforcers (Some enforcers) ctx w => inl (enforce enforcers ctx w)
        | Enforcers None ctx w => callList rest ctx w
        end
  end.

Fixpoint call (lists : list (list Authorizer)) (ctx : Context) (w : World) : CbResult :=
  match lists with
  | [] => CbFail ErrAccessDenied w
  | list :: rest =>
      match callList list ctx w with
      | inl r => r
      | inr (ctx, w) => call rest ctx w
      end
  end.

(** [Strategy.Callback]: the callback, made with [fire.C] and no matcher,
    matches every context. *)
Definition Callback (s : Strategy) : fire.Callback :=
  {| fire.Matcher := fun _ => true;
     fire.Handler := fun ctx w =>
       match Operation_ ctx with
       | fire.List => call [List s; Read s; All s] ctx w
       | fire.Find => call [Find s; Read s; All s] ctx w
       | fire.Create => call [Create s; Write s; All s] ctx w
       | fire.Update => call [Update s; Write s; All s] ctx w
       | fire.Delete => call [Delete s; Write s; All s] ctx w
       | fire.CollectionAction =>
           call [default [] (CollectionAction s !! CollectionAction_ (JSONAPIRequest ctx));
                 CollectionActions s; Actions s; All s] ctx w
       | fire.ResourceAction =>
           call [default [] (ResourceAction s !! ResourceAction_ (JSONAPIRequest ctx));
                 ResourceActions s; Actions s; All s] ctx w
       end |}.

End ash.

(** ** A blog: the models of the test suite

    Posts with comments (has-many), a note (has-one) and related posts
    (to-many), as the models of the tests of [coal], with the flagged
    fields of the three mechanisms. The theorems below are instantiated
    on these controllers. *)

Module blog.
Import coal mongo manager jsonapi fire.

Definition attribute (name key bson : string) (type : FType) (flags : list string) : Field :=
  {| Name := name; Type_ := type; JSONKey := key; BSONField := bson; Flags := flags;
     Optional := false; ToOne := false; ToMany := false; HasOne := false; HasMany := false;
     RelName := ""; RelType := ""; RelInverse := "" |}.

Definition toOne (name bson rel type : string) : Field :=
  {| Name := name; Type_ := TID; JSONKey := ""; BSONField := bson; Flags := [];
     Optional := false; ToOne := true; ToMany := false; HasOne := false; HasMany := false;
     RelName := rel; RelType := type; RelInverse := "" |}.

Definition toMany (name bson rel type : string) : Field :=
  {| Name := name; Type_ := TIDs; JSONKey := ""; BSONField := bson; Flags := [];
     Optional := false; ToOne := false; ToMany := true; HasOne := false; HasMany := false;
     RelName := rel; RelType := type; RelInverse := "" |}.

Definition hasOne (name rel type inverse : string) : Field :=
  {| Name := name; Type_ := THasOne; JSONKey := ""; BSONField := ""; Flags := [];
     Optional := false; ToOne := false; ToMany := false; HasOne := true; HasMany := false;
     RelName := rel; RelType := type; RelInverse := inverse |}.

Definition hasMany (name rel type inverse : string) : Field :=
  {| Name := name; Type_ := THasMany; JSONKey := ""; BSONField := ""; Flags := [];
     Optional := false; ToOne := false; ToMany := false; HasOne := false; HasMany := true;
     RelName := rel; RelType := type; RelInverse := inverse |}.

Definition postMeta : Meta :=
  {| MetaName := "Post"; PluralName := "posts"; Collection := "posts";
     OrderedFields :=
       [ attribute "Title" "title" "title" TString [];
         attribute "Deleted" "deleted" "deleted_at" TTimePtr ["fire-soft-delete"];
         attribute "CreateToken" "create-token" "create_token" TString ["fire-idempotent-create"];
         attribute "UpdateToken" "update-token" "update_token" TString ["fire-consistent-update"];
         hasMany "Comments" "comments" "comments" "post";
         hasOne "Note" "note" "notes" "post";
         toMany "Related" "related_ids" "related" "posts" ] |}.

Definition commentMeta : Meta :=
  {| MetaName := "Comment"; PluralName := "comments"; Collection := "comments";
     OrderedFields :=
       [ attribute "Message" "message" "message" TString [];
         attribute "Deleted" "deleted" "deleted_at" TTimePtr ["fire-soft-delete"];
         toOne "Post" "post_id" "post" "posts" ] |}.

Definition noteMeta : Meta :=
  {| MetaName := "Note"; PluralName := "notes"; Collection := "notes";
     OrderedFields :=
       [ attribute "Title" "title" "title" TString [];
         toOne "Post" "post_id" "post" "posts" ] |}.

Definition controller (m : Meta) (idempotent consistent soft : bool) : Controller :=
  {| meta := m; Supported := fun _ => true; CFilters := ["Title"]; Sorters := ["Title"];
     Authorizers := []; Validators := []; Decorators := []; Notifiers := [];
     ListLimit := 0; CollectionActions := ∅; ResourceActions := ∅;
     TolerateViolations := false; IdempotentCreate := idempotent;
     ConsistentUpdate := consistent; SoftDelete := soft |}.

(** The posts controller with all three mechanisms, and with none. *)
Definition posts : Controller := controller postMeta true true true.
Definition plainPosts : Controller := controller postMeta false false false.
Definition comments : Controller := controller commentMeta false false true.
Definition notes : Controller := controller noteMeta false false false.

Definition group : Group :=
  {[ "posts" := posts; "comments" := comments; "notes" := notes ]}.

Definition request (intent : Intent) (id : string) : Request :=
  {| Intent_ := intent; Prefix := ""; ResourceType := "posts"; ResourceID := id;
     RelatedResource := ""; Relationship := ""; CollectionAction_ := ""; ResourceAction_ := "";
     Fields := ∅; ReqFilters := []; ReqSorting := []; PageNumber := 0; PageSize := 0 |}.

Definition relationshipRequest (intent : Intent) (id relationship : string) : Request :=
  {| Intent_ := intent; Prefix := ""; ResourceType := "posts"; ResourceID := id;
     RelatedResource := ""; Relationship := relationship; CollectionAction_ := "";
     ResourceAction_ := ""; Fields := ∅; ReqFilters := []; ReqSorting := [];
     PageNumber := 0; PageSize := 0 |}.

Definition commentRequest (intent : Intent) (id : string) : Request :=
  {| Intent_ := intent; Prefix := ""; ResourceType := "comments"; ResourceID := id;
     RelatedResource := ""; Relationship := ""; CollectionAction_ := ""; ResourceAction_ := "";
     Fields := ∅; ReqFilters := []; ReqSorting := []; PageNumber := 0; PageSize := 0 |}.

Definition relatedRequest (id related : string) : Request :=
  {| Intent_ := GetRelatedResources; Prefix := ""; ResourceType := "posts"; ResourceID := id;
     RelatedResource := related; Relationship := ""; CollectionAction_ := "";
     ResourceAction_ := ""; Fields := ∅; ReqFilters := []; ReqSorting := [];
     PageNumber := 0; PageSize := 0 |}.

Definition actionRequest (intent : Intent) (id action : string) : Request :=
  {| Intent_ := intent; Prefix := ""; ResourceType := "posts"; ResourceID := id;
     RelatedResource := ""; Relationship := "";
     CollectionAction_ := (if bool_decide (intent = jsonapi.CollectionAction) then action else "");
     ResourceAction_ := (if bool_decide (intent = jsonapi.ResourceAction) then action else "");
     Fields := ∅; ReqFilters := []; ReqSorting := []; PageNumber := 0; PageSize := 0 |}.

Definition pageRequest (number size : Z) : Request :=
  {| Intent_ := ListResources; Prefix := ""; ResourceType := "posts"; ResourceID := "";
     RelatedResource := ""; Relationship := ""; CollectionAction_ := ""; ResourceAction_ := "";
     Fields := ∅; ReqFilters := []; ReqSorting := []; PageNumber := number; PageSize := size |}.

(** The context of an incoming request with its parsed body. *)
Definition incoming (r : Request) (body : option Document) : Context :=
  {| Operation_ := List; Selector := ∅; Filters := []; Sorting := [];
     ReadableFields := []; WritableFields := []; RelationshipFilters := ∅;
     Body := body; Request_ := None; Model_ := None; Models := []; Original := None;
     Response := None; ResponseCode := 0; JSONAPIRequest := r;
     Transaction := false; Header := None |}.

Definition document (id : string) (attributes : list (string * Value)) : Document :=
  MkDocument (Some (MkHybrid (Some (MkResource "posts" id attributes [])) [])) None.

Definition references (type : string) (ids : list ID) : Document :=
  MkDocument (Some (MkHybrid None (List.map (fun id => MkResource type (Hex id) [] []) ids))) None.

Definition post (id : ID) (title createToken updateToken : string) (deleted : Value)
    (related : list ID) : Model :=
  {| DocID := id; Lock := 0;
     fields := {[ "Title" := VString title; "Deleted" := deleted;
                  "CreateToken" := VString createToken; "UpdateToken" := VString updateToken;
                  "Comments" := VNull; "Note" := VNull; "Related" := VIDs related ]} |}.

Definition comment (id : ID) (message : string) (deleted : Value) (post : ID) : Model :=
  {| DocID := id; Lock := 0;
     fields := {[ "Message" := VString message; "Deleted" := deleted; "Post" := VID post ]} |}.

Definition note (id : ID) (title : string) (post : ID) : Model :=
  {| DocID := id; Lock := 0;
     fields := {[ "Title" := VString title; "Post" := VID post ]} |}.

Definition world (ps cs ns : list Model) : World :=
  {| store := {[ "posts" := {| docs := ps; unique := [] |};
                 "comments" := {| docs := cs; unique := [] |};
                 "notes" := {| docs := ns; unique := [] |} ]};
     lastID := 100; clock := 1000 |}.

(** Two callbacks: one that lets every request pass and one that answers
    every request with a safe error. *)
Definition allow : Callback :=
  {| Matcher := fun _ => true; Handler := fun ctx w => CbOk ctx w |}.

Definition deny : Callback :=
  {| Matcher := fun _ => true; Handler := fun _ w => CbSafe "access denied" w |}.

(** A controller that supports the two reading operations only. *)
Definition readOnly (m : Meta) : Controller :=
  {| meta := m;
     Supported := fun ctx => bool_decide (Operation_ ctx = List \/ Operation_ ctx = Find);
     CFilters := []; Sorters := [];
     Authorizers := []; Validators := []; Decorators := []; Notifiers := [];
     ListLimit := 0; CollectionActions := ∅; ResourceActions := ∅;
     TolerateViolations := false; IdempotentCreate := false;
     ConsistentUpdate := false; SoftDelete := false |}.

(** The posts controller with a list limit. *)
Definition limitedPosts (limit : Z) : Controller :=
  {| meta := postMeta; Supported := fun _ => true; CFilters := []; Sorters := [];
     Authorizers := []; Validators := []; Decorators := []; Notifiers := [];
     ListLimit := limit; CollectionActions := ∅; ResourceActions := ∅;
     TolerateViolations := false; IdempotentCreate := false;
     ConsistentUpdate := false; SoftDelete := false |}.

(** The notes controller with a list limit. *)
Definition limitedNotes (limit : Z) : Controller :=
  {| meta := noteMeta; Supported := fun _ => true; CFilters := []; Sorters := [];
     Authorizers := []; Validators := []; Decorators := []; Notifiers := [];
     ListLimit := limit; CollectionActions := ∅; ResourceActions := ∅;
     TolerateViolations := false; IdempotentCreate := false;
     ConsistentUpdate := false; SoftDelete := false |}.

(** A request for the first post with a sparse fieldset. *)
Definition sparseRequest (fields : list string) : Request :=
  {| Intent_ := FindResource; Prefix := ""; ResourceType := "posts"; ResourceID := Hex 1%N;
     RelatedResource := ""; Relationship := ""; CollectionAction_ := ""; ResourceAction_ := "";
     Fields := {[ "posts" := fields ]}; ReqFilters := []; ReqSorting := [];
     PageNumber := 0; PageSize := 0 |}.

(** A request for the list of posts with filters and sorters. *)
Definition filterRequest (filters : list (string * list string)) (sorting : list string) :
    Request :=
  {| Intent_ := ListResources; Prefix := ""; ResourceType := "posts"; ResourceID := "";
     RelatedResource := ""; Relationship := ""; CollectionAction_ := ""; ResourceAction_ := "";
     Fields := ∅; ReqFilters := filters; ReqSorting := sorting;
     PageNumber := 0; PageSize := 0 |}.

(** The posts controller with tolerated violations. *)
Definition tolerantPosts : Controller :=
  {| meta := postMeta; Supported := fun _ => true; CFilters := []; Sorters := [];
     Authorizers := []; Validators := []; Decorators := []; Notifiers := [];
     ListLimit := 0; CollectionActions := ∅; ResourceActions := ∅;
     TolerateViolations := true; IdempotentCreate := false;
     ConsistentUpdate := false; SoftDelete := false |}.

(** Three authorizers: one that grants access without any enforcement,
    one that leaves the decision to others, and one that fails. *)
Definition grant : ash.Authorizer :=
  ash.A "blog/grant" None (fun ctx w => ash.Enforcers (Some [allow]) ctx w).

Definition abstain : ash.Authorizer :=
  ash.A "blog/abstain" None (fun ctx w => ash.Enforcers None ctx w).

Definition refuse : ash.Authorizer :=
  ash.A "blog/refuse" None (fun _ w => ash.Safe "no access for you" w).

(** A strategy that lets everybody read and nobody write. *)
Definition readers : ash.Strategy :=
  {| ash.List := []; ash.Find := []; ash.Create := []; ash.Update := []; ash.Delete := [];
     ash.CollectionAction := ∅; ash.ResourceAction := ∅;
     ash.CollectionActions := []; ash.ResourceActions := [];
     ash.Read := [abstain; grant]; ash.Write := [abstain]; ash.Actions := [];
     ash.All := [] |}.

(** The posts controller behind a strategy. *)
Definition guardedPosts (s : ash.Strategy) : Controller :=
  {| meta := postMeta; Supported := fun _ => true; CFilters := []; Sorters := [];
     Authorizers := [ash.Callback s]; Validators := []; Decorators := []; Notifiers := [];
     ListLimit := 0; CollectionActions := ∅; ResourceActions := ∅;
     TolerateViolations := false; IdempotentCreate := false;
     ConsistentUpdate := false; SoftDelete := false |}.

End blog.

(** ** Vocabulary of the properties *)

Import coal mongo manager jsonapi fire.

(** What a request leaves behind: the status the client sees (of the
    response, of the header written, or of the error) and the world. *)
Definition responseStatus {A : Type} (r : Result A) : Z :=
  match r with
  | Ok _ ctx _ => match Header ctx with Some code => code | None => ResponseCode ctx end
  | Abort e _ => statusOf e
  end.

Definition worldOf {A : Type} (r : Result A) : World :=
  match r with
  | Ok _ _ w => w
  | Abort _ w => w
  end.

(** A computation that only reads: it leaves the context and the world as
    they are, also when it aborts. *)
Definition reads {A : Type} (m : M A) : Prop :=
  forall ctx w,
    match m ctx w with
    | Ok _ ctx' w' => ctx' = ctx /\ w' = w
    | Abort _ w' => w' = w
    end.

(** A computation that may change the context, but not the world. *)
Definition keepsWorld {A : Type} (m : M A) : Prop :=
  forall ctx w,
    match m ctx w with
    | Ok _ _ w' => w' = w
    | Abort _ w' => w' = w
    end.

(** A reader whose aborts are all plain errors. *)
Definition plain {A : Type} (m : M A) : Prop :=
  forall ctx w e w', m ctx w = Abort e w' -> exists msg, e = PlainError msg.

(** The request carries the resource document [one]. *)
Definition carries (ctx : Context) (one : Resource) : Prop :=
  exists doc, Request_ ctx = Some doc /\ Data doc ≫= One = Some one.

(** The Create request of the context bears the token: its document
    passes the checks of the handler, and the model made from it, once
    authorized, assigned and validated, holds the token in the field, has
    an id, and is about to be inserted in a transaction. *)
Definition bears (c : Controller) (field token : string) (ctx : Context) (w : World)
    (model : Model) (ctx1 : Context) (w1 : World) : Prop :=
  exists one,
    carries ctx one /\ RType one = ResourceType (JSONAPIRequest ctx) /\ RID one = "" /\
    createResource_model c one ctx w = Ok tt ctx1 w1 /\
    Model_ ctx1 = Some model /\ Get model field = Some (VString token) /\
    Transaction ctx1 = true /\ IsZero (DocID model) = false.

(** The manager finds the field of a document under the name of the
    field: the name translates to a BSON key that no other field has. *)
Definition storedUnder (m : Meta) (field : string) : Prop :=
  forall d, docValue m d (translate m field) = default VNull (Get d field).

(** A token the controller has handed out: the hex form of an identifier
    that [New] has already produced. *)
Definition issued (w : World) (token : string) : Prop :=
  exists id, (id <= lastID w)%N /\ token = Hex id.

(** The world after one identifier has been drawn. *)
Definition advance (w : World) : World := snd (New w).

(** The value the model of the context has in a field. *)
Definition fieldOf (field : string) (ctx : Context) : option Value :=
  Model_ ctx ≫= fun model => Get model field.



(** The callbacks leave the store as it is. *)
Definition keepStore (list : list Callback) : Prop :=
  forall cb, In cb list -> forall ctx w ctx' w',
    Handler cb ctx w = CbOk ctx' w' -> store w' = store w.

(** The callbacks leave the status of the response as it is. *)
Definition keepCode (list : list Callback) : Prop :=
  forall cb, In cb list -> forall ctx w ctx' w',
    Handler cb ctx w = CbOk ctx' w' -> ResponseCode ctx' = ResponseCode ctx.

(** The location [l] says where the fraction [num / den] of [0, 1) lies
    with respect to one half. *)
Definition locates (l : location) (num den : Z) : Prop :=
  0 <= num < den /\
  l = if num =? 0 then loc_Exact else loc_Inexact (2 * num ?= den).

(** The stored documents that the query of the context selects. *)
Definition matching (c : Controller) (ctx : Context) (w : World) : list Model :=
  List.filter (selects (meta c) (Query_ ctx)) (docsOf (meta c) w).

(** The field is stored in the column [key]: the field name and the key
    both address it, in queries and in updates. *)
Definition column (m : Meta) (field key : string) : Prop :=
  translate m field = key /\ translate m key = key /\
  (forall d, docValue m d key = default VNull (Get d field)) /\
  (forall d v, setKey m d (field, v) = Set_ d field v).

(** A document is live when its delete timestamp is not set. *)
Definition live (field : string) (d : Model) : Prop :=
  default VNull (Get d field) = VNull.

(** The selector of the context constrains the key to nil. *)
Definition nilAt (key : string) (ctx : Context) : Prop :=
  Selector ctx !! key = Some (CEq VNull).

(** The callbacks keep a nil constraint of the selector. *)
Definition keepNil (key : string) (list : list Callback) : Prop :=
  forall cb, In cb list -> forall ctx w ctx' w',
    Handler cb ctx w = CbOk ctx' w' -> nilAt key ctx -> nilAt key ctx'.

(** The ids of the resources of a response, and the ids that its one
    resource references in a relationship. *)
Definition listed (r : Result unit) : list string :=
  match r with
  | Ok _ ctx _ => default [] (List.map RID <$> (Many <$> (Response ctx ≫= Data)))
  | Abort _ _ => []
  end.

Definition referenced (name : string) (r : Result unit) : list string :=
  match r with
  | Ok _ ctx _ =>
      default []
        (one ← (Response ctx ≫= Data) ≫= One;
         doc ← snd <$> List.find (fun kd => String.eqb (fst kd) name) (RRelationships one);
         List.map RID <$> (Many <$> Data doc))
  | Abort _ _ => []
  end.

(** The id of the one resource of a response. *)
Definition only (r : Result unit) : option string :=
  match r with
  | Ok _ ctx _ => RID <$> ((Response ctx ≫= Data) ≫= One)
  | Abort _ _ => None
  end.

(** The stored documents of the related controller that reference the
    model through the inverse of a has-one or has-many relationship. *)
Definition referencing (rc : Controller) (inverse : Field) (id : ID) (w : World) : list Model :=
  findAll (meta rc) [{[BSONField inverse := CEq (VID id)]}] w.

(** The request document is there already, or none is expected, or the
    body holds one. *)
Definition parsed (ctx : Context) : Prop :=
  Request_ ctx = None -> DocumentExpected (Intent_ (JSONAPIRequest ctx)) = true ->
  Body ctx <> None.

(** The context once the document of the body, when one is expected and
    none is there yet, has been taken as the request document. *)
Definition received (ctx : Context) : Context :=
  match Request_ ctx, DocumentExpected (Intent_ (JSONAPIRequest ctx)) with
  | None, true => setRequest (Body ctx) ctx
  | _, _ => ctx
  end.

(** The names of all attributes and relationships of the model. *)
Definition allFields (c : Controller) : list string :=
  (List.map Name (AttributeList (meta c)) ++ List.map Name (RelationshipList (meta c)))%list.

(** The fields the request asks for under the type of the controller. *)
Definition requestedFields (c : Controller) (r : Request) : list string :=
  default [] (Fields r !! PluralName (meta c)).

(** The field that a JSON key or a relationship name of a sparse fieldset
    stands for. *)
Definition sparseField (c : Controller) (key : string) : option Field :=
  match Attributes (meta c) key with
  | Some f => Some f
  | None => Relationships (meta c) key
  end.

(** A filter of the request that [loadModels] accepts: it names a
    filterable attribute, or a filterable to-one or to-many relationship
    with object ids as values. *)
Definition validFilter (c : Controller) (nv : string * list string) : Prop :=
  match Attributes (meta c) (fst nv) with
  | Some f => Contains (CFilters c) (Name f) = true
  | None =>
      match Relationships (meta c) (fst nv) with
      | Some f =>
          (ToOne f = true \/ ToMany f = true) /\ Contains (CFilters c) (Name f) = true /\
          Forall (fun value => IsHex value = true) (snd nv)
      | None => False
      end
  end.

(** A sorter of the request that [loadModels] accepts: it names, after
    its sign, a sortable attribute. *)
Definition validSorter (c : Controller) (sorter : string) : Prop :=
  exists f, Attributes (meta c) (TrimPrefix sorter "-") = Some f /\
            Contains (Sorters c) (Name f) = true.

(** The pagination of a request after the list limit has been applied. *)
Definition limited (c : Controller) (r : Request) : Request :=
  if (0 <? ListLimit c) && ((PageSize r =? 0) || (ListLimit c <? PageSize r))
  then setPage (if PageNumber r =? 0 then 1 else PageNumber r) (ListLimit c) r
  else r.

(** The callbacks leave the parsed request of the context as it is. *)
Definition keepRequest (list : list Callback) : Prop :=
  forall cb, In cb list -> forall ctx w ctx' w',
    Handler cb ctx w = CbOk ctx' w' -> JSONAPIRequest ctx' = JSONAPIRequest ctx.

(** The references of a request document for the relationship: each of
    the type of the relationship, with the object id it names. *)
Definition refer (rel : Field) (refs : list Resource) (xs : list ID) : Prop :=
  Forall2 (fun ref x => RType ref = RelType rel /\ FromHex (RID ref) = Some x) refs xs.

(** The callbacks leave the list of writable fields as it is. *)
Definition keepWritable (list : list Callback) : Prop :=
  forall cb, In cb list -> forall ctx w ctx' w',
    Handler cb ctx w = CbOk ctx' w' -> WritableFields ctx' = WritableFields ctx.

(** What a relationship request has passed when it changes a
    relationship: the relationship it names exists, is of a kind that the
    request can change, and is writable. *)
Definition changeable (c : Controller) (ctx : Context) (kind : Field -> bool) : Prop :=
  ConsistentUpdate c = false /\
  exists rel,
    Relationships (meta c) (Relationship (JSONAPIRequest ctx)) = Some rel /\
    kind rel = true /\
    (keepWritable (Authorizers c) -> In (Name rel) (WritableFields ctx)).

(** The key under which a field is read and written: its JSON key when
    it has one, the name of its relationship otherwise. *)
Definition keyOf (f : Field) : string :=
  if negb (String.eqb (JSONKey f) "") then JSONKey f else RelName f.

(** One of the named fields stands behind the key. *)
Definition standsFor (c : Controller) (names : list string) (key : string) : Prop :=
  key <> "" /\
  exists name f, In name names /\ coal.Fields (meta c) name = Some f /\ keyOf f = key.

(** The fields that the keys of a resource document address. *)
Definition addresses (c : Controller) (res : Resource) (key : string) (f : Field) : Prop :=
  (In key (List.map fst (RAttributes res)) /\ Attributes (meta c) key = Some f) \/
  (In key (List.map fst (RRelationships res)) /\ Relationships (meta c) key = Some f).


(** The authorizer leaves the decision to the next one: it does not match
    the context, or it returns no set of enforcers and leaves the context
    and the world alone. *)
Definition passes (ctx : Context) (w : World) (a : ash.Authorizer) : Prop :=
  ash.Matcher a ctx = false \/ ash.Handler a ctx w = ash.Enforcers None ctx w.

(** The lists of authorizers that a strategy consults for the operation
    of a context, in their order. *)
Definition consulted (s : ash.Strategy) (ctx : Context) : list (list ash.Authorizer) :=
  match Operation_ ctx with
  | List => [ash.List s; ash.Read s; ash.All s]
  | Find => [ash.Find s; ash.Read s; ash.All s]
  | Create => [ash.Create s; ash.Write s; ash.All s]
  | Update => [ash.Update s; ash.Write s; ash.All s]
  | Delete => [ash.Delete s; ash.Write s; ash.All s]
  | CollectionAction =>
      [default [] (ash.CollectionAction s !! CollectionAction_ (JSONAPIRequest ctx));
       ash.CollectionActions s; ash.Actions s; ash.All s]
  | ResourceAction =>
      [default [] (ash.ResourceAction s !! ResourceAction_ (JSONAPIRequest ctx));
       ash.ResourceActions s; ash.Actions s; ash.All s]
  end.

(** * Properties of the controller *)

(** ** The request monad *)

Lemma bind_Ok {A B : Type} (m : M A) (f : A -> M B) ctx w a ctx' w' :
  m ctx w = Ok a ctx' w' -> (m ≫= f) ctx w = f a ctx' w'.
Proof. intros H. unfold mbind, M_bind. now rewrite H. Qed.

Lemma bind_Abort {A B : Type} (m : M A) (f : A -> M B) ctx w e w' :
  m ctx w = Abort e w' -> (m ≫= f) ctx w = Abort e w'.
Proof. intros H. unfold mbind, M_bind. now rewrite H. Qed.

Lemma bind_inv_Ok {A B : Type} (m : M A) (f : A -> M B) ctx w b ctx2 w2 :
  (m ≫= f) ctx w = Ok b ctx2 w2 ->
  exists a ctx1 w1, m ctx w = Ok a ctx1 w1 /\ f a ctx1 w1 = Ok b ctx2 w2.
Proof.
  unfold mbind, M_bind. destruct (m ctx w) as [a ctx1 w1 | e w1] eqn:E; [|discriminate].
  intros H. exists a, ctx1, w1. split; [reflexivity | exact H].
Qed.

Lemma bind_inv_Abort {A B : Type} (m : M A) (f : A -> M B) ctx w e w2 :
  (m ≫= f) ctx w = Abort e w2 ->
  m ctx w = Abort e w2 \/
  exists a ctx1 w1, m ctx w = Ok a ctx1 w1 /\ f a ctx1 w1 = Abort e w2.
Proof.
  unfold mbind, M_bind. destruct (m ctx w) as [a ctx1 w1 | e1 w1] eqn:E; intros H.
  - right. exists a, ctx1, w1. split; [reflexivity | exact H].
  - left. now inversion H.
Qed.

(** ** C5: partial updates under consistent update *)

Lemma C5_counterexample :
  let c := blog.posts in
  let ctx := blog.incoming (blog.relationshipRequest SetRelationship (Hex 1%N) "related")
               (Some (blog.references "posts" [2%N])) in
  let w := blog.world [blog.post 1%N "Hello" "c1" "u1" VNull []] [] [] in
  ConsistentUpdate c = true /\
  responseStatus (handle blog.group c ∅ ctx w) = StatusMethodNotAllowed /\
  responseStatus (handle blog.group c ∅ ctx w) <> StatusConflict.
Proof. vm_compute. repeat split; discriminate. Qed.

Lemma reads_keepsWorld {A : Type} (m : M A) : reads m -> keepsWorld m.
Proof.
  intros H ctx w. specialize (H ctx w). destruct (m ctx w); [tauto | assumption].
Qed.

Lemma reads_ret {A : Type} (a : A) : reads (mret a : M A).
Proof. intros ctx w. now cbn. Qed.

Lemma reads_abort {A : Type} (e : Error) : reads (abort e : M A).
Proof. intros ctx w. reflexivity. Qed.

Lemma reads_bind {A B : Type} (m : M A) (f : A -> M B) :
  reads m -> (forall a, reads (f a)) -> reads (m ≫= f).
Proof.
  intros Hm Hf ctx w. specialize (Hm ctx w). unfold mbind, M_bind.
  destruct (m ctx w) as [a ctx1 w1 | e w1]; [|assumption].
  destruct Hm as [-> ->]. apply Hf.
Qed.

Lemma keepsWorld_bind {A B : Type} (m : M A) (f : A -> M B) :
  keepsWorld m -> (forall a, keepsWorld (f a)) -> keepsWorld (m ≫= f).
Proof.
  intros Hm Hf ctx w. specialize (Hm ctx w). unfold mbind, M_bind.
  destruct (m ctx w) as [a ctx1 w1 | e w1]; [|assumption].
  subst w1. apply Hf.
Qed.

Lemma reads_getCtx : reads getCtx.
Proof. intros ctx w. now cbn. Qed.

Lemma reads_getWorld : reads getWorld.
Proof. intros ctx w. now cbn. Qed.

Lemma keepsWorld_modifyCtx (f : Context -> Context) : keepsWorld (modifyCtx f).
Proof. intros ctx w. reflexivity. Qed.

Lemma reads_must {A : Type} (msg : string) (o : option A) : reads (must msg o).
Proof. destruct o; [apply reads_ret | apply reads_abort]. Qed.

Lemma reads_when (b : bool) (m : M unit) : reads m -> reads (when b m).
Proof. destruct b; [trivial | intros _; apply reads_ret]. Qed.

Lemma keepsWorld_when (b : bool) (m : M unit) : keepsWorld m -> keepsWorld (when b m).
Proof. destruct b; [trivial | intros _; apply reads_keepsWorld, reads_ret]. Qed.

Lemma reads_mapEach {A B : Type} (f : A -> M B) (l : list A) :
  (forall a, reads (f a)) -> reads (mapEach f l).
Proof.
  intros Hf. induction l as [|x l IH]; cbn [mapEach].
  - apply reads_ret.
  - apply reads_bind; [apply Hf | intros y].
    apply reads_bind; [apply IH | intros ys; apply reads_ret].
Qed.

Lemma keepsWorld_mapEach {A B : Type} (f : A -> M B) (l : list A) :
  (forall a, keepsWorld (f a)) -> keepsWorld (mapEach f l).
Proof.
  intros Hf. induction l as [|x l IH]; cbn [mapEach].
  - apply reads_keepsWorld, reads_ret.
  - apply keepsWorld_bind; [apply Hf | intros y].
    apply keepsWorld_bind; [apply IH | intros ys; apply reads_keepsWorld, reads_ret].
Qed.

Lemma keepsWorld_forEach {A : Type} (f : A -> M unit) (l : list A) :
  (forall a, keepsWorld (f a)) -> keepsWorld (forEach f l).
Proof.
  intros Hf. induction l as [|x l IH]; cbn [forEach].
  - apply reads_keepsWorld, reads_ret.
  - apply keepsWorld_bind; [apply Hf | intros _; apply IH].
Qed.

Lemma reads_theModel : reads theModel.
Proof. apply reads_bind; [apply reads_getCtx | intros; apply reads_must]. Qed.

Lemma reads_MustGet name : reads (MustGet name).
Proof. apply reads_bind; [apply reads_theModel | intros; apply reads_must]. Qed.

Lemma keepsWorld_MustSet name v : keepsWorld (MustSet name v).
Proof.
  apply keepsWorld_bind; [apply reads_keepsWorld, reads_theModel | intros m].
  apply keepsWorld_bind; [apply reads_keepsWorld, reads_must | intros _].
  apply keepsWorld_modifyCtx.
Qed.

Lemma reads_asString v : reads (asString v).
Proof. destruct v; first [apply reads_ret | apply reads_abort]. Qed.

Lemma reads_asID v : reads (asID v).
Proof. destruct v; first [apply reads_ret | apply reads_abort]. Qed.

Lemma reads_asOptionalID v : reads (asOptionalID v).
Proof. destruct v; first [apply reads_ret | apply reads_abort]. Qed.

Lemma reads_asIDs v : reads (asIDs v).
Proof. destruct v; first [apply reads_ret | apply reads_abort]. Qed.

Lemma reads_parseID detail str : reads (parseID detail str).
Proof. unfold parseID. destruct (FromHex str); [apply reads_ret | apply reads_abort]. Qed.

Lemma reads_flagged m flag : reads (flagged m flag).
Proof. apply reads_must. Qed.

Lemma reads_bsonKey m field : reads (bsonKey m field).
Proof. apply reads_must. Qed.

Lemma reads_getField model name : reads (getField model name).
Proof. apply reads_must. Qed.

Create HintDb reads.

#[local] Hint Resolve reads_ret reads_abort reads_getCtx reads_getWorld reads_must
  reads_theModel reads_MustGet reads_asString reads_asID reads_asOptionalID reads_asIDs
  reads_parseID reads_flagged reads_bsonKey reads_getField : reads.

(** Proves [reads m] for a computation built from readers. *)
Ltac reader :=
  repeat first
    [ progress intros
    | apply reads_bind
    | apply reads_when
    | apply reads_mapEach
    | solve [eauto with reads]
    | match goal with
      | |- reads (if ?b then _ else _) => destruct b
      | |- reads (match ?o with Some _ => _ | None => _ end) => destruct o
      | |- reads (let (_, _) := ?p in _) => destruct p
      end ].

Lemma reads_initialFields c r : reads (initialFields c r).
Proof.
  unfold initialFields.
  destruct (0 <? length _)%nat; [|apply reads_ret].
  apply reads_bind; [|intros; apply reads_ret].
  apply reads_mapEach. intros field.
  destruct (Attributes (meta c) field); [apply reads_ret|].
  destruct (Relationships (meta c) field); [apply reads_ret | apply reads_abort].
Qed.

Lemma reads_fieldKeys c what names : reads (fieldKeys c what names).
Proof. unfold fieldKeys. reader. Qed.

Lemma reads_relationshipKeys c names : reads (relationshipKeys c names).
Proof. unfold relationshipKeys. reader. Qed.

#[local] Hint Resolve reads_initialFields reads_fieldKeys reads_relationshipKeys : reads.

Lemma setStore_id w : setStore (store w) w = w.
Proof. now destruct w. Qed.

(** Unfolds the plumbing of the monad in the goal. *)
Ltac mstep :=
  repeat (progress (unfold mbind, M_bind, mret, M_ret, getCtx, modifyCtx, getWorld,
                      abort, when, must;
                    cbn beta iota)).

Ltac mstep_in H :=
  repeat (progress (unfold mbind, M_bind, mret, M_ret, getCtx, modifyCtx, getWorld,
                      abort, when, must in H;
                    cbn beta iota in H)).

(** Case analysis on the outcome of a reader in the goal. *)
Ltac read_step :=
  match goal with
  | |- context [match ?m ?ctx ?w with Ok _ _ _ => _ | Abort _ _ => _ end] =>
      let H := fresh "H" in
      assert (H : reads m) by eauto with reads;
      specialize (H ctx w);
      destruct (m ctx w) as [? ? ? | ? ?];
      [destruct H as [-> ->] | subst]
  end.

(** ** The dispatch boundary *)

(** [handle] either rejects the request before it touches the world, or
    runs the operation on a prepared context. *)
Lemma handleWith_run run c sel ctx w :
  (exists e, handleWith run c sel ctx w = Abort e w) \/
  (exists ctx1,
     handleWith run c sel ctx w =
       (if negb (Action_ (Operation_ ctx1)) then T (run c) else run c) ctx1 w /\
     JSONAPIRequest ctx1 = JSONAPIRequest ctx /\
     Transaction ctx1 = Transaction ctx /\
     Operation_ ctx1 = operationOf (Intent_ (JSONAPIRequest ctx)) /\
     Selector ctx1 = sel /\ Filters ctx1 = []).
Proof.
  unfold handleWith. mstep.
  destruct (Request_ ctx) as [doc|];
    [|destruct (DocumentExpected _); [destruct (Body ctx); [|left; eauto]|]];
    (destruct (negb _ && negb _); [left; eauto|]; mstep);
    (destruct (negb (Supported c _)); [left; eauto|]; mstep).
  all: read_step; [|left; eauto].
  all: read_step; [|left; eauto].
  all: right; eexists; split; [reflexivity|]; repeat split; reflexivity.
Qed.

(** An operation that aborts inside its own transaction is rolled back. *)
Lemma T_Abort_store (m : M unit) ctx w e w' :
  T m ctx w = Abort e w' ->
  Transaction ctx = false -> store w' = store w.
Proof.
  unfold T. intros H Ht. rewrite Ht in H.
  destruct (m _ w); [discriminate|]. now inversion H.
Qed.

(** A request that is no action and fails leaves the store as it was. *)
Lemma handle_rollback g c sel ctx w e w' :
  Action_ (operationOf (Intent_ (JSONAPIRequest ctx))) = false ->
  Transaction ctx = false ->
  handle g c sel ctx w = Abort e w' ->
  store w' = store w.
Proof.
  intros Hact Htx H. unfold handle in H.
  destruct (handleWith_run (runOperation g) c sel ctx w)
    as [[e' He] | (ctx1 & He & _ & Htx1 & Hop & _)]; rewrite He in H.
  - now inversion H.
  - rewrite Hop, Hact in H. cbn [negb] in H.
    apply T_Abort_store in H; [assumption | congruence].
Qed.

(** C5, as amended. With ConsistentUpdate enabled, every relationship-set,
    relationship-append and relationship-remove request is rejected before
    any model is loaded and before any callback runs, with the 405 (method
    not allowed) error "partial updates not allowed with consistent
    updates"; the world, and so the stored entity, is exactly as it was. *)
Theorem C5_partial_updates_rejected (g : Group) (c : Controller) (ctx : Context) (w : World) :
  ConsistentUpdate c = true ->
  setRelationship g c ctx w = Abort partialUpdatesNotAllowed w /\
  appendToRelationship g c ctx w = Abort partialUpdatesNotAllowed w /\
  removeFromRelationship g c ctx w = Abort partialUpdatesNotAllowed w /\
  statusOf partialUpdatesNotAllowed = StatusMethodNotAllowed /\
  (forall selector,
     In (Intent_ (JSONAPIRequest ctx))
        [SetRelationship; AppendToRelationship; RemoveFromRelationship] ->
     exists e, handle g c selector ctx w = Abort e w).
Proof.
  intros Hc.
  assert (Hs : forall ctx w, setRelationship g c ctx w = Abort partialUpdatesNotAllowed w).
  { intros. unfold setRelationship. now rewrite Hc. }
  assert (Ha : forall ctx w, appendToRelationship g c ctx w = Abort partialUpdatesNotAllowed w).
  { intros. unfold appendToRelationship. now rewrite Hc. }
  assert (Hr : forall ctx w, removeFromRelationship g c ctx w = Abort partialUpdatesNotAllowed w).
  { intros. unfold removeFromRelationship. now rewrite Hc. }
  repeat split; auto.
  intros selector Hin.
  destruct (handleWith_run (runOperation g) c selector ctx w)
    as [[e He] | (ctx1 & He & Hreq & Htx & Hop & _)].
  - now exists e.
  - exists partialUpdatesNotAllowed. unfold handle. rewrite He, Hop.
    assert (Hrun : forall ctx' w', JSONAPIRequest ctx' = JSONAPIRequest ctx1 ->
                     runOperation g c ctx' w' = Abort partialUpdatesNotAllowed w').
    { intros ctx' w' Hreq'. unfold runOperation. mstep. rewrite Hreq', Hreq.
      cbn in Hin. destruct Hin as [<- | [<- | [<- | []]]]; auto. }
    assert (Hact : Action_ (operationOf (Intent_ (JSONAPIRequest ctx))) = false).
    { cbn in Hin. destruct Hin as [<- | [<- | [<- | []]]]; reflexivity. }
    rewrite Hact. cbn [negb]. unfold T.
    destruct (Transaction ctx1); rewrite Hrun by reflexivity; [reflexivity|].
    now rewrite setStore_id.
Qed.

Lemma C5_witness :
  let ctx := blog.incoming (blog.relationshipRequest AppendToRelationship (Hex 1%N) "related")
               (Some (blog.references "posts" [2%N])) in
  let w := blog.world [blog.post 1%N "Hello" "c1" "u1" VNull []] [] [] in
  ConsistentUpdate blog.posts = true /\
  appendToRelationship blog.group blog.posts ctx w = Abort partialUpdatesNotAllowed w /\
  exists e, handle blog.group blog.posts ∅ ctx w = Abort e w.
Proof.
  intros ctx w.
  pose proof (C5_partial_updates_rejected blog.group blog.posts ctx w eq_refl)
    as (_ & Ha & _ & _ & Hh).
  split; [reflexivity|]. split; [exact Ha|].
  apply Hh. cbn. tauto.
Defined.

(** ** C4: unknown relationships and actions *)

Lemma C4_counterexample :
  let w := blog.world [blog.post 1%N "Hello" "c1" "u1" VNull []] [] [] in
  let get := blog.incoming (blog.relationshipRequest GetRelationship (Hex 1%N) "authors") None in
  let act := blog.incoming (blog.actionRequest jsonapi.CollectionAction "" "publish") None in
  Relationships (meta blog.posts) "authors" = None /\
  CollectionActions blog.posts !! "publish" = None /\
  responseStatus (handle blog.group blog.posts ∅ get w) = StatusBadRequest /\
  responseStatus (handle blog.group blog.posts ∅ act w) = StatusInternalServerError /\
  responseStatus (handle blog.group blog.posts ∅ get w) <> StatusNotFound /\
  responseStatus (handle blog.group blog.posts ∅ act w) <> StatusNotFound.
Proof. vm_compute. repeat split; discriminate. Qed.

(** C4, as amended. A relationship-get or related-resources request that
    names an unknown relationship fails with the 400 (bad request) error
    "invalid relationship"; a collection or resource action request that
    names an unknown action fails with a plain error, which the client
    sees as an internal server error. None of them is a 404, and each is
    rejected before anything is loaded. *)
Theorem C4_unknown_names (g : Group) (c : Controller) (ctx : Context) (w : World) :
  (Relationships (meta c) (Relationship (JSONAPIRequest ctx)) = None ->
   getRelationship g c ctx w = Abort (BadRequest "invalid relationship") w) /\
  (Relationships (meta c) (RelatedResource (JSONAPIRequest ctx)) = None ->
   getRelatedResources g c ctx w = Abort (BadRequest "invalid relationship") w) /\
  (CollectionActions c !! CollectionAction_ (JSONAPIRequest ctx) = None ->
   handleCollectionAction c ctx w = Abort (PlainError "missing collection action callback") w) /\
  (ResourceActions c !! ResourceAction_ (JSONAPIRequest ctx) = None ->
   handleResourceAction c ctx w = Abort (PlainError "missing resource action callback") w) /\
  statusOf (BadRequest "invalid relationship") = StatusBadRequest /\
  (forall msg, statusOf (PlainError msg) = StatusInternalServerError).
Proof.
  repeat split.
  - intros H. unfold getRelationship. mstep. now rewrite H.
  - intros H. unfold getRelatedResources. mstep. now rewrite H.
  - intros H. unfold handleCollectionAction. mstep. now rewrite H.
  - intros H. unfold handleResourceAction. mstep. now rewrite H.
Qed.

Lemma C4_witness :
  let w := blog.world [blog.post 1%N "Hello" "c1" "u1" VNull []] [] [] in
  let get := blog.incoming (blog.relationshipRequest GetRelationship (Hex 1%N) "authors") None in
  let act := blog.incoming (blog.actionRequest jsonapi.ResourceAction (Hex 1%N) "publish") None in
  getRelationship blog.group blog.posts get w = Abort (BadRequest "invalid relationship") w /\
  handleResourceAction blog.posts act w = Abort (PlainError "missing resource action callback") w.
Proof.
  intros w get act. split.
  - apply (C4_unknown_names blog.group blog.posts get w). reflexivity.
  - apply (C4_unknown_names blog.group blog.posts act w). reflexivity.
Defined.

(** ** Reading and writing the model *)

Lemma MustGet_Ok name ctx w model v :
  Model_ ctx = Some model -> Get model name = Some v ->
  MustGet name ctx w = Ok v ctx w.
Proof.
  intros Hm Hv. unfold MustGet, theModel. mstep.
  rewrite Hm. cbn beta iota. now rewrite Hv.
Qed.

Lemma MustSet_Ok name v' ctx w model v :
  Model_ ctx = Some model -> Get model name = Some v ->
  MustSet name v' ctx w = Ok tt (setModel (Some (Set_ model name v')) ctx) w.
Proof.
  intros Hm Hv. unfold MustSet, theModel. mstep.
  rewrite Hm. cbn beta iota. now rewrite Hv.
Qed.

Lemma Get_Set_eq model name v : Get (Set_ model name v) name = Some v.
Proof. unfold Get, Set_. cbn. apply lookup_insert_eq. Qed.

Lemma Get_Set_ne model name name' v : name <> name' -> Get (Set_ model name v) name' = Get model name'.
Proof. intros H. unfold Get, Set_. cbn. now apply lookup_insert_ne. Qed.

Lemma requestResource_inv ctx w one ctx' w' :
  requestResource ctx w = Ok one ctx' w' ->
  ctx' = ctx /\ w' = w /\ exists doc, Request_ ctx = Some doc /\ Data doc ≫= One = Some one.
Proof.
  intros H. unfold requestResource, requestData in H. mstep_in H.
  destruct (Request_ ctx) as [doc|]; cbn beta iota in H; [|discriminate].
  change (option_bind _ _ One (Data doc)) with (Data doc ≫= One) in H.
  destruct (Data doc ≫= One) as [one'|] eqn:E; cbn beta iota in H; [|discriminate].
  inversion H; subst. repeat split. now exists doc.
Qed.

Lemma requestResource_run ctx w doc :
  Request_ ctx = Some doc ->
  requestResource ctx w =
    match Data doc ≫= One with
    | Some one => Ok one ctx w
    | None => Abort (BadRequest "missing document") w
    end.
Proof.
  intros H. unfold requestResource, requestData. mstep. rewrite H. cbn beta iota.
  change (option_bind _ _ One (Data doc)) with (Data doc ≫= One).
  now destruct (Data doc ≫= One).
Qed.

(** ** C7: appending to and removing from a to-many relationship *)

Lemma markPosition_absent ids x i pos :
  coal.Contains ids x = false -> markPosition ids x i pos = pos.
Proof.
  revert i pos. induction ids as [|id ids IH]; intros i pos H; cbn in *; [reflexivity|].
  destruct (N.eqb id x); [discriminate|]. now apply IH.
Qed.

Lemma Contains_app_self ids x : coal.Contains (ids ++ [x]) x = true.
Proof.
  induction ids as [|id ids IH]; cbn.
  - now rewrite N.eqb_refl.
  - destruct (N.eqb id x); [reflexivity | exact IH].
Qed.

Lemma referenceID_Ok rel ref x ctx w :
  RType ref = RelType rel -> FromHex (RID ref) = Some x ->
  referenceID rel ref ctx w = Ok x ctx w.
Proof.
  intros Ht Hx. unfold referenceID, parseID. rewrite Ht, String.eqb_refl, Hx. reflexivity.
Qed.

Lemma appendReference_run rel ref ctx w model ids x :
  Model_ ctx = Some model ->
  Get model (Name rel) = Some (VIDs ids) ->
  RType ref = RelType rel ->
  FromHex (RID ref) = Some x ->
  appendReference rel ref ctx w =
    if coal.Contains ids x then Ok tt ctx w
    else Ok tt (setModel (Some (Set_ model (Name rel) (VIDs (ids ++ [x])))) ctx) w.
Proof.
  intros Hm Hg Ht Hx. unfold appendReference.
  rewrite (bind_Ok _ _ _ _ _ _ _ (referenceID_Ok _ _ _ ctx w Ht Hx)).
  rewrite (bind_Ok _ _ _ _ _ _ _ (MustGet_Ok _ ctx w _ _ Hm Hg)).
  cbn [asIDs]. mstep.
  destruct (coal.Contains ids x); [reflexivity|].
  apply (MustSet_Ok _ _ _ _ _ _ Hm Hg).
Qed.

Lemma removeReference_run rel ref ctx w model ids x :
  Model_ ctx = Some model ->
  Get model (Name rel) = Some (VIDs ids) ->
  RType ref = RelType rel ->
  FromHex (RID ref) = Some x ->
  removeReference rel ref ctx w =
    let pos := markPosition ids x 0 (-1) in
    if 0 <=? pos then Ok tt (setModel (Some (Set_ model (Name rel) (VIDs (removeAt ids pos)))) ctx) w
    else Ok tt ctx w.
Proof.
  intros Hm Hg Ht Hx. unfold removeReference.
  rewrite (bind_Ok _ _ _ _ _ _ _ (referenceID_Ok _ _ _ ctx w Ht Hx)).
  rewrite (bind_Ok _ _ _ _ _ _ _ (MustGet_Ok _ ctx w _ _ Hm Hg)).
  cbn [asIDs]. mstep. cbn zeta.
  destruct (0 <=? markPosition ids x 0 (-1)); [|reflexivity].
  apply (MustSet_Ok _ _ _ _ _ _ Hm Hg).
Qed.

(** C7. For a to-many relationship and a reference to the id [x] (of the
    type of the relationship, with a well formed id): appending [x] when
    it is present leaves the model, and so the id list, unchanged;
    appending the reference twice ends in the same context as appending
    it once, with [x] in the list once more at most; removing [x] when it
    is absent leaves the model unchanged, once or twice. None of these is
    an error: every round returns. *)
Theorem C7_append_remove_idempotent (rel : Field) (ref : Resource) (ctx : Context) (w : World)
    (model : Model) (ids : list ID) (x : ID) :
  Model_ ctx = Some model ->
  Get model (Name rel) = Some (VIDs ids) ->
  RType ref = RelType rel ->
  FromHex (RID ref) = Some x ->
  (coal.Contains ids x = true -> appendReference rel ref ctx w = Ok tt ctx w) /\
  (exists ctx',
     forEach (appendReference rel) [ref] ctx w = Ok tt ctx' w /\
     forEach (appendReference rel) [ref; ref] ctx w = Ok tt ctx' w /\
     (Model_ ctx' ≫= fun m => Get m (Name rel)) =
       Some (VIDs (if coal.Contains ids x then ids else ids ++ [x]))) /\
  (coal.Contains ids x = false -> removeReference rel ref ctx w = Ok tt ctx w) /\
  (coal.Contains ids x = false ->
   forEach (removeReference rel) [ref; ref] ctx w = Ok tt ctx w).
Proof.
  intros Hm Hg Ht Hx.
  pose proof (appendReference_run rel ref ctx w model ids x Hm Hg Ht Hx) as Ha.
  pose proof (removeReference_run rel ref ctx w model ids x Hm Hg Ht Hx) as Hr.
  split; [intros Hc; now rewrite Ha, Hc|].
  split.
  - destruct (coal.Contains ids x) eqn:Hc.
    + exists ctx. cbn [forEach].
      repeat (rewrite (bind_Ok _ _ _ _ _ _ _ Ha)). 
      repeat split; try reflexivity. cbn. now rewrite Hm.
    + assert (Ha' := appendReference_run rel ref
                (setModel (Some (Set_ model (Name rel) (VIDs (ids ++ [x])))) ctx) w
                _ (ids ++ [x]) x eq_refl (Get_Set_eq _ _ _) Ht Hx).
      rewrite Contains_app_self in Ha'.
      eexists. cbn [forEach]. split; [|split].
      * rewrite (bind_Ok _ _ _ _ _ _ _ Ha). reflexivity.
      * rewrite (bind_Ok _ _ _ _ _ _ _ Ha). rewrite (bind_Ok _ _ _ _ _ _ _ Ha'). reflexivity.
      * cbn. apply Get_Set_eq.
  - assert (Hr' : coal.Contains ids x = false -> removeReference rel ref ctx w = Ok tt ctx w).
    { intros Hc. rewrite Hr. cbn zeta. now rewrite (markPosition_absent _ _ _ _ Hc). }
    split; [exact Hr'|]. intros Hc. cbn [forEach].
    now repeat (rewrite (bind_Ok _ _ _ _ _ _ _ (Hr' Hc))).
Qed.

Lemma C7_witness :
  let rel := blog.toMany "Related" "related_ids" "related" "posts" in
  let model := blog.post 1%N "Hello" "c1" "u1" VNull [2%N] in
  let ctx := setModel (Some model) (blog.incoming
               (blog.relationshipRequest AppendToRelationship (Hex 1%N) "related") None) in
  let w := blog.world [model] [] [] in
  appendReference rel (MkResource "posts" (Hex 2%N) [] []) ctx w = Ok tt ctx w /\
  removeReference rel (MkResource "posts" (Hex 3%N) [] []) ctx w = Ok tt ctx w.
Proof.
  intros rel model ctx w. split.
  - apply (C7_append_remove_idempotent rel _ ctx w model [2%N] 2%N); reflexivity.
  - apply (C7_append_remove_idempotent rel _ ctx w model [2%N] 3%N); reflexivity.
Defined.

(** ** C8: the cardinality of has-one relationships *)

Lemma plain_ret {A : Type} (a : A) : plain (mret a : M A).
Proof. intros ctx w e w' H. discriminate. Qed.

Lemma plain_abort {A : Type} msg : plain (abort (PlainError msg) : M A).
Proof. intros ctx w e w' H. inversion H. eauto. Qed.

Lemma plain_must {A : Type} msg (o : option A) : plain (must msg o).
Proof. destruct o; [apply plain_ret | apply plain_abort]. Qed.

Lemma plain_bind {A B : Type} (m : M A) (f : A -> M B) :
  plain m -> (forall a, plain (f a)) -> plain (m ≫= f).
Proof.
  intros Hm Hf ctx w e w' H.
  apply bind_inv_Abort in H as [H | (a & ctx1 & w1 & _ & H)].
  - exact (Hm _ _ _ _ H).
  - exact (Hf _ _ _ _ _ H).
Qed.

Lemma plain_mapEach {A B : Type} (f : A -> M B) (l : list A) :
  (forall a, plain (f a)) -> plain (mapEach f l).
Proof.
  intros Hf. induction l as [|x l IH]; cbn [mapEach].
  - apply plain_ret.
  - apply plain_bind; [apply Hf | intros y].
    apply plain_bind; [apply IH | intros ys; apply plain_ret].
Qed.

Lemma plain_asID v : plain (asID v).
Proof. destruct v; first [apply plain_ret | apply plain_abort]. Qed.

Lemma plain_asOptionalID v : plain (asOptionalID v).
Proof. destruct v; first [apply plain_ret | apply plain_abort]. Qed.

Lemma plain_asIDs v : plain (asIDs v).
Proof. destruct v; first [apply plain_ret | apply plain_abort]. Qed.

Lemma plain_constructRelationship c model relationships whitelist base field :
  plain (constructRelationship c model relationships whitelist base field).
Proof.
  unfold constructRelationship, getField.
  repeat first
    [ apply plain_ret | apply plain_abort | apply plain_must
    | apply plain_asID | apply plain_asOptionalID | apply plain_asIDs
    | apply plain_bind; [|intros ?]
    | match goal with
      | |- plain (if ?b then _ else _) => destruct b
      | |- plain (match ?o with Some _ => _ | None => _ end) => destruct o
      end ].
Qed.

Lemma reads_constructRelationship c model relationships whitelist base field :
  reads (constructRelationship c model relationships whitelist base field).
Proof. unfold constructRelationship. reader. Qed.

Lemma reads_constructResource c model relationships :
  reads (constructResource c model relationships).
Proof.
  unfold constructResource. apply reads_bind; [apply reads_getCtx|]. intros ctx.
  apply reads_bind; [apply reads_fieldKeys|]. intros whitelist. cbn zeta.
  apply reads_bind; [|intros; apply reads_ret].
  apply reads_mapEach. intros field. apply reads_constructRelationship.
Qed.

Lemma plain_fieldKeys c what names : plain (fieldKeys c what names).
Proof.
  unfold fieldKeys. apply plain_bind; [|intros; apply plain_ret].
  apply plain_mapEach. intros a. apply plain_bind; [apply plain_must | intros; apply plain_ret].
Qed.

(** When a reader aborts on an element of the list, the loop over the
    list aborts, on that element or on an earlier one. *)
Lemma mapEach_aborts {A B : Type} (f : A -> M B) (l : list A) x ctx w e :
  (forall a, reads (f a)) ->
  In x l -> f x ctx w = Abort e w ->
  exists y e', In y l /\ f y ctx w = Abort e' w /\ mapEach f l ctx w = Abort e' w.
Proof.
  intros Hf Hin Hx. induction l as [|a l IH]; [destruct Hin|].
  cbn [mapEach]. pose proof (Hf a ctx w) as Ha.
  destruct (f a ctx w) as [b ctx1 w1 | e1 w1] eqn:Ea.
  - destruct Ha as [-> ->].
    destruct Hin as [-> | Hin]; [congruence|].
    destruct (IH Hin) as (y & e' & Hy & Hfy & Hl).
    exists y, e'. split; [now right|]. split; [exact Hfy|].
    rewrite (bind_Ok _ _ _ _ _ _ _ Ea). now rewrite (bind_Abort _ _ _ _ _ _ Hl).
  - subst w1. exists a, e1. split; [now left|]. split; [exact Ea|].
    now rewrite (bind_Abort _ _ _ _ _ _ Ea).
Qed.

(** C8. Two notes reference one post through the inverse of its has-one
    relationship. The relationship-get of the post aborts with an
    internal server error; but the same request with a page number and a
    page size of one is answered with 200 and one of the two notes, the
    first on page one and the second on page two: the page parameters are
    copied to the virtual request, whose paginated response lists one
    resource, and the check sees that response only. A list limit of one
    on the controller of the notes has the same effect on the request
    without page parameters. *)
Theorem C8_related_has_one_paginated :
  let w := blog.world [blog.post 1%N "Hello" "c1" "u1" VNull []] []
             [blog.note 7%N "a" 1%N; blog.note 8%N "b" 1%N] in
  let related := blog.relatedRequest (Hex 1%N) "note" in
  let get g r := handle g blog.posts ∅ (blog.incoming r None) w in
  let limited := <["notes" := blog.limitedNotes 1]> blog.group in
  (HasOne <$> Relationships blog.postMeta "note") = Some true /\
  (exists inverse,
     Relationships blog.noteMeta "post" = Some inverse /\
     List.map DocID (referencing blog.notes inverse 1%N w) = [7%N; 8%N]) /\
  responseStatus (get blog.group related) = StatusInternalServerError /\
  (responseStatus (get blog.group (setPage 1 1 related)),
   only (get blog.group (setPage 1 1 related))) = (StatusOK, Some (Hex 7%N)) /\
  (responseStatus (get blog.group (setPage 2 1 related)),
   only (get blog.group (setPage 2 1 related))) = (StatusOK, Some (Hex 8%N)) /\
  (responseStatus (get limited related), only (get limited related))
    = (StatusOK, Some (Hex 7%N)).
Proof.
  intros w related get limited. split; [reflexivity|]. split.
  - eexists. split; [reflexivity|]. vm_compute. reflexivity.
  - vm_compute. repeat split.
Qed.

(** ** Callbacks and the load of a model *)

Lemma runHandler_Ok h status ctx w ctx' w' :
  runHandler h status ctx w = Ok tt ctx' w' <-> h ctx w = CbOk ctx' w'.
Proof.
  unfold runHandler. destruct (h ctx w); split; intros H; inversion H; reflexivity.
Qed.

Lemma runCallbacks_invariant (P : Context -> World -> Prop) list status :
  (forall cb, In cb list -> forall ctx w ctx' w',
      P ctx w -> Handler cb ctx w = CbOk ctx' w' -> P ctx' w') ->
  forall ctx w ctx' w',
    P ctx w -> runCallbacks list status ctx w = Ok tt ctx' w' -> P ctx' w'.
Proof.
  induction list as [|cb list IH]; intros Hcb ctx w ctx' w' HP H.
  - cbn in H. inversion H. now subst.
  - cbn [runCallbacks] in H. mstep_in H.
    destruct (Matcher cb ctx).
    + destruct (runHandler (Handler cb) status ctx w) as [[] ctx1 w1|] eqn:E; [|discriminate].
      apply runHandler_Ok in E.
      eapply IH; [| |exact H].
      * intros cb' Hin. apply Hcb. now right.
      * eapply Hcb; [now left | exact HP | exact E].
    + eapply IH; [| exact HP |exact H].
      intros cb' Hin. apply Hcb. now right.
Qed.

Lemma docsOf_putDocs meta ds w : docsOf meta (putDocs meta ds w) = ds.
Proof.
  unfold docsOf, putDocs, setStore, setDocs, collection. cbn [store].
  now rewrite lookup_insert_eq.
Qed.

Lemma runCallbacks_store list status ctx w ctx' w' :
  keepStore list -> runCallbacks list status ctx w = Ok tt ctx' w' -> store w' = store w.
Proof.
  intros Hk H.
  apply (runCallbacks_invariant (fun _ x => store x = store w) list status) in H;
    [exact H | | reflexivity].
  intros cb Hin ca wa cb' wb HP Hcb. cbn beta in *. rewrite <- HP. eapply Hk; eassumption.
Qed.

Lemma docsOf_store m w w' : store w' = store w -> docsOf m w' = docsOf m w.
Proof. intros H. unfold docsOf. now rewrite H. Qed.

Lemma runCallbacks_code list status ctx w ctx' w' :
  keepCode list -> runCallbacks list status ctx w = Ok tt ctx' w' ->
  ResponseCode ctx' = ResponseCode ctx.
Proof.
  intros Hk H.
  apply (runCallbacks_invariant (fun x _ => ResponseCode x = ResponseCode ctx) list status) in H;
    [exact H | | reflexivity].
  intros cb Hin ca wa cb' wb HP Hcb. cbn beta in *. rewrite <- HP. eapply Hk; eassumption.
Qed.

Lemma loadModel_inv c ctx w ctx' w' :
  loadModel c ctx w = Ok tt ctx' w' ->
  exists id sel ctx1 w1 model,
    FromHex (ResourceID (JSONAPIRequest ctx)) = Some id /\
    (if SoftDelete c
     then exists field key,
            L (meta c) "fire-soft-delete" = Some field /\ F (meta c) field = Some key /\
            sel = <[key := CEq VNull]> (<["_id" := CEq (VID id)]> (Selector ctx))
     else sel = <["_id" := CEq (VID id)]> (Selector ctx)) /\
    runCallbacks (Authorizers c) StatusUnauthorized (setSelector sel ctx) w = Ok tt ctx1 w1 /\
    FindFirst (Transaction ctx1) (meta c) (Query_ ctx1) [] 0 (Write (Operation_ ctx1)) w1
      = inr (Some model, w') /\
    ctx' = (if bool_decide (Operation_ ctx1 = Update)
            then setOriginal (Some model) (setModel (Some model) ctx1)
            else setModel (Some model) ctx1).
Proof.
  unfold loadModel. intros H. mstep_in H.
  destruct (FromHex (ResourceID (JSONAPIRequest ctx))) as [id|]; [|discriminate].
  exists id.
  assert (Hsel : exists sel,
    (if SoftDelete c
     then exists field key,
            L (meta c) "fire-soft-delete" = Some field /\ F (meta c) field = Some key /\
            sel = <[key := CEq VNull]> (<["_id" := CEq (VID id)]> (Selector ctx))
     else sel = <["_id" := CEq (VID id)]> (Selector ctx)) /\
    match runCallbacks (Authorizers c) StatusUnauthorized (setSelector sel ctx) w with
    | Ok _ ctx1 w1 =>
        match FindFirst (Transaction ctx1) (meta c) (Query_ ctx1) [] 0
                (Write (Operation_ ctx1)) w1 with
        | inr (Some model, w2) =>
            Ok tt (if bool_decide (Operation_ ctx1 = Update)
                   then setOriginal (Some model) (setModel (Some model) ctx1)
                   else setModel (Some model) ctx1) w2
        | inr (None, w2) => Abort (NotFound "resource not found") w2
        | inl e => Abort (dbError e) w1
        end
    | Abort e w1 => Abort e w1
    end = Ok tt ctx' w').
  { destruct (SoftDelete c).
    - unfold flagged, bsonKey in H. mstep_in H.
      destruct (L (meta c) "fire-soft-delete") as [field|]; [|discriminate].
      destruct (F (meta c) field) as [key|] eqn:EF; [|discriminate].
      eexists. split; [exists field, key; split; [reflexivity|split; [exact EF | reflexivity]]|].
      rewrite <- H. clear H.
      change (setSelector _ (setSelector ?s ctx)) with
        (setSelector (<[key := CEq VNull]> s) ctx).
      destruct (runCallbacks _ _ _ _) as [[] ctx1 w1|]; [|reflexivity].
      unfold call. destruct (FindFirst _ _ _ _ _ _ _) as [e|[[model|] w2]]; cbn;
        try reflexivity. now destruct (bool_decide _).
    - eexists. split; [reflexivity|].
      rewrite <- H. clear H.
      destruct (runCallbacks _ _ _ _) as [[] ctx1 w1|]; [|reflexivity].
      unfold call. destruct (FindFirst _ _ _ _ _ _ _) as [e|[[model|] w2]]; cbn;
        try reflexivity. now destruct (bool_decide _). }
  destruct Hsel as (sel & Hsel & Hrun). exists sel.
  destruct (runCallbacks _ _ _ _) as [[] ctx1 w1|]; [|discriminate].
  exists ctx1, w1.
  destruct (FindFirst _ _ _ _ _ _ _) as [e|[[model|] w2]]; try discriminate.
  exists model. inversion Hrun. subst. repeat split; try reflexivity. exact Hsel.
Qed.


(** ** C6: the lock of the load of a delete *)

Lemma FindFirst_locked txn meta q sort skip w model w' :
  FindFirst txn meta q sort skip true w = inr (Some model, w') ->
  txn = true /\
  exists d,
    List.find (selects meta q) (docsOf meta w) = Some d /\
    model = incrementLock d /\
    w' = putDocs meta (replaceFirst (selects meta q) incrementLock (docsOf meta w)) w.
Proof.
  unfold FindFirst. destruct txn; cbn [negb andb]; [|discriminate].
  destruct (List.find _ _) as [d|]; intros H; inversion H.
  split; [reflexivity|]. now exists d.
Qed.

Lemma runCallbacks_nil status ctx w : runCallbacks [] status ctx w = Ok tt ctx w.
Proof. reflexivity. Qed.

Lemma C6_counterexample :
  let ctx := setTransaction true (setOperation Delete
               (blog.incoming (blog.request DeleteResource (Hex 1%N)) None)) in
  let w := blog.world [blog.post 1%N "Hello" "c1" "u1" VNull []] [] [] in
  SoftDelete blog.posts = true /\
  List.map Lock (docsOf blog.postMeta w) = [0] /\
  List.map Lock (docsOf blog.postMeta (worldOf (loadModel blog.posts ctx w))) = [1] /\
  List.map Lock (docsOf blog.postMeta (worldOf (handle blog.group blog.posts ∅
     (blog.incoming (blog.request DeleteResource (Hex 1%N)) None) w))) = [1].
Proof. vm_compute. repeat split. Qed.

(** C6, as amended. For every Delete request the load of the existing
    entity asks the manager for the pessimistic lock, whether SoftDelete is
    enabled or not: the lock follows [Operation.Write] alone. When the load
    returns, the document it found has had its lock counter incremented in
    the store, and the loaded model is that incremented document. (The
    authorizers are taken to leave the operation of the context alone.) *)
Theorem C6_delete_load_locks (c : Controller) (ctx : Context) (w : World)
    (ctx' : Context) (w' : World) :
  Operation_ ctx = Delete ->
  (forall cb, In cb (Authorizers c) -> forall x v x' v',
      Handler cb x v = CbOk x' v' -> Operation_ x' = Operation_ x) ->
  loadModel c ctx w = Ok tt ctx' w' ->
  exists ctx1 w1 d,
    (Authorizers c = [] -> w1 = w) /\
    FindFirst (Transaction ctx1) (meta c) (Query_ ctx1) [] 0 true w1
      = inr (Some (incrementLock d), w') /\
    List.find (selects (meta c) (Query_ ctx1)) (docsOf (meta c) w1) = Some d /\
    Model_ ctx' = Some (incrementLock d) /\
    docsOf (meta c) w' =
      replaceFirst (selects (meta c) (Query_ ctx1)) incrementLock (docsOf (meta c) w1).
Proof.
  intros Hop Hauth H.
  apply loadModel_inv in H as (id & sel & ctx1 & w1 & model & _ & _ & Hrun & Hfind & Hctx).
  assert (Hop1 : Operation_ ctx1 = Delete).
  { apply (runCallbacks_invariant (fun x _ => Operation_ x = Delete) _ _) in Hrun.
    - exact Hrun.
    - intros cb Hin x v x' v' Hx Hcb. rewrite (Hauth cb Hin _ _ _ _ Hcb). exact Hx.
    - exact Hop. }
  rewrite Hop1 in Hfind, Hctx. cbn [Write] in Hfind.
  destruct (FindFirst_locked _ _ _ _ _ _ _ _ Hfind) as (_ & d & Hd & -> & ->).
  exists ctx1, w1, d. repeat split.
  - intros Hnil. rewrite Hnil in Hrun. cbn in Hrun. now inversion Hrun.
  - exact Hfind.
  - exact Hd.
  - subst ctx'. reflexivity.
  - apply docsOf_putDocs.
Qed.

Lemma C6_witness :
  let ctx := setTransaction true (setOperation Delete
               (blog.incoming (blog.request DeleteResource (Hex 1%N)) None)) in
  let w := blog.world [blog.post 1%N "Hello" "c1" "u1" VNull []] [] [] in
  Operation_ ctx = Delete /\
  SoftDelete blog.posts = true /\
  exists ctx' w',
    loadModel blog.posts ctx w = Ok tt ctx' w' /\
    exists ctx1 w1 d,
      FindFirst (Transaction ctx1) (meta blog.posts) (Query_ ctx1) [] 0 true w1
        = inr (Some (incrementLock d), w') /\
      Model_ ctx' = Some (incrementLock d).
Proof.
  intros ctx w. split; [reflexivity|]. split; [reflexivity|].
  destruct (loadModel blog.posts ctx w) as [[] ctx' w'|] eqn:E;
    [|vm_compute in E; discriminate].
  exists ctx', w'. split; [reflexivity|].
  destruct (C6_delete_load_locks blog.posts ctx w ctx' w' eq_refl)
    as (ctx1 & w1 & d & _ & Hf & _ & Hm & _).
  - intros cb [].
  - exact E.
  - exists ctx1, w1, d. split; assumption.
Defined.

(** ** C2: idempotent create *)

Lemma theModel_Ok ctx w model : Model_ ctx = Some model -> theModel ctx w = Ok model ctx w.
Proof. intros H. unfold theModel. mstep. now rewrite H. Qed.

Lemma flagged_Ok m flag field ctx w : L m flag = Some field -> flagged m flag ctx w = Ok field ctx w.
Proof. intros H. unfold flagged. now rewrite H. Qed.

Lemma createResource_insert_run c ctx w field model token :
  IdempotentCreate c = true ->
  L (meta c) "fire-idempotent-create" = Some field ->
  Model_ ctx = Some model ->
  Get model field = Some (VString token) ->
  Transaction ctx = true ->
  IsZero (DocID model) = false ->
  createResource_insert c ctx w =
    if String.eqb token "" then Abort (BadRequest "missing idempotent create token") w
    else if existsb (selects (meta c) [{[field := CEq (VString token)]}]) (docsOf (meta c) w)
    then Abort (ErrorFromStatus StatusConflict
                  "existing document with same idempotent create token") w
    else if duplicate (meta c) (collection (store w) (Collection (meta c))) model
    then Abort (ErrorFromStatus StatusConflict "document is not unique") w
    else Ok tt (setModel (Some model) ctx) (putDocs (meta c) (docsOf (meta c) w ++ [model]) w).
Proof.
  intros Hi Hl Hm Hg Ht Hz. unfold createResource_insert. rewrite Hi.
  rewrite (bind_Ok _ _ _ _ _ _ _ (flagged_Ok _ _ _ ctx w Hl)).
  rewrite (bind_Ok _ _ _ _ _ _ _ (MustGet_Ok _ ctx w _ _ Hm Hg)).
  cbn [asString]. mstep.
  destruct (String.eqb token ""); [reflexivity|].
  rewrite (theModel_Ok _ _ _ Hm).
  unfold call, InsertIfMissing, ensureID. rewrite Ht, Hz. cbn [negb].
  destruct (existsb _ _); [reflexivity|].
  destruct (duplicate _ _ _); reflexivity.
Qed.

Lemma selects_singleton m field c d :
  selects m [{[field := c]}] d = condMatches (docValue m d (translate m field)) c.
Proof.
  unfold selects, matchesM. cbn [forallb]. rewrite map_to_list_singleton. cbn.
  now rewrite !andb_true_r.
Qed.

Lemma valueMatches_refl_string s : valueMatches (VString s) (VString s) = true.
Proof. cbn. now apply bool_decide_eq_true. Qed.

Lemma filter_none {A : Type} (p : A -> bool) l : existsb p l = false -> List.filter p l = [].
Proof.
  induction l as [|x l IH]; cbn; [reflexivity|].
  destruct (p x); cbn; [discriminate | exact IH].
Qed.

Lemma keepsWorld_Ok {A : Type} (m : M A) ctx w a ctx' w' :
  keepsWorld m -> m ctx w = Ok a ctx' w' -> w' = w.
Proof. intros Hm H. specialize (Hm ctx w). now rewrite H in Hm. Qed.

Lemma keepsWorld_assignRelationship c rel field : keepsWorld (assignRelationship c rel field).
Proof.
  unfold assignRelationship.
  apply keepsWorld_bind; [apply keepsWorld_when | intros _; apply keepsWorld_when].
  - apply keepsWorld_bind.
    + apply reads_keepsWorld. reader.
    + intros id. destruct (negb (Optional field)); [|destruct (negb (IsZero id))];
        apply keepsWorld_MustSet.
  - apply keepsWorld_bind; [|intros ids; apply keepsWorld_MustSet].
    apply reads_keepsWorld. reader.
Qed.

Lemma keepsWorld_assignData c res : keepsWorld (assignData c res).
Proof.
  unfold assignData.
  apply keepsWorld_bind; [apply reads_keepsWorld, reads_getCtx | intros ctx].
  apply keepsWorld_bind; [apply reads_keepsWorld, reads_fieldKeys | intros whitelist].
  apply keepsWorld_bind; [apply reads_keepsWorld; reader | intros attributes].
  apply keepsWorld_bind; [|intros _].
  - unfold Assign. apply keepsWorld_forEach. intros kv.
    apply keepsWorld_bind; [apply reads_keepsWorld, reads_theModel | intros model].
    destruct (Attributes (meta c) (fst kv)); [|apply reads_keepsWorld, reads_ret].
    destruct (assignAttribute model _ _);
      [apply keepsWorld_modifyCtx | apply reads_keepsWorld, reads_abort].
  - apply keepsWorld_forEach. intros [name rel].
    destruct (Relationships (meta c) name); [|apply reads_keepsWorld, reads_abort].
    destruct (_ || _); [destruct (TolerateViolations c); apply reads_keepsWorld; reader|].
    apply keepsWorld_assignRelationship.
Qed.

(** The model of a Create is made without a write to the store, unless a
    callback writes. *)
Lemma createResource_model_store c one ctx w ctx' w' :
  keepStore (Authorizers c) -> keepStore (Validators c) ->
  createResource_model c one ctx w = Ok tt ctx' w' -> store w' = store w.
Proof.
  intros Ha Hv H. unfold createResource_model in H.
  apply bind_inv_Ok in H as ([] & ctx1 & w1 & H1 & H).
  apply (runCallbacks_store _ _ _ _ _ _ Ha) in H1. rewrite <- H1.
  apply bind_inv_Ok in H as (id & ctx2 & w2 & H2 & H).
  unfold newID in H2. cbn [New] in H2. inversion H2; subst id ctx2 w2. clear H2.
  apply bind_inv_Ok in H as ([] & ctx3 & w3 & H3 & H).
  inversion H3; subst ctx3 w3. clear H3.
  apply bind_inv_Ok in H as ([] & ctx4 & w4 & H4 & H).
  apply (keepsWorld_Ok _ _ _ _ _ _ (keepsWorld_assignData c one)) in H4. subst w4.
  apply bind_inv_Ok in H as ([] & ctx5 & w5 & H5 & H).
  apply (runCallbacks_store _ _ _ _ _ _ Hv) in H5. cbn [store] in H5. rewrite <- H5.
  destruct (ConsistentUpdate c); [|inversion H; reflexivity].
  cbn [when] in H.
  apply bind_inv_Ok in H as (field & ctx6 & w6 & H6 & H).
  pose proof (reads_flagged (meta c) "fire-consistent-update" ctx5 w5) as Hr.
  rewrite H6 in Hr. destruct Hr as [-> ->].
  apply bind_inv_Ok in H as (token & ctx7 & w7 & H7 & H).
  unfold newID in H7. cbn [New] in H7. inversion H7; subst token ctx7 w7. clear H7.
  apply (keepsWorld_Ok _ _ _ _ _ _ (keepsWorld_MustSet _ _)) in H. now subst w'.
Qed.

(** A Create whose document passes the checks makes its model, inserts it
    and responds. *)
Lemma createResource_run g c ctx w one :
  carries ctx one -> RType one = ResourceType (JSONAPIRequest ctx) -> RID one = "" ->
  createResource g c ctx w
    = (createResource_model c one;; createResource_insert c;; createResource_respond c) ctx w.
Proof.
  intros (doc & Hd & Ho) Ht Hi. unfold createResource.
  pose proof (requestResource_run ctx w doc Hd) as Hr. rewrite Ho in Hr.
  rewrite (bind_Ok _ _ _ _ _ _ _ Hr).
  rewrite (bind_Ok getCtx _ ctx w ctx ctx w eq_refl).
  rewrite Ht, Hi, !String.eqb_refl. cbn [negb when].
  rewrite (bind_Ok (mret tt) _ ctx w tt ctx w eq_refl).
  now rewrite (bind_Ok (mret tt) _ ctx w tt ctx w eq_refl).
Qed.

(** A Create that returns has answered with 201 before the notifiers
    ran, and has written nothing after the insert unless a decorator or a
    notifier writes. *)
Lemma createResource_respond_inv c ctx w ctx' w' :
  createResource_respond c ctx w = Ok tt ctx' w' ->
  (keepCode (Notifiers c) -> ResponseCode ctx' = StatusCreated) /\
  (keepStore (Decorators c) -> keepStore (Notifiers c) -> store w' = store w).
Proof.
  intros H. unfold createResource_respond in H.
  apply bind_inv_Ok in H as ([] & ctx1 & w1 & H1 & H).
  apply bind_inv_Ok in H as (model & ctx2 & w2 & H2 & H).
  pose proof (reads_theModel ctx1 w1) as Hr. rewrite H2 in Hr. destruct Hr as [-> ->].
  apply bind_inv_Ok in H as (one & ctx3 & w3 & H3 & H).
  pose proof (reads_constructResource c model None ctx1 w1) as Hr.
  unfold resourceForModel in H3. rewrite H3 in Hr. destruct Hr as [-> ->].
  rewrite (bind_Ok getCtx _ ctx1 w1 ctx1 ctx1 w1 eq_refl) in H.
  apply bind_inv_Ok in H as ([] & ctx4 & w4 & H4 & H).
  inversion H4; subst ctx4 w4. clear H4.
  split.
  - intros Hk. now rewrite (runCallbacks_code _ _ _ _ _ _ Hk H).
  - intros Hd Hn. rewrite (runCallbacks_store _ _ _ _ _ _ Hn H).
    exact (runCallbacks_store _ _ _ _ _ _ Hd H1).
Qed.

(** C2. With IdempotentCreate enabled, a Create whose model bears the
    token [token]: fails with 400 when the token is empty; is rejected
    with 409 when a stored document has the token, and has then inserted
    nothing; is rejected with 409 when the insert hits a duplicate key;
    and otherwise inserts the model, after which exactly one stored
    document has the token, and goes on to respond: when it returns, the
    status is 201 and the store is as the insert left it. Every Create
    that bears the token while that document is stored is rejected with
    409, so that one entity is persisted and one 201 is answered. (The
    callbacks are assumed not to write to the store, the notifiers not to
    change the status, where the statement says so.) *)
Theorem C2_idempotent_create (g : Group) (c : Controller) (field token : string)
    (ctx : Context) (w : World) (model : Model) (ctx1 : Context) (w1 : World) :
  IdempotentCreate c = true ->
  L (meta c) "fire-idempotent-create" = Some field ->
  storedUnder (meta c) field ->
  bears c field token ctx w model ctx1 w1 ->
  let query := [{[field := CEq (VString token)]}] in
  let taken w := existsb (selects (meta c) query) (docsOf (meta c) w) in
  let clash := duplicate (meta c) (collection (store w1) (Collection (meta c))) model in
  let existing := Abort (ErrorFromStatus StatusConflict
                           "existing document with same idempotent create token") in
  let inserted := putDocs (meta c) (docsOf (meta c) w1 ++ [model]) w1 in
  (token = "" ->
   createResource g c ctx w = Abort (BadRequest "missing idempotent create token") w1) /\
  (token <> "" -> taken w1 = true ->
   createResource g c ctx w = existing w1 /\
   (keepStore (Authorizers c) -> keepStore (Validators c) -> store w1 = store w)) /\
  (token <> "" -> taken w1 = false -> clash = true ->
   createResource g c ctx w
     = Abort (ErrorFromStatus StatusConflict "document is not unique") w1) /\
  (token <> "" -> taken w1 = false -> clash = false ->
   createResource g c ctx w = createResource_respond c (setModel (Some model) ctx1) inserted /\
   List.filter (selects (meta c) query) (docsOf (meta c) inserted) = [model] /\
   (forall ctx' w', createResource g c ctx w = Ok tt ctx' w' ->
      (keepCode (Notifiers c) -> ResponseCode ctx' = StatusCreated) /\
      (keepStore (Decorators c) -> keepStore (Notifiers c) -> store w' = store inserted)) /\
   (forall ctx2 w2 model2 ctx3 w3,
      bears c field token ctx2 w2 model2 ctx3 w3 -> In model (docsOf (meta c) w3) ->
      createResource g c ctx2 w2 = existing w3)).
Proof.
  intros Hi Hl Hst Hb query taken clash existing inserted.
  assert (Hrun : forall ctx w model ctx1 w1, bears c field token ctx w model ctx1 w1 ->
            createResource g c ctx w =
              match createResource_insert c ctx1 w1 with
              | Ok _ ctx2 w2 => createResource_respond c ctx2 w2
              | Abort e w2 => Abort e w2
              end /\
            createResource_insert c ctx1 w1 =
              if String.eqb token "" then Abort (BadRequest "missing idempotent create token") w1
              else if taken w1 then existing w1
              else if duplicate (meta c) (collection (store w1) (Collection (meta c))) model
              then Abort (ErrorFromStatus StatusConflict "document is not unique") w1
              else Ok tt (setModel (Some model) ctx1)
                     (putDocs (meta c) (docsOf (meta c) w1 ++ [model]) w1)).
  { clear Hb. intros ctx0 w0 model0 ctx2 w2 (one & Hc & Ht & Hid & Hmodel & Hm & Hg & Htx & Hz).
    split.
    - rewrite (createResource_run g c ctx0 w0 one Hc Ht Hid).
      rewrite (bind_Ok _ _ _ _ _ _ _ Hmodel). unfold mbind, M_bind.
      now destruct (createResource_insert c ctx2 w2) as [[] ? ?|].
    - exact (createResource_insert_run c ctx2 w2 field model0 token Hi Hl Hm Hg Htx Hz). }
  assert (Hne : token <> "" -> String.eqb token "" = false).
  { intros H. now apply String.eqb_neq. }
  destruct (Hrun _ _ _ _ _ Hb) as [Hcreate Hinsert]. fold clash in Hinsert.
  split; [intros ->; now rewrite Hcreate, Hinsert|].
  split.
  { intros H1 H2. split; [now rewrite Hcreate, Hinsert, (Hne H1), H2|].
    destruct Hb as (one & _ & _ & _ & Hmodel & _). intros Ha Hv.
    exact (createResource_model_store c one ctx w ctx1 w1 Ha Hv Hmodel). }
  split; [intros H1 H2 H3; now rewrite Hcreate, Hinsert, (Hne H1), H2, H3|].
  intros H1 H2 H3.
  assert (Hfirst : createResource g c ctx w
                   = createResource_respond c (setModel (Some model) ctx1) inserted).
  { now rewrite Hcreate, Hinsert, (Hne H1), H2, H3. }
  assert (Hsel : selects (meta c) query model = true).
  { destruct Hb as (_ & _ & _ & _ & _ & _ & Hg & _).
    unfold query. rewrite selects_singleton, Hst, Hg. apply valueMatches_refl_string. }
  split; [exact Hfirst|]. split; [|split].
  - unfold inserted. rewrite docsOf_putDocs, List.filter_app, (filter_none _ _ H2).
    cbn [List.filter app]. now rewrite Hsel.
  - intros ctx' w' H. rewrite Hfirst in H. exact (createResource_respond_inv c _ _ _ _ H).
  - intros ctx2 w2 model2 ctx3 w3 Hb2 Hin.
    destruct (Hrun _ _ _ _ _ Hb2) as [Hc2 Hi2].
    rewrite Hc2, Hi2, (Hne H1).
    replace (taken w3) with true; [reflexivity|].
    symmetry. apply existsb_exists. now exists model.
Qed.

Lemma C2_witness :
  let doc := blog.document "" [("title", VString "Hello"); ("create-token", VString "T")] in
  let ctx := setTransaction true (setOperation Create
               (setWritableFields ["Title"; "CreateToken"] (setReadableFields ["Title"]
                  (setRequest (Some doc) (blog.incoming (blog.request CreateResource "") None))))) in
  let w := blog.world [] [] [] in
  let first := createResource blog.group blog.posts ctx w in
  let existing := ErrorFromStatus StatusConflict
                    "existing document with same idempotent create token" in
  responseStatus first = StatusCreated /\
  List.map (fun d => Get d "CreateToken") (docsOf blog.postMeta (worldOf first))
    = [Some (VString "T")] /\
  exists w', createResource blog.group blog.posts ctx (worldOf first) = Abort existing w' /\
             store w' = store (worldOf first).
Proof.
  intros doc ctx w first existing.
  pose (one := MkResource "posts" "" [("title", VString "Hello"); ("create-token", VString "T")] []).
  pose (made := createResource_model blog.posts one ctx w).
  pose (ctx1 := match made with Ok _ ctx1 _ => ctx1 | Abort _ _ => ctx end).
  pose (model := default (Make blog.postMeta) (Model_ ctx1)).
  assert (Hb : bears blog.posts "CreateToken" "T" ctx w model ctx1 (worldOf made)).
  { exists one. repeat split; try (vm_compute; reflexivity). now exists doc. }
  destruct (C2_idempotent_create blog.group blog.posts "CreateToken" "T" ctx w model ctx1
              (worldOf made) eq_refl eq_refl ltac:(intros d; reflexivity) Hb)
    as (_ & _ & _ & H).
  destruct H as (Hrun & _ & Hcode & Hlater);
    [discriminate | vm_compute; reflexivity | vm_compute; reflexivity |].
  pose (made2 := createResource_model blog.posts one ctx (worldOf first)).
  pose (ctx3 := match made2 with Ok _ ctx3 _ => ctx3 | Abort _ _ => ctx end).
  pose (model2 := default (Make blog.postMeta) (Model_ ctx3)).
  assert (Hb2 : bears blog.posts "CreateToken" "T" ctx (worldOf first) model2 ctx3 (worldOf made2)).
  { exists one. repeat split; try (vm_compute; reflexivity). now exists doc. }
  split; [vm_compute; reflexivity|]. split; [vm_compute; reflexivity|].
  exists (worldOf made2). split; [|vm_compute; reflexivity].
  apply (Hlater ctx (worldOf first) model2 ctx3 (worldOf made2) Hb2).
  vm_compute. left. reflexivity.
Defined.

(** Two Create requests that bear the same token, through [handle]: the
    first is answered with 201, the second with 409, and one post is
    stored. *)
Example create_twice :
  let body := Some (blog.document "" [("title", VString "Hello"); ("create-token", VString "T")]) in
  let ctx := blog.incoming (blog.request CreateResource "") body in
  let first := handle blog.group blog.posts ∅ ctx (blog.world [] [] []) in
  let second := handle blog.group blog.posts ∅ ctx (worldOf first) in
  responseStatus first = StatusCreated /\
  responseStatus second = StatusConflict /\
  length (docsOf blog.postMeta (worldOf second)) = 1%nat.
Proof. vm_compute. repeat split. Qed.

(** ** C1: consistent update *)

(** *** Hexadecimal identifiers are distinct *)

Lemma append_cons x (a b : string) : String x a ++ b = String x (a ++ b).
Proof. reflexivity. Qed.

Lemma append_assoc (a b c : string) : (a ++ b) ++ c = a ++ (b ++ c).
Proof.
  induction a as [|x a IH]; [reflexivity|].
  rewrite !append_cons. now f_equal.
Qed.

Lemma append_length (a b : string) :
  String.length (a ++ b) = (String.length a + String.length b)%nat.
Proof.
  induction a as [|x a IH]; [reflexivity|].
  rewrite append_cons. cbn [String.length]. now rewrite IH.
Qed.

Lemma hexDigits_app k n acc : hexDigits k n acc = hexDigits k n "" ++ acc.
Proof.
  revert n acc. induction k as [|k IH]; intros n acc; cbn [hexDigits]; [reflexivity|].
  rewrite (IH _ (String _ acc)), (IH _ (String _ "")).
  now rewrite append_assoc.
Qed.

Lemma hexDigits_length k n : String.length (hexDigits k n "") = k.
Proof.
  revert n. induction k as [|k IH]; intros n; cbn [hexDigits]; [reflexivity|].
  rewrite hexDigits_app, append_length, IH. cbn. lia.
Qed.

Lemma append_inj a a' b b' :
  String.length a = String.length a' -> a ++ b = a' ++ b' -> a = a' /\ b = b'.
Proof.
  revert a'. induction a as [|x a IH]; intros [|x' a'] Hl H; try discriminate.
  - now split.
  - rewrite !append_cons in H. inversion H. cbn [String.length] in Hl.
    destruct (IH a') as [-> ->]; [lia | assumption | now split].
Qed.

Lemma hexDigit_inj d d' : (d < 16)%N -> (d' < 16)%N -> hexDigit d = hexDigit d' -> d = d'.
Proof.
  intros Hd Hd' H. apply (f_equal N_of_ascii) in H. unfold hexDigit in H.
  destruct (N.ltb_spec d 10), (N.ltb_spec d' 10);
    rewrite !N_ascii_embedding in H by lia; lia.
Qed.

Lemma hexDigits_inj k n n' :
  hexDigits k n "" = hexDigits k n' "" -> (n mod 16 ^ N.of_nat k = n' mod 16 ^ N.of_nat k)%N.
Proof.
  revert n n'. induction k as [|k IH]; intros n n' H.
  - cbn. now rewrite !N.mod_1_r.
  - cbn [hexDigits] in H. rewrite (hexDigits_app k (n / 16)), (hexDigits_app k (n' / 16)) in H.
    apply append_inj in H as [H1 H2]; [|now rewrite !hexDigits_length].
    apply IH in H1. inversion H2 as [H3].
    apply hexDigit_inj in H3; [|apply N.mod_lt; lia|apply N.mod_lt; lia].
    rewrite Nat2N.inj_succ, N.pow_succ_r'.
    rewrite !N.Div0.mod_mul_r. lia.
Qed.

Lemma Hex_inj a b : (a < 2 ^ 96)%N -> (b < 2 ^ 96)%N -> Hex a = Hex b -> a = b.
Proof.
  intros Ha Hb H. apply hexDigits_inj in H.
  change (16 ^ N.of_nat 24)%N with (2 ^ 96)%N in H.
  now rewrite !N.mod_small in H.
Qed.


(** *** The token steps of [updateResource] *)

Lemma issued_fresh w token :
  issued w token -> (lastID w < 2 ^ 96 - 1)%N -> Hex (N.succ (lastID w)) <> token.
Proof.
  intros (id & Hid & ->) Hlast H. apply Hex_inj in H; lia.
Qed.

Lemma updateResource_token_run c ctx w field model token :
  ConsistentUpdate c = true ->
  L (meta c) "fire-consistent-update" = Some field ->
  Model_ ctx = Some model -> Get model field = Some (VString token) ->
  updateResource_token c ctx w
    = Ok token (setModel (Some (Set_ model field (VString ""))) ctx) w.
Proof.
  intros Hc Hl Hm Hg. unfold updateResource_token. rewrite Hc.
  rewrite (bind_Ok _ _ _ _ _ _ _ (flagged_Ok _ _ _ ctx w Hl)).
  rewrite (bind_Ok _ _ _ _ _ _ _ (MustGet_Ok _ ctx w _ _ Hm Hg)).
  cbn [asString]. mstep.
  now rewrite (MustSet_Ok _ _ _ _ _ _ Hm Hg).
Qed.

Lemma updateResource_replace_run c stored ctx w field model token :
  ConsistentUpdate c = true ->
  L (meta c) "fire-consistent-update" = Some field ->
  Model_ ctx = Some model -> Get model field = Some (VString token) ->
  let rotated := Set_ model field (VString (Hex (N.succ (lastID w)))) in
  let query := [<[field := CEq (VString token)]> {["_id" := CEq (VID (DocID model))]}] in
  updateResource_replace c stored ctx w =
    if negb (String.eqb token stored)
    then Abort (BadRequest "invalid consistent update token") w
    else if existsb (selects (meta c) query) (docsOf (meta c) w)
    then
      if duplicateExcept (meta c) (collection (store w) (Collection (meta c)))
           (selects (meta c) query) rotated
      then Abort (ErrorFromStatus StatusConflict "document is not unique") (advance w)
      else Ok tt (setModel (Some rotated) ctx)
             (putDocs (meta c)
                (replaceFirst (selects (meta c) query) (fun _ => rotated) (docsOf (meta c) w))
                (advance w))
    else Abort (ErrorFromStatus StatusConflict
                  "existing document with different consistent update token") (advance w).
Proof.
  intros Hc Hl Hm Hg rotated query. unfold updateResource_replace. rewrite Hc.
  rewrite (bind_Ok _ _ _ _ _ _ _ (flagged_Ok _ _ _ ctx w Hl)).
  rewrite (bind_Ok _ _ _ _ _ _ _ (MustGet_Ok _ ctx w _ _ Hm Hg)).
  cbn [asString]. mstep.
  destruct (negb (String.eqb token stored)); [reflexivity|].
  unfold newID. cbn [New].
  rewrite (MustSet_Ok _ _ _ _ _ _ Hm Hg). fold rotated.
  rewrite (theModel_Ok (setModel (Some rotated) ctx) _ rotated eq_refl).
  unfold call, ReplaceFirst, replaceOne. cbn [andb negb setLock].
  change (DocID rotated) with (DocID model). fold query.
  change (docsOf (meta c) {| store := store w; lastID := N.succ (lastID w); clock := clock w |})
    with (docsOf (meta c) w).
  destruct (existsb _ _); [|reflexivity].
  cbn [store]. destruct (duplicateExcept _ _ _ _); reflexivity.
Qed.

Lemma reads_preloadRelationship g c models whitelist field :
  reads (preloadRelationship g c models whitelist field).
Proof. unfold preloadRelationship. reader. Qed.

Lemma reads_preloadRelationships g c models : reads (preloadRelationships g c models).
Proof.
  unfold preloadRelationships.
  apply reads_bind; [apply reads_getCtx | intros ctx].
  apply reads_bind; [apply reads_relationshipKeys | intros whitelist].
  apply reads_bind; [|intros; apply reads_ret].
  apply reads_mapEach. intros field. apply reads_preloadRelationship.
Qed.

(** An Update whose document passes the checks loads the entity, takes
    its tokens, assigns the document, replaces the entity and responds. *)
Lemma updateResource_run g c ctx w one :
  carries ctx one -> RType one = ResourceType (JSONAPIRequest ctx) ->
  RID one = ResourceID (JSONAPIRequest ctx) ->
  updateResource g c ctx w
    = (loadModel c;;
       created ← updateResource_created c;
       stored ← updateResource_token c;
       updateResource_assign c one created;;
       updateResource_replace c stored;;
       updateResource_respond g c) ctx w.
Proof.
  intros (doc & Hd & Ho) Ht Hi. unfold updateResource.
  pose proof (requestResource_run ctx w doc Hd) as Hr. rewrite Ho in Hr.
  rewrite (bind_Ok _ _ _ _ _ _ _ Hr).
  rewrite (bind_Ok getCtx _ ctx w ctx ctx w eq_refl).
  rewrite Ht, Hi, !String.eqb_refl. cbn [negb when].
  rewrite (bind_Ok (mret tt) _ ctx w tt ctx w eq_refl).
  now rewrite (bind_Ok (mret tt) _ ctx w tt ctx w eq_refl).
Qed.

(** An Update that returns has answered with 200 before the notifiers
    ran, and has written nothing after the replacement unless a decorator
    or a notifier writes. *)
Lemma updateResource_respond_inv g c ctx w ctx' w' :
  updateResource_respond g c ctx w = Ok tt ctx' w' ->
  (keepCode (Notifiers c) -> ResponseCode ctx' = StatusOK) /\
  (keepStore (Decorators c) -> keepStore (Notifiers c) -> store w' = store w).
Proof.
  intros H. unfold updateResource_respond in H.
  apply bind_inv_Ok in H as ([] & ctx1 & w1 & H1 & H).
  apply bind_inv_Ok in H as (model & ctx2 & w2 & H2 & H).
  pose proof (reads_theModel ctx1 w1) as Hr. rewrite H2 in Hr. destruct Hr as [-> ->].
  apply bind_inv_Ok in H as (relationships & ctx3 & w3 & H3 & H).
  pose proof (reads_preloadRelationships g c [model] ctx1 w1) as Hr.
  rewrite H3 in Hr. destruct Hr as [-> ->].
  apply bind_inv_Ok in H as (one & ctx4 & w4 & H4 & H).
  pose proof (reads_constructResource c model (Some relationships) ctx1 w1) as Hr.
  unfold resourceForModel in H4. rewrite H4 in Hr. destruct Hr as [-> ->].
  rewrite (bind_Ok getCtx _ ctx1 w1 ctx1 ctx1 w1 eq_refl) in H.
  apply bind_inv_Ok in H as ([] & ctx5 & w5 & H5 & H).
  inversion H5; subst ctx5 w5. clear H5.
  split.
  - intros Hk. now rewrite (runCallbacks_code _ _ _ _ _ _ Hk H).
  - intros Hd Hn. rewrite (runCallbacks_store _ _ _ _ _ _ Hn H).
    exact (runCallbacks_store _ _ _ _ _ _ Hd H1).
Qed.

(** An Update whose document carries a token other than the stored one is
    answered with 400, not with 409; and an Update that carries the stored
    token leaves that very token in store when the stored token is the
    hexadecimal form of the next identifier. *)
Lemma C1_counterexample :
  let update token :=
    blog.incoming (blog.request UpdateResource (Hex 1%N))
      (Some (blog.document (Hex 1%N)
               [("title", VString "Hello!"); ("update-token", VString token)])) in
  let stored token := blog.world [blog.post 1%N "Hello" "c1" token VNull []] [] [] in
  let mismatch := handle blog.group blog.posts ∅ (update (Hex 6%N)) (stored (Hex 7%N)) in
  let same := handle blog.group blog.posts ∅ (update (Hex 101%N)) (stored (Hex 101%N)) in
  ConsistentUpdate blog.posts = true /\
  responseStatus mismatch = StatusBadRequest /\
  responseStatus mismatch <> StatusConflict /\
  responseStatus same = StatusOK /\
  List.map (fun d => Get d "UpdateToken") (docsOf blog.postMeta (worldOf same))
    = [Some (VString (Hex 101%N))].
Proof. vm_compute. repeat split; discriminate. Qed.

(** C1, as amended. With ConsistentUpdate enabled, an Update of an entity
    whose token field holds [T0], by a document that passes the checks and
    after whose assignment the model carries [token]: is rejected with 400
    (invalid consistent update token) when [token] differs from [T0]; is
    rejected with 409 when [token] is [T0] but no stored document of that
    id holds [T0] any more, the store being left as it was; and otherwise
    replaces the stored document by the model with a new token [T1] in
    the field and goes on to respond: when it returns, the status is 200
    and the store is as the replacement left it. [T1] differs from [T0]
    whenever [T0] is a token that has been issued. An Update that fails
    within its own transaction leaves the store unchanged. (The callbacks
    are assumed not to write to the store, the notifiers not to change the
    status, where the statement says so.) *)
Theorem C1_consistent_update (g : Group) (c : Controller) (field T0 created token : string)
    (one : Resource) (entity model : Model) (ctx ctxL ctxA : Context) (w wL wA : World) :
  ConsistentUpdate c = true ->
  L (meta c) "fire-consistent-update" = Some field ->
  carries ctx one -> RType one = ResourceType (JSONAPIRequest ctx) ->
  RID one = ResourceID (JSONAPIRequest ctx) ->
  loadModel c ctx w = Ok tt ctxL wL ->
  Model_ ctxL = Some entity -> Get entity field = Some (VString T0) ->
  updateResource_created c ctxL wL = Ok created ctxL wL ->
  updateResource_assign c one created
    (setModel (Some (Set_ entity field (VString ""))) ctxL) wL = Ok tt ctxA wA ->
  Model_ ctxA = Some model -> Get model field = Some (VString token) ->
  let T1 := Hex (N.succ (lastID wA)) in
  let rotated := Set_ model field (VString T1) in
  let query := [<[field := CEq (VString token)]> {["_id" := CEq (VID (DocID model))]}] in
  let found := existsb (selects (meta c) query) (docsOf (meta c) wA) in
  (token <> T0 ->
   updateResource g c ctx w = Abort (BadRequest "invalid consistent update token") wA) /\
  (token = T0 -> found = false ->
   exists w',
     updateResource g c ctx w
       = Abort (ErrorFromStatus StatusConflict
                  "existing document with different consistent update token") w' /\
     store w' = store wA) /\
  (token = T0 -> found = true ->
   duplicateExcept (meta c) (collection (store wA) (Collection (meta c)))
     (selects (meta c) query) rotated = false ->
   exists wR,
     updateResource g c ctx w = updateResource_respond g c (setModel (Some rotated) ctxA) wR /\
     docsOf (meta c) wR
       = replaceFirst (selects (meta c) query) (fun _ => rotated) (docsOf (meta c) wA) /\
     Get rotated field = Some (VString T1) /\
     (issued wA T0 -> (lastID wA < 2 ^ 96 - 1)%N -> T1 <> T0) /\
     (forall ctx' w', updateResource g c ctx w = Ok tt ctx' w' ->
        (keepCode (Notifiers c) -> ResponseCode ctx' = StatusOK) /\
        (keepStore (Decorators c) -> keepStore (Notifiers c) -> store w' = store wR))) /\
  (forall selector ctx0 w0 e w',
     Intent_ (JSONAPIRequest ctx0) = UpdateResource -> Transaction ctx0 = false ->
     handle g c selector ctx0 w0 = Abort e w' -> store w' = store w0).
Proof.
  intros Hc Hl Hcar Ht Hid Hload Hm Hg Hcreated Hassign HmA HgA T1 rotated query found.
  assert (Hrun : updateResource g c ctx w
                 = (updateResource_replace c T0;; updateResource_respond g c) ctxA wA).
  { rewrite (updateResource_run g c ctx w one Hcar Ht Hid).
    rewrite (bind_Ok _ _ _ _ _ _ _ Hload).
    rewrite (bind_Ok _ _ _ _ _ _ _ Hcreated).
    rewrite (bind_Ok _ _ _ _ _ _ _ (updateResource_token_run c ctxL wL field entity T0 Hc Hl Hm Hg)).
    now rewrite (bind_Ok _ _ _ _ _ _ _ Hassign). }
  pose proof (updateResource_replace_run c T0 ctxA wA field model token Hc Hl HmA HgA) as Hrep.
  cbn zeta in Hrep. fold T1 in Hrep. fold rotated in Hrep. fold query in Hrep.
  fold found in Hrep.
  split; [|split; [|split]].
  - intros Hne. rewrite Hrun. apply String.eqb_neq in Hne. rewrite Hne in Hrep.
    exact (bind_Abort _ _ _ _ _ _ Hrep).
  - intros -> Hf. exists (advance wA). split; [|reflexivity].
    rewrite Hrun. rewrite String.eqb_refl, Hf in Hrep. exact (bind_Abort _ _ _ _ _ _ Hrep).
  - intros -> Hf Hd. rewrite String.eqb_refl, Hf, Hd in Hrep. cbn [negb] in Hrep.
    eexists. split; [rewrite Hrun; exact (bind_Ok _ _ _ _ _ _ _ Hrep)|].
    split; [apply docsOf_putDocs|]. split; [apply Get_Set_eq|].
    split; [intros Hi Hb; now apply issued_fresh|].
    intros ctx' w' H. rewrite Hrun, (bind_Ok _ _ _ _ _ _ _ Hrep) in H.
    exact (updateResource_respond_inv g c _ _ _ _ H).
  - intros selector ctx0 w0 e w' Hi Htx H.
    apply (handle_rollback g c selector ctx0 w0 e w'); [now rewrite Hi | exact Htx | exact H].
Qed.

Lemma C1_witness :
  let entity := blog.post 1%N "Hello" "c1" (Hex 7%N) VNull [] in
  let doc := blog.document (Hex 1%N)
               [("title", VString "Hello!"); ("update-token", VString (Hex 7%N))] in
  let ctx := setTransaction true (setOperation Update
               (setWritableFields ["Title"; "UpdateToken"] (setReadableFields ["Title"]
                  (setRequest (Some doc)
                     (blog.incoming (blog.request UpdateResource (Hex 1%N)) None))))) in
  let w := blog.world [entity] [] [] in
  let r := updateResource blog.group blog.posts ctx w in
  Hex 101%N <> Hex 7%N /\
  (forall ctx' w', r = Ok tt ctx' w' ->
     ResponseCode ctx' = StatusOK /\
     List.map (fun d => Get d "UpdateToken") (docsOf blog.postMeta w')
       = [Some (VString (Hex 101%N))]).
Proof.
  intros entity doc ctx w r.
  pose (one := MkResource "posts" (Hex 1%N)
                 [("title", VString "Hello!"); ("update-token", VString (Hex 7%N))] []).
  pose (loaded := loadModel blog.posts ctx w).
  pose (ctxL := match loaded with Ok _ x _ => x | Abort _ _ => ctx end).
  pose (locked := default entity (Model_ ctxL)).
  pose (assigned := updateResource_assign blog.posts one "c1"
                      (setModel (Some (Set_ locked "UpdateToken" (VString ""))) ctxL)
                      (worldOf loaded)).
  pose (ctxA := match assigned with Ok _ x _ => x | Abort _ _ => ctx end).
  pose (model := default entity (Model_ ctxA)).
  destruct (C1_consistent_update blog.group blog.posts "UpdateToken" (Hex 7%N) "c1" (Hex 7%N)
              one locked model ctx ctxL ctxA w (worldOf loaded) (worldOf assigned))
    as (_ & _ & Hok & _); try (vm_compute; reflexivity).
  { now exists doc. }
  destruct Hok as (wR & Hrun & Hdocs & _ & Hfresh & Hret); try (vm_compute; reflexivity).
  split.
  - apply Hfresh; [exists 7%N; split; [vm_compute; discriminate | reflexivity] | vm_compute; reflexivity].
  - intros ctx' w' H. destruct (Hret ctx' w' H) as [Hcode Hstore].
    split; [apply Hcode; intros cb []|].
    rewrite (docsOf_store blog.postMeta wR w'); [|apply Hstore; intros cb []]. change blog.postMeta with (meta blog.posts). rewrite Hdocs.
    vm_compute. reflexivity.
Defined.

(** An Update that carries the stored token, through [handle]: it is
    answered with 200 and the stored token is a new one; the same document
    sent again is answered with 400. *)
Example update_twice :
  let stored := blog.post 1%N "Hello" "c1" (Hex 7%N) VNull [] in
  let body := Some (blog.document (Hex 1%N)
                      [("title", VString "Hello!"); ("update-token", VString (Hex 7%N))]) in
  let ctx := blog.incoming (blog.request UpdateResource (Hex 1%N)) body in
  let first := handle blog.group blog.posts ∅ ctx (blog.world [stored] [] []) in
  let second := handle blog.group blog.posts ∅ ctx (worldOf first) in
  responseStatus first = StatusOK /\
  List.map (fun d => Get d "UpdateToken") (docsOf blog.postMeta (worldOf first))
    = [Some (VString (Hex 101%N))] /\
  responseStatus second = StatusBadRequest /\
  docsOf blog.postMeta (worldOf second) = docsOf blog.postMeta (worldOf first).
Proof. vm_compute. repeat split. Qed.

(** ** C10: the token has to be submitted *)

Lemma forEach_invariant {A : Type} (P : Context -> Prop) (f : A -> M unit) (l : list A) :
  (forall x, In x l -> forall ctx w ctx' w', P ctx -> f x ctx w = Ok tt ctx' w' -> P ctx') ->
  forall ctx w ctx' w', P ctx -> forEach f l ctx w = Ok tt ctx' w' -> P ctx'.
Proof.
  induction l as [|x l IH]; intros Hf ctx w ctx' w' HP H.
  - cbn in H. inversion H. now subst.
  - cbn [forEach] in H.
    apply bind_inv_Ok in H as ([] & ctx1 & w1 & H1 & H2).
    eapply IH; [| |exact H2].
    + intros y Hy. apply Hf. now right.
    + eapply Hf; [now left | exact HP | exact H1].
Qed.

Lemma MustSet_inv name v ctx w ctx' w' :
  MustSet name v ctx w = Ok tt ctx' w' ->
  exists model, Model_ ctx = Some model /\ ctx' = setModel (Some (Set_ model name v)) ctx /\ w' = w.
Proof.
  unfold MustSet, theModel. mstep. intros H.
  destruct (Model_ ctx) as [model|]; [|discriminate]. cbn beta iota in H.
  destruct (Get model name); [|discriminate]. inversion H. now exists model.
Qed.

Lemma MustSet_keeps field name v ctx w ctx' w' :
  name <> field ->
  MustSet name v ctx w = Ok tt ctx' w' -> fieldOf field ctx' = fieldOf field ctx.
Proof.
  intros Hne H. apply MustSet_inv in H as (model & Hm & -> & _).
  unfold fieldOf. rewrite Hm. cbn. now apply Get_Set_ne.
Qed.

Lemma assignAttribute_keeps field model f v model' :
  Name f <> field -> assignAttribute model f v = Some model' ->
  Get model' field = Get model field.
Proof.
  intros Hne H. unfold assignAttribute in H.
  destruct v, (Type_ f); inversion H; subst; try reflexivity; now apply Get_Set_ne.
Qed.

Lemma mapEach_reads_Ok {A B : Type} (f : A -> M B) (l : list A) ctx w res ctx' w' :
  (forall a, reads (f a)) ->
  mapEach f l ctx w = Ok res ctx' w' ->
  ctx' = ctx /\ w' = w /\ Forall2 (fun a b => f a ctx w = Ok b ctx w) l res.
Proof.
  intros Hf. revert res ctx' w'. induction l as [|x l IH]; intros res ctx' w' H.
  - cbn in H. inversion H. subst. repeat split. constructor.
  - cbn [mapEach] in H.
    apply bind_inv_Ok in H as (y & ctx1 & w1 & H1 & H).
    pose proof (Hf x ctx w) as Hx. rewrite H1 in Hx. destruct Hx as [-> ->].
    apply bind_inv_Ok in H as (ys & ctx2 & w2 & H2 & H).
    destruct (IH _ _ _ H2) as (-> & -> & Hall).
    cbn in H. inversion H. subst. repeat split. now constructor.
Qed.

Lemma assignRelationship_keeps c field rel f ctx w ctx' w' :
  Name f <> field ->
  assignRelationship c rel f ctx w = Ok tt ctx' w' -> fieldOf field ctx' = fieldOf field ctx.
Proof.
  intros Hne H. unfold assignRelationship in H.
  apply bind_inv_Ok in H as ([] & ctx1 & w1 & H1 & H2).
  assert (E1 : fieldOf field ctx1 = fieldOf field ctx).
  { destruct (ToOne f); [|cbn in H1; inversion H1; now subst].
    cbn [when] in H1.
    apply bind_inv_Ok in H1 as (id & ctx0 & w0 & H0 & H1).
    assert (ctx0 = ctx) as ->.
    { destruct (Data rel ≫= One) as [one|].
      - destruct (negb _); [discriminate|].
        pose proof (reads_parseID "invalid relationship id" (RID one) ctx w) as Hr.
        rewrite H0 in Hr. tauto.
      - cbn in H0. now inversion H0. }
    destruct (negb (Optional f)); [|destruct (negb (IsZero id))];
      now apply (MustSet_keeps field) in H1. }
  rewrite <- E1.
  destruct (ToMany f); [|cbn in H2; inversion H2; now subst].
  cbn [when] in H2.
  apply bind_inv_Ok in H2 as (ids & ctx0 & w0 & H0 & H2).
  assert (ctx0 = ctx1) as ->.
  { destruct (Data rel) as [data|].
    - apply mapEach_reads_Ok in H0 as (-> & _); [reflexivity|].
      intros r. cbn beta.
      destruct (negb (String.eqb (RType r) (RelType f))); [apply reads_abort | apply reads_parseID].
    - cbn in H0. now inversion H0. }
  now apply (MustSet_keeps field) in H2.
Qed.

Lemma Assign_keeps c field attributes ctx w ctx' w' :
  (forall key value f, In (key, value) attributes ->
     Attributes (meta c) key = Some f -> Name f <> field) ->
  Assign c attributes ctx w = Ok tt ctx' w' -> fieldOf field ctx' = fieldOf field ctx.
Proof.
  intros Hom H. unfold Assign in H.
  apply (forEach_invariant (fun x => fieldOf field x = fieldOf field ctx)) in H;
    [exact H | | reflexivity].
  intros [key value] Hin x v x' v' HP Hx. cbn [fst snd] in Hx.
  apply bind_inv_Ok in Hx as (model & x1 & v1 & H1 & Hx).
  unfold theModel in H1. mstep_in H1.
  destruct (Model_ x) as [m|] eqn:Em; [|discriminate]. inversion H1. subst.
  destruct (Attributes (meta c) key) as [f|] eqn:Ef.
  - destruct (assignAttribute model f value) as [model'|] eqn:Ea; [|discriminate].
    cbn in Hx. inversion Hx. subst. rewrite <- HP. unfold fieldOf. rewrite Em. cbn.
    eapply assignAttribute_keeps; [|exact Ea]. eapply Hom; eassumption.
  - cbn in Hx. inversion Hx. now subst.
Qed.






(** ** C9: pagination *)

(** *** Rounding to binary64 *)

Lemma digits2_pos_spec p :
  2 ^ (Z.pos (digits2_pos p) - 1) <= Z.pos p < 2 ^ Z.pos (digits2_pos p).
Proof.
  induction p as [p IH|p IH|]; cbn [digits2_pos].
  - rewrite Pos2Z.inj_succ.
    replace (Z.succ (Z.pos (digits2_pos p)) - 1) with (Z.succ (Z.pos (digits2_pos p) - 1)) by lia.
    rewrite !Z.pow_succ_r by lia. lia.
  - rewrite Pos2Z.inj_succ.
    replace (Z.succ (Z.pos (digits2_pos p)) - 1) with (Z.succ (Z.pos (digits2_pos p) - 1)) by lia.
    rewrite !Z.pow_succ_r by lia. lia.
  - cbn. lia.
Qed.

Lemma digits2_pos_unique p d :
  2 ^ (d - 1) <= Z.pos p < 2 ^ d -> Z.pos (digits2_pos p) = d.
Proof.
  intros [Hlo Hhi]. pose proof (digits2_pos_spec p) as [Hlo' Hhi'].
  set (d' := Z.pos (digits2_pos p)) in *.
  assert (0 < d') by (subst d'; lia).
  destruct (Z.lt_trichotomy d' d) as [Hlt|[Heq|Hgt]]; [|exact Heq|].
  - assert (2 ^ d' <= 2 ^ (d - 1)) by (apply Z.pow_le_mono_r; lia). lia.
  - assert (d <= 0 \/ 0 < d) as [Hd|Hd] by lia.
    + assert (2 ^ d <= 2 ^ 0) by (apply Z.pow_le_mono_r_iff; lia ||
        (destruct (Z.eq_dec d 0); [subst; lia| rewrite Z.pow_neg_r; cbn; lia])).
      cbn in *. lia.
    + assert (2 ^ d <= 2 ^ (d' - 1)) by (apply Z.pow_le_mono_r; lia). lia.
Qed.

Lemma shr_1_spec R num den :
  0 <= shr_m R -> locates (loc_of_shr_record R) num den ->
  0 <= shr_m (shr_1 R) /\
  exists num',
    locates (loc_of_shr_record (shr_1 R)) num' (2 * den) /\
    shr_m (shr_1 R) * (2 * den) + num' = shr_m R * den + num.
Proof.
  destruct R as [m r s]. cbn [shr_m]. intros Hm [Hnum Hl].
  assert (Hs : orb r s = negb (num =? 0)).
  { destruct (num =? 0), r, s; cbn in *; congruence. }
  assert (Heven : locates (if negb (num =? 0) then loc_Inexact Lt else loc_Exact) num (2 * den)).
  { split; [lia|].
    destruct (Z.eqb_spec num 0) as [E|E]; cbn; [reflexivity|].
    f_equal. symmetry. apply Z.compare_lt_iff. lia. }
  assert (Hodd : locates (if negb (num =? 0) then loc_Inexact Gt else loc_Inexact Eq)
                   (den + num) (2 * den)).
  { split; [lia|].
    destruct (Z.eqb_spec (den + num) 0) as [E'|E']; [lia|].
    destruct (Z.eqb_spec num 0) as [E|E]; cbn; f_equal; symmetry.
    - apply Z.compare_eq_iff. lia.
    - apply Z.compare_gt_iff. lia. }
  destruct m as [|[p|p|]|p]; try lia; cbn [shr_1 shr_m loc_of_shr_record]; rewrite Hs;
    (split; [lia|]).
  - exists num. split; [exact Heven | lia].
  - exists (den + num). split; [exact Hodd | lia].
  - exists num. split; [exact Heven | lia].
  - exists (den + num). split; [exact Hodd | lia].
Qed.

Lemma pow2_xO p : 2 ^ Z.pos p~0 = 2 ^ Z.pos p * 2 ^ Z.pos p.
Proof. rewrite <- Z.pow_add_r by lia. f_equal. lia. Qed.

Lemma pow2_xI p : 2 ^ Z.pos p~1 = 2 * (2 ^ Z.pos p * 2 ^ Z.pos p).
Proof.
  rewrite <- Z.pow_add_r, <- Z.pow_succ_r by lia. f_equal. lia.
Qed.

Lemma iter_shr_1_spec p : forall R num den,
  0 <= shr_m R -> locates (loc_of_shr_record R) num den ->
  0 <= shr_m (SpecFloat.iter_pos shr_1 p R) /\
  exists num',
    locates (loc_of_shr_record (SpecFloat.iter_pos shr_1 p R)) num' (2 ^ Z.pos p * den) /\
    shr_m (SpecFloat.iter_pos shr_1 p R) * (2 ^ Z.pos p * den) + num' = shr_m R * den + num.
Proof.
  induction p as [p IH|p IH|]; intros R num den Hm Hl; cbn [SpecFloat.iter_pos].
  - destruct (shr_1_spec R num den Hm Hl) as (H1 & n1 & L1 & E1).
    destruct (IH _ _ _ H1 L1) as (H2 & n2 & L2 & E2).
    destruct (IH _ _ _ H2 L2) as (H3 & n3 & L3 & E3).
    split; [exact H3|]. exists n3.
    replace (2 ^ Z.pos p~1 * den) with (2 ^ Z.pos p * (2 ^ Z.pos p * (2 * den)))
      by (rewrite pow2_xI; ring).
    split; [exact L3 | lia].
  - destruct (IH _ _ _ Hm Hl) as (H2 & n2 & L2 & E2).
    destruct (IH _ _ _ H2 L2) as (H3 & n3 & L3 & E3).
    split; [exact H3|]. exists n3.
    replace (2 ^ Z.pos p~0 * den) with (2 ^ Z.pos p * (2 ^ Z.pos p * den))
      by (rewrite pow2_xO; ring).
    split; [exact L3 | lia].
  - change (2 ^ 1) with 2. now apply shr_1_spec.
Qed.

(** [shr] by [n] places, for a record of a nonnegative mantissa. *)
Lemma shr_spec R e n num den :
  0 <= n -> 0 <= shr_m R -> locates (loc_of_shr_record R) num den ->
  snd (shr R e n) = e + n /\
  0 <= shr_m (fst (shr R e n)) /\
  exists num',
    locates (loc_of_shr_record (fst (shr R e n))) num' (2 ^ n * den) /\
    shr_m (fst (shr R e n)) * (2 ^ n * den) + num' = shr_m R * den + num.
Proof.
  intros Hn Hm Hl. destruct n as [|p|p]; [| |lia]; cbn [shr fst snd].
  - split; [lia|]. split; [exact Hm|]. exists num.
    rewrite Z.pow_0_r, Z.mul_1_l. now split.
  - split; [reflexivity|]. now apply iter_shr_1_spec.
Qed.

Lemma loc_of_shr_record_of_loc m l : loc_of_shr_record (shr_record_of_loc m l) = l.
Proof. now destruct l as [|[]]. Qed.

Lemma shr_m_record_of_loc m l : shr_m (shr_record_of_loc m l) = m.
Proof. now destruct l as [|[]]. Qed.

Lemma round_nearest_even_spec m l num den :
  locates l num den ->
  (round_nearest_even m l = m /\ 2 * num <= den) \/
  (round_nearest_even m l = m + 1 /\ den <= 2 * num).
Proof.
  intros [Hn ->].
  destruct (Z.eqb_spec num 0) as [E|E]; cbn; [left; split; [reflexivity | lia]|].
  destruct (Z.compare_spec (2 * num) den) as [H|H|H].
  - destruct (Z.even m); [left | right]; split; (reflexivity || lia).
  - left. split; [reflexivity | lia].
  - right. split; [reflexivity | lia].
Qed.

Lemma fexp64 x : -1074 <= x - 53 -> fexp 53 1024 x = x - 53.
Proof. unfold fexp, emin. lia. Qed.

(** Rounding to binary64 of a mantissa of at least 53 digits, in range:
    the result is finite and normal, and it is the value [X / den * 2 ^ e]
    rounded to a nearest multiple of [2 ^ (e + d - 53)]. *)
Lemma binary_round_aux_spec (m : positive) e l num den :
  let d := Z.pos (digits2_pos m) in
  53 <= d -> -1021 <= d + e <= 1023 ->
  locates l num den ->
  exists m'' e'',
    binary_round_aux 53 1024 false (Z.pos m) e l = S754_finite false m'' e'' /\
    2 ^ 52 <= Z.pos m'' < 2 ^ 53 /\
    e + (d - 53) <= e'' <= e + (d - 53) + 1 /\
    let V := Z.pos m'' * 2 ^ (e'' - (e + (d - 53))) in
    let D := 2 ^ (d - 53) * den in
    let X := Z.pos m * den + num in
    - D <= 2 * (V * D - X) <= D.
Proof.
  intros d Hd He Hl.
  pose proof (digits2_pos_spec m) as Hm. fold d in Hm.
  unfold binary_round_aux, shr_fexp. cbn [Zdigits2]. fold d.
  rewrite fexp64 by lia.
  replace (d + e - 53 - e) with (d - 53) by lia.
  set (n := d - 53) in *.
  destruct (shr_spec (shr_record_of_loc (Z.pos m) l) e n num den) as (He1 & Hm1 & num1 & Hl1 & E1);
    [lia | rewrite shr_m_record_of_loc; lia | now rewrite loc_of_shr_record_of_loc |].
  rewrite shr_m_record_of_loc in E1.
  destruct (shr (shr_record_of_loc (Z.pos m) l) e n) as [R1 e1]. cbn [fst snd] in *. subst e1.
  set (m1 := shr_m R1) in *.
  set (P := 2 ^ n) in *.
  assert (HP : 0 < P) by (apply Z.pow_pos_nonneg; lia).
  assert (Hlo : 2 ^ (d - 1) = 2 ^ 52 * P).
  { unfold P. rewrite <- Z.pow_add_r by lia. f_equal. lia. }
  assert (Hhi : 2 ^ d = 2 ^ 53 * P).
  { unfold P. rewrite <- Z.pow_add_r by lia. f_equal. lia. }
  rewrite Hlo, Hhi in Hm.
  destruct Hl as [Hnum _]. pose proof Hl1 as [Hnum1 _].
  assert (Hden : 0 < den) by lia.
  assert (Hm1b : 2 ^ 52 <= m1 < 2 ^ 53).
  { change (2 ^ 52) with 4503599627370496 in *. change (2 ^ 53) with 9007199254740992 in *.
    split; nia. }
  destruct (round_nearest_even_spec m1 _ _ _ Hl1) as [[-> Hr]|[-> Hr]].
  - (* rounded down *)
    assert (Hdig : Zdigits2 m1 = 53).
    { destruct m1 as [|q|q] eqn:Eq; try lia. cbn [Zdigits2].
      apply digits2_pos_unique. change (53 - 1) with 52. lia. }
    rewrite Hdig, fexp64 by lia.
    replace (53 + (e + n) - 53 - (e + n)) with 0 by lia.
    cbn [shr shr_record_of_loc shr_m].
    destruct m1 as [|q|q] eqn:Eq; try lia.
    replace (e + n <=? 1024 - 53) with true by (symmetry; apply Z.leb_le; lia).
    exists q, (e + n). split; [reflexivity|]. split; [lia|]. split; [lia|].
    cbn zeta. rewrite Z.sub_diag, Z.pow_0_r, Z.mul_1_r. fold P. nia.
  - (* rounded up *)
    destruct (Z.eq_dec (m1 + 1) (2 ^ 53)) as [Etop|Etop].
    + rewrite Etop. change (Zdigits2 (2 ^ 53)) with 54.
      rewrite fexp64 by lia.
      replace (54 + (e + n) - 53 - (e + n)) with 1 by lia.
      cbn [shr shr_record_of_loc shr_m SpecFloat.iter_pos].
      change (shr_m (shr_1 {| shr_m := 2 ^ 53; shr_r := false; shr_s := false |}))
        with (Z.pos (4503599627370496)).
      replace (e + n + 1 <=? 1024 - 53) with true by (symmetry; apply Z.leb_le; lia).
      exists 4503599627370496%positive, (e + n + 1). split; [reflexivity|].
      split; [cbn; lia|]. split; [lia|].
      cbn zeta. replace (e + n + 1 - (e + n)) with 1 by lia. fold P.
      change (Z.pos 4503599627370496 * 2 ^ 1) with (2 ^ 53). rewrite <- Etop. nia.
    + assert (Hdig : Zdigits2 (m1 + 1) = 53).
      { destruct (m1 + 1) as [|q|q] eqn:Eq; try lia. cbn [Zdigits2].
        apply digits2_pos_unique. change (53 - 1) with 52. lia. }
      rewrite Hdig, fexp64 by lia.
      replace (53 + (e + n) - 53 - (e + n)) with 0 by lia.
      cbn [shr shr_record_of_loc shr_m].
      destruct (m1 + 1) as [|q|q] eqn:Eq; try lia.
      replace (e + n <=? 1024 - 53) with true by (symmetry; apply Z.leb_le; lia).
      exists q, (e + n). split; [reflexivity|]. split; [lia|]. split; [lia|].
      cbn zeta. rewrite Z.sub_diag, Z.pow_0_r, Z.mul_1_r. fold P. nia.
Qed.

Lemma iter_xO p k : Z.pos (Pos.iter xO p k) = Z.pos p * 2 ^ Z.pos k.
Proof.
  induction k as [|k IH] using Pos.peano_ind.
  - cbn. lia.
  - rewrite Pos.iter_succ, Pos2Z.inj_succ, Z.pow_succ_r, Pos2Z.inj_xO, IH by lia. ring.
Qed.

Lemma pow2_lt_inv a b : 0 <= b -> 2 ^ a < 2 ^ b -> a < b.
Proof.
  intros Hb H. destruct (Z.lt_ge_cases a b) as [|Hge]; [assumption|].
  assert (2 ^ b <= 2 ^ a) by (apply Z.pow_le_mono_r; lia). lia.
Qed.

(** [float64] of a positive [int64]: a normal number, which is the integer
    itself when that is below [2 ^ 53]. *)
Lemma float64_spec z :
  0 < z < 2 ^ 63 ->
  exists m e,
    float64 z = S754_finite false m e /\
    2 ^ 52 <= Z.pos m < 2 ^ 53 /\ -52 <= e <= 11 /\
    (z < 2 ^ 53 -> e <= 0 /\ Z.pos m = z * 2 ^ (- e)) /\
    (2 ^ 53 <= z -> 0 < e /\ 2 ^ 53 <= Z.pos m * 2 ^ e).
Proof.
  intros Hz. destruct z as [|p|p]; try lia.
  unfold float64, binary_normalize, binary_round.
  pose proof (digits2_pos_spec p) as Hp.
  set (d := Z.pos (digits2_pos p)) in *.
  assert (Hd : 1 <= d <= 63).
  { split; [subst d; lia|].
    assert (d - 1 < 63) by (apply pow2_lt_inv; lia). lia. }
  rewrite fexp64 by lia. unfold shl_align.
  replace (d + 0 - 53 - 0) with (d - 53) by lia.
  destruct (d - 53) as [|k|k] eqn:Ek.
  - (* exactly 53 digits *)
    destruct (binary_round_aux_spec p 0 loc_Exact 0 1) as (m & e & Hr & Hm & He & Hv);
      fold d; [lia | lia | split; [lia | reflexivity] |].
    fold d in He, Hv. rewrite Ek in He, Hv. cbn zeta in Hv.
    replace (e - (0 + 0)) with e in Hv by lia.
    assert (Hp' : 2 ^ 52 <= Z.pos p < 2 ^ 53).
    { replace 52 with (d - 1) by lia. replace 53 with d by lia. exact Hp. }
    assert (e = 0).
    { destruct (Z.eq_dec e 0) as [|Hne]; [assumption|].
      assert (e = 1) as -> by lia. change (2 ^ 1) with 2 in Hv. lia. }
    subst e. rewrite Z.pow_0_r in Hv.
    exists m, 0. split; [exact Hr|]. split; [exact Hm|]. split; [lia|].
    split; [intros _; split; [lia|]; cbn; lia | lia].
  - (* more than 53 digits: rounded *)
    destruct (binary_round_aux_spec p 0 loc_Exact 0 1) as (m & e & Hr & Hm & He & Hv);
      fold d; [lia | lia | split; [lia | reflexivity] |].
    fold d in He. rewrite Ek in He.
    exists m, e. split; [exact Hr|]. split; [exact Hm|]. split; [lia|].
    assert (2 ^ 53 <= 2 ^ (d - 1)) by (apply Z.pow_le_mono_r; lia).
    split; [lia|]. intros _. split; [lia|].
    assert (2 ^ 1 <= 2 ^ e) by (apply Z.pow_le_mono_r; lia).
    change (2 ^ 53) with (2 ^ 52 * 2 ^ 1). nia.
  - (* fewer than 53 digits: aligned *)
    pose proof (iter_xO p k) as Hk. set (mz := Pos.iter xO p k) in *.
    assert (Hkd : Z.pos k = 53 - d) by lia.
    assert (Hpow : 2 ^ Z.pos k * 2 ^ (d - 1) = 2 ^ 52).
    { rewrite <- Z.pow_add_r by lia. f_equal. lia. }
    assert (Hpow' : 2 ^ Z.pos k * 2 ^ d = 2 ^ 53).
    { rewrite <- Z.pow_add_r by lia. f_equal. lia. }
    assert (Hmz : 2 ^ 52 <= Z.pos mz < 2 ^ 53) by nia.
    assert (Hdz : Z.pos (digits2_pos mz) = 53)
      by (apply digits2_pos_unique; change (53 - 1) with 52; exact Hmz).
    destruct (binary_round_aux_spec mz (Z.neg k) loc_Exact 0 1) as (m & e & Hr & Hm & He & Hv);
      rewrite ?Hdz; [lia | lia | split; [lia | reflexivity] |].
    rewrite Hdz in He, Hv. cbn zeta in Hv.
    replace (e - (Z.neg k + (53 - 53))) with (e - Z.neg k) in Hv by lia.
    change (2 ^ (53 - 53)) with 1 in Hv.
    assert (e = Z.neg k).
    { destruct (Z.eq_dec e (Z.neg k)) as [|Hne]; [assumption|].
      replace (e - Z.neg k) with 1 in Hv by lia. change (2 ^ 1) with 2 in Hv. lia. }
    subst e. rewrite Z.sub_diag, Z.pow_0_r in Hv.
    replace (d + 0 - 53) with (Z.neg k) by lia.
    exists m, (Z.neg k). split; [exact Hr|]. split; [exact Hm|]. split; [lia|].
    split; [|intros; assert (2 ^ 53 <= 2 ^ (d - 1)) by (apply Z.pow_le_mono_r; lia); lia].
    intros _. split; [lia|].
    replace (- Z.neg k) with (Z.pos k) by lia. lia.
Qed.

Lemma new_location_locates nb r :
  0 <= r < nb -> locates (new_location nb r) r nb.
Proof.
  intros Hr. split; [exact Hr|].
  unfold new_location, new_location_even, new_location_odd.
  destruct (Z.even nb) eqn:Ev; cbn beta;
    (destruct (Z.eqb_spec r 0) as [E|E]; [reflexivity|]); [reflexivity|].
  f_equal.
  assert (Hodd : Z.odd nb = true) by (rewrite <- Z.negb_even; now rewrite Ev).
  apply Z.odd_spec in Hodd as [h ->].
  destruct (Z.compare_spec (2 * r + 1) (2 * h + 1)) as [H|H|H]; symmetry.
  - apply Z.compare_lt_iff. lia.
  - apply Z.compare_lt_iff. lia.
  - apply Z.compare_gt_iff. lia.
Qed.

(** The binary64 quotient of two normal numbers of moderate exponent: a
    normal number, nearest to the quotient on its grid. *)
Lemma float64Div_spec (mN mS : positive) (eN eS : Z) :
  2 ^ 52 <= Z.pos mN < 2 ^ 53 -> 2 ^ 52 <= Z.pos mS < 2 ^ 53 ->
  -52 <= eN <= 0 -> -52 <= eS <= 11 ->
  exists m e n,
    float64Div (S754_finite false mN eN) (S754_finite false mS eS) = S754_finite false m e /\
    0 <= n <= 1 /\
    let g := eN - eS - 53 + n in
    g <= e <= g + 1 /\
    let V := Z.pos m * 2 ^ (e - g) in
    let D := 2 ^ n * Z.pos mS in
    let X := Z.pos mN * 2 ^ 53 in
    - D <= 2 * (V * D - X) <= D.
Proof.
  intros HmN HmS HeN HeS.
  unfold float64Div, SFdiv, SFdiv_core_binary. cbn [Zdigits2 xorb].
  rewrite (digits2_pos_unique mN 53), (digits2_pos_unique mS 53)
    by (change (53 - 1) with 52; assumption).
  rewrite fexp64 by lia.
  replace (Z.min (53 + eN - (53 + eS) - 53) (eN - eS)) with (eN - eS - 53) by lia.
  replace (eN - eS - (eN - eS - 53)) with 53 by lia.
  rewrite Z.shiftl_mul_pow2 by lia.
  pose proof (Z_div_mod (Z.pos mN * 2 ^ 53) (Z.pos mS) eq_refl) as Hdiv.
  destruct (Z.div_eucl (Z.pos mN * 2 ^ 53) (Z.pos mS)) as [q r].
  destruct Hdiv as [Hq Hr].
  change (2 ^ 52) with 4503599627370496 in *. change (2 ^ 53) with 9007199254740992 in *.
  assert (Hqb : 4503599627370496 <= q < 2 * 9007199254740992) by (split; nia).
  destruct q as [|qp|qp]; try lia.
  pose proof (digits2_pos_spec qp) as Hd.
  set (d := Z.pos (digits2_pos qp)) in *.
  assert (Hdb : 53 <= d <= 54).
  { split.
    - assert (52 < d); [|lia]. apply pow2_lt_inv; [subst d; lia|].
      change (2 ^ 52) with 4503599627370496. lia.
    - assert (d - 1 < 54); [|lia]. apply pow2_lt_inv; [lia|].
      change (2 ^ 54) with (2 * 9007199254740992). lia. }
  destruct (binary_round_aux_spec qp (eN - eS - 53) (new_location (Z.pos mS) r) r (Z.pos mS))
    as (m & e & Hres & Hm & He & Hv); fold d;
    [lia | lia | now apply new_location_locates |].
  fold d in He, Hv. cbn zeta in Hv.
  exists m, e, (d - 53). split; [exact Hres|]. split; [lia|].
  cbn zeta.
  replace (eN - eS - 53 + (d - 53)) with (eN - eS - 53 + (d - 53)) by lia.
  split; [lia|].
  replace (Z.pos mN * 9007199254740992) with (Z.pos qp * Z.pos mS + r) by lia.
  exact Hv.
Qed.

Lemma ceilInt64_spec (m : positive) (e g k : Z) :
  g <= 0 -> g <= e -> 0 <= k < 2 ^ 63 ->
  (k - 1) * 2 ^ (- g) < Z.pos m * 2 ^ (e - g) <= k * 2 ^ (- g) ->
  ceilInt64 (S754_finite false m e) = k.
Proof.
  intros Hg He Hk Hv. unfold ceilInt64.
  assert (Hc : (if 0 <=? e then Z.pos m * 2 ^ e else - (- Z.pos m / 2 ^ (- e))) = k).
  { destruct (Z.leb_spec 0 e) as [H0|H0].
    - replace (2 ^ (e - g)) with (2 ^ e * 2 ^ (- g)) in Hv
        by (rewrite <- Z.pow_add_r by lia; f_equal; lia).
      assert (0 < 2 ^ (- g)) by (apply Z.pow_pos_nonneg; lia).
      nia.
    - replace (2 ^ (- g)) with (2 ^ (- e) * 2 ^ (e - g)) in Hv
        by (rewrite <- Z.pow_add_r by lia; f_equal; lia).
      assert (HT : 0 < 2 ^ (e - g)) by (apply Z.pow_pos_nonneg; lia).
      assert (HH : 0 < 2 ^ (- e)) by (apply Z.pow_pos_nonneg; lia).
      set (T := 2 ^ (e - g)) in *. set (H := 2 ^ (- e)) in *.
      assert (Hb : (k - 1) * H < Z.pos m <= k * H) by (split; nia).
      pose proof (Z.div_mod (- Z.pos m) H ltac:(lia)) as Hdm.
      pose proof (Z.mod_pos_bound (- Z.pos m) H HH) as Hmod.
      nia. }
  rewrite Hc.
  replace (- 2 ^ 63 <=? k) with true by (symmetry; apply Z.leb_le; lia).
  replace (k <? 2 ^ 63) with true by (symmetry; apply Z.ltb_lt; lia).
  reflexivity.
Qed.

Lemma nearest_upper V D X K :
  0 < D -> 2 * (V * D - X) <= D -> X <= K * D -> V <= K.
Proof. intros HD Hv Hx. nia. Qed.

Lemma nearest_lower V D X K :
  0 < D -> - D <= 2 * (V * D - X) -> D < 2 * (X - K * D) -> K < V.
Proof. intros HD Hv Hx. nia. Qed.

Lemma ceil_div_spec N S :
  0 <= N -> 0 < S ->
  let k := (N + S - 1) / S in (k - 1) * S < N <= k * S.
Proof.
  intros HN HS k.
  pose proof (Z.div_mod (N + S - 1) S ltac:(lia)) as Hdm.
  pose proof (Z.mod_pos_bound (N + S - 1) S HS) as Hmod.
  fold k in Hdm. nia.
Qed.

(** The last page as the code computes it, through binary64, is the
    quotient rounded up as long as the count is below [2 ^ 53]. *)
Lemma lastPage_spec (N S : Z) :
  0 <= N < 2 ^ 53 -> 0 < S < 2 ^ 63 -> lastPage N S = (N + S - 1) / S.
Proof.
  intros HN HS. unfold lastPage.
  destruct (float64_spec S HS) as (mS & eS & HfS & HmS & HeS & HSlo & HShi).
  rewrite HfS.
  destruct (Z.eq_dec N 0) as [->|HN0].
  { cbn. symmetry. apply Z.div_small. lia. }
  destruct (float64_spec N ltac:(lia)) as (mN & eN & HfN & HmN & HeN & HNlo & _).
  destruct (HNlo ltac:(lia)) as [HeN0 HmNv]. clear HNlo.
  rewrite HfN.
  destruct (float64Div_spec mN mS eN eS HmN HmS ltac:(lia) HeS)
    as (m & e & n & Hdiv & Hn & He & Hv).
  rewrite Hdiv. cbn zeta in He, Hv.
  set (g := eN - eS - 53 + n) in *.
  pose proof (ceil_div_spec N S ltac:(lia) ltac:(lia)) as Hk. cbn zeta in Hk.
  set (k := (N + S - 1) / S) in *.
  assert (Hk1 : 1 <= k) by nia.
  assert (HkN : k <= N) by nia.
  assert (HA : 1 <= 2 ^ (- eN)) by (change 1 with (2 ^ 0) at 1; apply Z.pow_le_mono_r; lia).
  assert (HP : 1 <= 2 ^ n <= 2).
  { split; [change 1 with (2 ^ 0) at 1 | change 2 with (2 ^ 1) at 2];
      apply Z.pow_le_mono_r; lia. }
  assert (HG : 0 < 2 ^ (- g)) by (apply Z.pow_pos_nonneg; lia).
  assert (HX : Z.pos mN * 2 ^ 53 = 2 ^ 53 * 2 ^ (- eN) * N) by (rewrite HmNv; ring).
  apply (ceilInt64_spec m e g k); [lia | lia | lia |].
  set (V := Z.pos m * 2 ^ (e - g)) in *.
  set (D := 2 ^ n * Z.pos mS) in *.
  assert (HD : 0 < D) by (subst D; nia).
  destruct (Z.lt_ge_cases S (2 ^ 53)) as [Hsmall|Hbig].
  - (* the page size is exact *)
    destruct (HSlo Hsmall) as [HeS0 HmSv].
    assert (HGD : 2 ^ (- g) * D = 2 ^ 53 * 2 ^ (- eN) * S).
    { subst D. rewrite HmSv.
      replace (2 ^ (- g) * (2 ^ n * (S * 2 ^ (- eS))))
        with (2 ^ (- g) * 2 ^ n * 2 ^ (- eS) * S) by ring.
      rewrite <- !Z.pow_add_r by lia.
      replace (- g + n + - eS) with (53 + - eN) by lia. reflexivity. }
    set (A := 2 ^ (- eN)) in *. set (G := 2 ^ (- g)) in *.
    change (2 ^ 53) with 9007199254740992 in *. change (2 ^ 52) with 4503599627370496 in *.
    split.
    + apply (nearest_lower V D (Z.pos mN * 9007199254740992) ((k - 1) * G));
        [exact HD | lia |].
      replace ((k - 1) * G * D) with ((k - 1) * (G * D)) by ring.
      rewrite HX, HGD.
      assert (9007199254740992 * A <= 9007199254740992 * A * (N - (k - 1) * S)) by nia.
      assert (D < 2 * 9007199254740992) by (subst D; nia).
      nia.
    + apply (nearest_upper V D (Z.pos mN * 9007199254740992) (k * G));
        [exact HD | lia |].
      replace (k * G * D) with (k * (G * D)) by ring.
      rewrite HX, HGD. nia.
  - (* the page size is rounded: it is above the count *)
    destruct (HShi Hbig) as [HeS0 HfSv].
    assert (k = 1) as -> by nia.
    assert (HGD : 2 ^ (- g) * D = 2 ^ 53 * 2 ^ (- eN) * (Z.pos mS * 2 ^ eS)).
    { subst D.
      replace (2 ^ (- g) * (2 ^ n * Z.pos mS)) with (2 ^ (- g) * 2 ^ n * Z.pos mS) by ring.
      replace (2 ^ 53 * 2 ^ (- eN) * (Z.pos mS * 2 ^ eS))
        with (2 ^ 53 * 2 ^ (- eN) * 2 ^ eS * Z.pos mS) by ring.
      rewrite <- !Z.pow_add_r by lia.
      replace (- g + n) with (53 + - eN + eS) by lia. reflexivity. }
    set (A := 2 ^ (- eN)) in *. set (G := 2 ^ (- g)) in *.
    change (2 ^ 53) with 9007199254740992 in *. change (2 ^ 52) with 4503599627370496 in *.
    split.
    + subst V. assert (0 < 2 ^ (e - g)) by (apply Z.pow_pos_nonneg; lia). nia.
    + apply (nearest_upper V D (Z.pos mN * 9007199254740992) (1 * G));
        [exact HD | lia |].
      replace (1 * G * D) with (G * D) by ring.
      rewrite HX, HGD. nia.
Qed.

(** *** The links of a list *)

Lemma pageLink_nonempty self number size : pageLink self number size <> "".
Proof. unfold pageLink. destruct self; discriminate. Qed.

Lemma page_all (ds : list Model) : page 0 0 ds = ds.
Proof. reflexivity. Qed.

(** A count above [2 ^ 53] is rounded by the conversion to binary64: with
    [2 ^ 53 + 1] documents and pages of one the computed last page is
    [2 ^ 53], one short of the quotient rounded up. *)
Lemma lastPage_rounded :
  lastPage (2 ^ 53 + 1) 1 = 2 ^ 53 /\
  (2 ^ 53 + 1 + 1 - 1) / 1 = 2 ^ 53 + 1.
Proof. vm_compute. split; reflexivity. Qed.

Lemma filter_all {A : Type} (p : A -> bool) l : (forall x, p x = true) -> List.filter p l = l.
Proof.
  intros Hp. induction l as [|x l IH]; cbn; [reflexivity|]. now rewrite Hp, IH.
Qed.

Lemma append_cancel (s a b : string) : s ++ a = s ++ b -> a = b.
Proof. induction s as [|x s IH]; cbn; intros H; [exact H | inversion H; auto]. Qed.

(** Without a selector and without filters every stored document
    matches. *)
Lemma matching_all c ctx w :
  Selector ctx = ∅ -> Filters ctx = [] -> matching c ctx w = docsOf (meta c) w.
Proof.
  intros Hs Hf. unfold matching, Query_. rewrite Hs, Hf.
  rewrite bool_decide_eq_true_2 by reflexivity. cbn [app].
  apply filter_all. intros d. reflexivity.
Qed.

Lemma docsOf_posts ps cs ns : docsOf (meta blog.posts) (blog.world ps cs ns) = ps.
Proof. reflexivity. Qed.

(** C9. A List of pages of one over [2 ^ 53 + 1] matching documents, on
    page [2 ^ 53]: the links are computed, the last link names page
    [2 ^ 53] and there is no next link, although the quotient of the count
    by the page size, rounded up, is [2 ^ 53 + 1], one page further. The
    count has been rounded by its conversion to binary64. *)
Theorem C9_last_page_rounded (c : Controller) (self : string) (ctx : Context) (w : World) :
  let r := JSONAPIRequest ctx in
  let N := Z.of_nat (length (matching c ctx w)) in
  N = 2 ^ 53 + 1 -> PageSize r = 1 -> PageNumber r = 2 ^ 53 -> Transaction ctx = true ->
  (N + PageSize r - 1) / PageSize r = 2 ^ 53 + 1 /\
  exists links,
    listLinks c self ctx w = Ok links ctx w /\
    LLast links = pageLink self (2 ^ 53) 1 /\
    LLast links <> pageLink self (2 ^ 53 + 1) 1 /\
    LNext links = "".
Proof.
  intros r N HN HS HP Htxn.
  destruct lastPage_rounded as [Hlast Hceil].
  split; [rewrite HN, HS; exact Hceil|].
  unfold listLinks. mstep. fold r. rewrite HS, HP.
  change ((0 <? 2 ^ 53) && (0 <? 1)) with true. cbn beta iota.
  unfold call, Count. rewrite Htxn. cbn [negb andb].
  rewrite page_all. fold (matching c ctx w). fold N. rewrite HN. cbn [abortIf]. mstep.
  rewrite Hlast.
  eexists. split; [reflexivity|]. cbn [LLast LNext].
  split; [reflexivity|]. split.
  - unfold pageLink. intros H. apply append_cancel in H. vm_compute in H. discriminate.
  - now rewrite Z.ltb_irrefl.
Qed.

Lemma C9_last_page_rounded_witness :
  let many := List.map (fun id => blog.post (N.of_nat id) "Hello" "" "" VNull [])
                (List.seq 1 (Z.to_nat (2 ^ 53 + 1))) in
  let ctx := setTransaction true (blog.incoming (blog.pageRequest (2 ^ 53) 1) None) in
  let w := blog.world many [] [] in
  exists links,
    listLinks blog.posts "/posts" ctx w = Ok links ctx w /\
    LLast links = pageLink "/posts" (2 ^ 53) 1 /\
    LNext links = "".
Proof.
  intros many ctx w.
  destruct (C9_last_page_rounded blog.posts "/posts" ctx w) as (_ & links & Hrun & Hlast & _ & Hnext).
  - rewrite (matching_all blog.posts ctx w eq_refl eq_refl).
    unfold w. rewrite docsOf_posts. unfold many.
    rewrite List.length_map, List.length_seq. apply Z2Nat.id. discriminate.
  - reflexivity.
  - reflexivity.
  - reflexivity.
  - exists links. split; [exact Hrun|]. split; [exact Hlast | exact Hnext].
Defined.

(** Five posts listed two a page, through [handle]: the second page links
    to the first and to the third, which is the last; the third page has
    no next link. *)
Example list_pages :
  let five := List.map (fun id => blog.post id "Hello" "" "" VNull []) [1; 2; 3; 4; 5]%N in
  let links number :=
    match handle blog.group blog.posts ∅ (blog.incoming (blog.pageRequest number 2) None)
            (blog.world five [] []) with
    | Ok _ ctx _ => Response ctx ≫= Links
    | Abort _ _ => None
    end in
  (LPrevious <$> links 1, LNext <$> links 1, LLast <$> links 1)
    = (Some "", Some "/posts?page[number]=2&page[size]=2",
       Some "/posts?page[number]=3&page[size]=2") /\
  (LPrevious <$> links 2, LNext <$> links 2)
    = (Some "/posts?page[number]=1&page[size]=2", Some "/posts?page[number]=3&page[size]=2") /\
  (LPrevious <$> links 3, LNext <$> links 3)
    = (Some "/posts?page[number]=2&page[size]=2", Some "").
Proof. vm_compute. repeat split. Qed.

(** ** C3: soft delete *)

Lemma valueMatches_nil v : valueMatches v VNull = true -> v = VNull.
Proof.
  destruct v; cbn; intros H; try discriminate; try reflexivity;
    apply bool_decide_eq_true in H; exact H.
Qed.

Lemma matchesM_lookup value (m : gmap string Cond) key c :
  m !! key = Some c -> matchesM value m = true -> condMatches (value key) c = true.
Proof.
  intros Hl H. unfold matchesM in H. rewrite forallb_forall in H.
  apply (H (key, c)). apply list_elem_of_In. now apply elem_of_map_to_list.
Qed.

Lemma Query_selector ctx key c :
  Selector ctx !! key = Some c -> In (Selector ctx) (Query_ ctx).
Proof.
  intros H. unfold Query_. apply in_or_app. left.
  destruct (bool_decide_reflect (Selector ctx = ∅)) as [E|E]; [|now left].
  rewrite E, lookup_empty in H. discriminate.
Qed.

Lemma selects_live m field key ctx d :
  column m field key -> nilAt key ctx -> selects m (Query_ ctx) d = true -> live field d.
Proof.
  intros (_ & Hk & Hv & _) Hn H. unfold selects in H. rewrite forallb_forall in H.
  specialize (H _ (Query_selector _ _ _ Hn)).
  apply (matchesM_lookup _ _ _ _ Hn) in H. cbn in H.
  apply valueMatches_nil in H. rewrite Hk, Hv in H. exact H.
Qed.

Lemma matches_lookup m (q : gmap string Cond) rest key d :
  q !! key = Some (CEq VNull) -> matches m (q :: rest) d = true -> docValue m d key = VNull.
Proof.
  intros Hl H. unfold matches in H. cbn [forallb] in H.
  apply andb_true_iff in H as [H _].
  apply (matchesM_lookup _ _ _ _ Hl) in H. now apply valueMatches_nil.
Qed.

Lemma live_incrementLock field d : live field (incrementLock d) <-> live field d.
Proof. reflexivity. Qed.

Lemma In_firstn_self {A : Type} n (l : list A) x : In x (List.firstn n l) -> In x l.
Proof.
  revert l. induction n as [|n IH]; intros [|y l]; cbn; try tauto.
  intros [->|H]; [now left | right; now apply IH].
Qed.

Lemma In_skipn_self {A : Type} n (l : list A) x : In x (List.skipn n l) -> In x l.
Proof.
  revert l. induction n as [|n IH]; intros [|y l]; cbn; try tauto.
  intros H. right. now apply IH.
Qed.

Lemma In_page skip limit (ds : list Model) d : In d (page skip limit ds) -> In d ds.
Proof.
  unfold page. intros H.
  assert (Hs : forall x, In x (if 0 <? skip then List.skipn (Z.to_nat skip) ds else ds) -> In x ds).
  { intros x. destruct (0 <? skip); [apply In_skipn_self | trivial]. }
  apply Hs. destruct (0 <? limit); [eapply In_firstn_self; exact H | exact H].
Qed.

Lemma In_insertSorted le x d ds :
  In x (insertSorted le d ds) -> x = d \/ In x ds.
Proof.
  induction ds as [|y ds IH]; cbn; [intuition|].
  destruct (le d y); cbn; intuition.
Qed.

Lemma In_sortDocs m keys ds x : In x (sortDocs m keys ds) -> In x ds.
Proof.
  unfold sortDocs. destruct keys as [|k keys]; [trivial|].
  induction ds as [|d ds IH]; cbn; [trivial|].
  intros H. apply In_insertSorted in H as [->|H]; [now left | right; now apply IH].
Qed.

(** What [FindAll] returns are stored documents that the query selects. *)
Lemma FindAll_selected txn m q sort skip limit w models w' :
  FindAll txn m q sort skip limit false w = inr (models, w') ->
  w' = w /\ Forall (fun d => In d (docsOf m w) /\ selects m q d = true) models.
Proof.
  unfold FindAll. destruct (negb txn); [discriminate|]. cbn [andb].
  intros H. inversion H; subst. split; [reflexivity|].
  apply List.Forall_forall. intros d Hd.
  apply In_page, In_sortDocs, filter_In in Hd. exact Hd.
Qed.

Lemma FindFirst_selected txn m q sort skip lock w model w' :
  FindFirst txn m q sort skip lock w = inr (Some model, w') ->
  exists d, In d (docsOf m w) /\ selects m q d = true /\
            (model = d \/ model = incrementLock d).
Proof.
  unfold FindFirst. destruct (lock && negb txn); [discriminate|].
  destruct (List.find _ _) as [d|] eqn:E; [|discriminate].
  apply find_some in E as [Hin Hsel].
  intros H. exists d. split; [exact Hin|]. split; [exact Hsel|].
  destruct lock; inversion H; auto.
Qed.

Lemma nilAt_insert key sel ctx : nilAt key (setSelector (<[key := CEq VNull]> sel) ctx).
Proof. unfold nilAt. cbn. apply lookup_insert_eq. Qed.

(** The model that [loadModel] finds under soft delete is live. *)
Lemma loadModel_live c field key ctx w ctx' w' :
  SoftDelete c = true ->
  L (meta c) "fire-soft-delete" = Some field -> F (meta c) field = Some key ->
  column (meta c) field key -> keepNil key (Authorizers c) ->
  loadModel c ctx w = Ok tt ctx' w' ->
  exists model, Model_ ctx' = Some model /\ live field model.
Proof.
  intros Hs HL HF Hcol Hkeep H.
  apply loadModel_inv in H as (id & sel & ctx1 & w1 & model & _ & Hsel & Hauth & Hfind & ->).
  rewrite Hs in Hsel. destruct Hsel as (field' & key' & HL' & HF' & ->).
  rewrite HL in HL'. inversion HL'; subst field'.
  rewrite HF in HF'. inversion HF'; subst key'.
  assert (Hnil : nilAt key ctx1).
  { apply (runCallbacks_invariant (fun ctx _ => nilAt key ctx) _ _
             ltac:(intros cb Hin ca wa cb' wb HP Hcb; exact (Hkeep cb Hin ca wa cb' wb Hcb HP))
             _ _ _ _ (nilAt_insert key _ ctx) Hauth). }
  apply FindFirst_selected in Hfind as (d & _ & Hd & Hmodel).
  pose proof (selects_live _ _ _ _ _ Hcol Hnil Hd) as Hlive.
  exists model. split.
  - now destruct (bool_decide _).
  - destruct Hmodel as [->| ->]; [exact Hlive | now apply live_incrementLock].
Qed.

(** The models that [loadModels] finds under soft delete are live. *)
Lemma loadModels_live c field key ctx w ctx' w' :
  SoftDelete c = true ->
  L (meta c) "fire-soft-delete" = Some field -> F (meta c) field = Some key ->
  column (meta c) field key -> keepNil key (Authorizers c) ->
  loadModels c ctx w = Ok tt ctx' w' ->
  Forall (live field) (Models ctx').
Proof.
  intros Hs HL HF Hcol Hkeep H. unfold loadModels in H. rewrite Hs in H.
  apply bind_inv_Ok in H as ([] & ctx1 & w1 & H1 & H).
  assert (Hn1 : nilAt key ctx1).
  { unfold when, flagged in H1. rewrite HL in H1. mstep_in H1.
    unfold bsonKey in H1. rewrite HF in H1. mstep_in H1.
    inversion H1. apply nilAt_insert. }
  clear H1.
  apply bind_inv_Ok in H as (ctx0 & ctx2 & w2 & H2 & H).
  unfold getCtx in H2. inversion H2; subst ctx0 ctx2 w2. clear H2.
  apply bind_inv_Ok in H as ([] & ctx3 & w3 & H3 & H).
  assert (Hn3 : nilAt key ctx3).
  { revert H3. apply forEach_invariant; [|exact Hn1].
    intros [name values] _ ca wa cb wb HP Hb.
    destruct (Attributes (meta c) name) as [f|].
    - destruct (negb (Contains (CFilters c) (Name f))); [discriminate|].
      destruct (bool_decide (Type_ f = TBool) && (length values =? 1)%nat);
        inversion Hb; exact HP.
    - destruct (Relationships (meta c) name) as [f|]; [|discriminate].
      destruct ((negb (ToOne f) && negb (ToMany f)) || negb (Contains (CFilters c) (Name f)));
        [discriminate|].
      apply bind_inv_Ok in Hb as (ids & c1 & w1' & Hm & Ha).
      apply mapEach_reads_Ok in Hm as (-> & -> & _); [|intros a; apply reads_parseID].
      inversion Ha. exact HP. }
  clear H3.
  apply bind_inv_Ok in H as ([] & ctx4 & w4 & H4 & H).
  assert (Hn4 : nilAt key ctx4).
  { revert H4. apply forEach_invariant; [|exact Hn3].
    intros sorter _ ca wa cb wb HP Hb.
    destruct (Attributes (meta c) (TrimPrefix sorter "-")) as [f|]; [|discriminate].
    destruct (negb (Contains (Sorters c) (Name f))); [discriminate|].
    destruct (String.prefix "-" sorter); inversion Hb; exact HP. }
  clear H4.
  apply bind_inv_Ok in H as ([] & ctx5 & w5 & H5 & H).
  assert (Hn5 : nilAt key ctx5).
  { unfold modifyCtx in H5. inversion H5.
    destruct (_ && _); exact Hn4. }
  clear H5.
  apply bind_inv_Ok in H as ([] & ctx6 & w6 & H6 & H).
  assert (Hn6 : nilAt key ctx6).
  { apply (runCallbacks_invariant (fun ctx _ => nilAt key ctx) _ _
             ltac:(intros cb Hin ca wa cb' wb HP Hcb; exact (Hkeep cb Hin ca wa cb' wb Hcb HP))
             _ _ _ _ Hn5 H6). }
  clear H6.
  apply bind_inv_Ok in H as (ctx0 & ctx7 & w7 & H7 & H).
  unfold getCtx in H7. inversion H7; subst ctx0 ctx7 w7. clear H7.
  cbn zeta in H.
  apply bind_inv_Ok in H as (res & ctx8 & w8 & H8 & H).
  unfold call in H8.
  destruct (FindAll _ _ _ _ _ _ _ _) as [e|[models w9]] eqn:EF;
    inversion H8; subst res ctx8 w8; [discriminate|]. clear H8.
  cbn [abortIf] in H. mstep_in H. inversion H. cbn.
  apply FindAll_selected in EF as [_ Hall].
  eapply List.Forall_impl; [|exact Hall].
  intros d [_ Hd]. exact (selects_live _ _ _ _ _ Hcol Hn6 Hd).
Qed.

Lemma replaceFirst_ext p (f f' : Model -> Model) ds :
  (forall d, f d = f' d) -> replaceFirst p f ds = replaceFirst p f' ds.
Proof.
  intros H. induction ds as [|d ds IH]; cbn; [reflexivity|].
  destruct (p d); [now rewrite H | now rewrite IH].
Qed.

Lemma replaceFirst_length p f ds : length (replaceFirst p f ds) = length ds.
Proof.
  induction ds as [|d ds IH]; cbn; [reflexivity|].
  destruct (p d); cbn; [reflexivity | now rewrite IH].
Qed.

Lemma replaceFirst_In p f ds d :
  List.find p ds = Some d -> In (f d) (replaceFirst p f ds).
Proof.
  induction ds as [|x ds IH]; cbn; [discriminate|].
  destruct (p x); intros H.
  - inversion H. now left.
  - right. now apply IH.
Qed.

(** The soft delete of [deleteResource]: the timestamp of the stored
    document is set to the time of the clock. *)
Lemma deleteResource_remove_run c field key ctx w entity d :
  SoftDelete c = true ->
  L (meta c) "fire-soft-delete" = Some field -> column (meta c) field key ->
  Model_ ctx = Some entity ->
  List.find (byID (DocID entity)) (docsOf (meta c) w) = Some d ->
  duplicateExcept (meta c) (collection (store w) (Collection (meta c)))
    (byID (DocID entity)) (Set_ d field (VTime (clock w))) = false ->
  deleteResource_remove c ctx w
    = Ok tt ctx (putDocs (meta c)
                   (replaceFirst (byID (DocID entity))
                      (fun d => Set_ d field (VTime (clock w))) (docsOf (meta c) w))
                   (snd (Now w))).
Proof.
  intros Hs HL (_ & _ & _ & Hset) Hm Hfind Hdup. unfold deleteResource_remove.
  rewrite (bind_Ok _ _ _ _ _ _ _ (theModel_Ok ctx w entity Hm)).
  mstep. rewrite Hs.
  rewrite (flagged_Ok _ _ _ ctx w HL).
  unfold timeNow, call, manager.Update. cbn [Now andb].
  change (docsOf (meta c) {| store := store w; lastID := lastID w; clock := clock w + 1 |})
    with (docsOf (meta c) w).
  rewrite Hfind. cbn [store applySet List.fold_left].
  rewrite Hset, Hdup. cbn [abortIf]. mstep.
  f_equal. f_equal. apply replaceFirst_ext. intros d'. apply Hset.
Qed.

Lemma fold_left_invariant {A B : Type} (P : A -> Prop) (f : A -> B -> A) l :
  (forall acc x, In x l -> P acc -> P (f acc x)) -> forall init, P init -> P (List.fold_left f l init).
Proof.
  induction l as [|x l IH]; intros Hf init Hi; cbn; [exact Hi|].
  apply IH.
  - intros acc y Hy. apply Hf. now right.
  - apply Hf; [now left | exact Hi].
Qed.

Lemma referencesTo_In rm rel modelID reference id :
  In id (referencesTo rm rel modelID reference) -> id = DocID reference.
Proof.
  unfold referencesTo. intros H. apply in_app_or in H as [H|H].
  - destruct (ToOne rel); [|contradiction].
    destruct (docValue rm reference (BSONField rel)); try contradiction.
    destruct (_ && _); [|contradiction]. destruct H as [<-|[]]. reflexivity.
  - destruct (ToMany rel); [|contradiction].
    destruct (docValue rm reference (BSONField rel)); try contradiction.
    apply in_flat_map in H as (rid & _ & H).
    destruct (_ && _); [|contradiction]. destruct H as [<-|[]]. reflexivity.
Qed.

(** Every id of an entry of [collectReferences] is the id of one of the
    references. *)
Lemma collectReferences_In rm rel modelIDs references owner ids id :
  collectReferences rm rel modelIDs references !! owner = Some ids -> In id ids ->
  exists reference, In reference references /\ DocID reference = id.
Proof.
  unfold collectReferences. revert owner ids id.
  apply (fold_left_invariant
           (fun entry : gmap ID (list ID) => forall owner ids id,
              entry !! owner = Some ids -> In id ids ->
              exists reference, In reference references /\ DocID reference = id)).
  - intros entry modelID _ Hentry.
    apply (fold_left_invariant
             (fun entry : gmap ID (list ID) => forall owner ids id,
                entry !! owner = Some ids -> In id ids ->
                exists reference, In reference references /\ DocID reference = id));
      [|exact Hentry].
    intros acc reference Hin Hacc owner ids id.
    destruct (referencesTo rm rel modelID reference) as [|r rs] eqn:E; [apply Hacc|].
    destruct (decide (owner = modelID)) as [->|Hne].
    + rewrite lookup_insert_eq. intros Hl Hid. inversion Hl; subst ids.
      apply in_app_or in Hid as [Hid|Hid].
      * destruct (acc !! modelID) as [old|] eqn:Eo; [|contradiction].
        exact (Hacc _ _ _ Eo Hid).
      * exists reference. split; [exact Hin|]. symmetry.
        apply (referencesTo_In rm rel modelID). now rewrite E.
    + rewrite lookup_insert_ne by congruence. apply Hacc.
  - intros owner ids id H. rewrite lookup_empty in H. discriminate.
Qed.

(** The references that [preloadRelationship] collects from a controller
    with soft delete are ids of live documents. *)
Lemma preloadRelationship_live g c rc field key models whitelist rel ctx w name entry ctx' w' :
  g !! RelType rel = Some rc -> SoftDelete rc = true ->
  L (meta rc) "fire-soft-delete" = Some field -> F (meta rc) field = Some key ->
  column (meta rc) field key ->
  preloadRelationship g c models whitelist rel ctx w = Ok (Some (name, entry)) ctx' w' ->
  forall owner ids id, entry !! owner = Some ids -> In id ids ->
    exists d, In d (docsOf (meta rc) w) /\ DocID d = id /\ live field d.
Proof.
  intros Hg Hs HL HF (_ & _ & Hv & _) H owner ids id Hl Hid.
  unfold preloadRelationship in H.
  destruct (ToOne rel || ToMany rel); [discriminate|].
  destruct (negb (Contains whitelist (RelName rel))); [discriminate|].
  rewrite Hg in H. mstep_in H.
  destruct (Relationships (meta rc) (RelInverse rel)) as [inverse|]; [|discriminate].
  cbn beta iota in H. rewrite Hs in H.
  unfold flagged in H. rewrite HL in H. mstep_in H.
  unfold bsonKey in H. rewrite HF in H. mstep_in H.
  inversion H; subst name entry ctx' w'. clear H.
  destruct (collectReferences_In _ _ _ _ _ _ _ Hl Hid) as (reference & Hin & Hdoc).
  unfold findAll in Hin. apply filter_In in Hin as [Hin Hm].
  exists reference. split; [exact Hin|]. split; [exact Hdoc|].
  apply matches_lookup with (key := key) in Hm; [|apply lookup_insert_eq].
  unfold live. now rewrite <- Hv.
Qed.

(** C3. With SoftDelete enabled, a Delete whose entity is loaded and
    passes the validators sets the delete timestamp of the stored
    document to the time of the clock and removes nothing: the document
    stays in storage, with its timestamp set, and once the notifiers have
    run the answer is 204. The loads of Find and List constrain the
    soft-delete key of the selector to nil, so the model that Find loads
    and the models that List loads are live documents; and the references
    that a has-one or has-many preload collects from the controller are
    ids of live documents. A document whose timestamp is set is therefore
    in none of these results. *)
Theorem C3_soft_delete_visibility (g : Group) (c : Controller) (field key : string) :
  SoftDelete c = true ->
  L (meta c) "fire-soft-delete" = Some field -> F (meta c) field = Some key ->
  column (meta c) field key -> keepNil key (Authorizers c) ->
  (forall ctx w ctxL wL ctxV wV entity d,
     loadModel c ctx w = Ok tt ctxL wL ->
     runCallbacks (Validators c) StatusBadRequest ctxL wL = Ok tt ctxV wV ->
     Model_ ctxV = Some entity ->
     List.find (byID (DocID entity)) (docsOf (meta c) wV) = Some d ->
     duplicateExcept (meta c) (collection (store wV) (Collection (meta c)))
       (byID (DocID entity)) (Set_ d field (VTime (clock wV))) = false ->
     let deleted := Set_ d field (VTime (clock wV)) in
     exists wR,
       deleteResource_remove c ctxV wV = Ok tt ctxV wR /\
       length (docsOf (meta c) wR) = length (docsOf (meta c) wV) /\
       In deleted (docsOf (meta c) wR) /\
       ~ live field deleted /\
       (forall e w', runCallbacks (Notifiers c) StatusInternalServerError ctxV wR = Abort e w' ->
          deleteResource g c ctx w = Abort e w') /\
       (forall ctxN wN,
          runCallbacks (Notifiers c) StatusInternalServerError ctxV wR = Ok tt ctxN wN ->
          deleteResource g c ctx w = Ok tt (setHeader (Some StatusNoContent) ctxN) wN /\
          (keepStore (Notifiers c) -> docsOf (meta c) wN = docsOf (meta c) wR))) /\
  (forall ctx w ctx' w',
     loadModel c ctx w = Ok tt ctx' w' ->
     exists model, Model_ ctx' = Some model /\ live field model) /\
  (forall ctx w ctx' w',
     loadModels c ctx w = Ok tt ctx' w' -> Forall (live field) (Models ctx')) /\
  (forall owner models whitelist rel ctx w name entry ctx' w',
     g !! RelType rel = Some c ->
     preloadRelationship g owner models whitelist rel ctx w = Ok (Some (name, entry)) ctx' w' ->
     forall o ids id, entry !! o = Some ids -> In id ids ->
       exists d, In d (docsOf (meta c) w) /\ DocID d = id /\ live field d).
Proof.
  intros Hs HL HF Hcol Hkeep. split; [|split; [|split]].
  - intros ctx w ctxL wL ctxV wV entity d Hload Hval Hm Hfind Hdup deleted.
    pose proof (deleteResource_remove_run c field key ctxV wV entity d Hs HL Hcol Hm Hfind Hdup)
      as Hrun.
    assert (Hdelete : deleteResource g c ctx w
              = (runCallbacks (Notifiers c) StatusInternalServerError;;
                 modifyCtx (setHeader (Some StatusNoContent))) ctxV
                  (putDocs (meta c)
                     (replaceFirst (byID (DocID entity))
                        (fun d => Set_ d field (VTime (clock wV))) (docsOf (meta c) wV))
                     (snd (Now wV)))).
    { unfold deleteResource.
      rewrite (bind_Ok _ _ _ _ _ _ _ Hload), (bind_Ok _ _ _ _ _ _ _ Hval).
      now rewrite (bind_Ok _ _ _ _ _ _ _ Hrun). }
    eexists. split; [exact Hrun|].
    rewrite docsOf_putDocs.
    change (docsOf (meta c) (snd (Now wV))) with (docsOf (meta c) wV).
    split; [apply replaceFirst_length|].
    split; [exact (replaceFirst_In _ (fun d => Set_ d field (VTime (clock wV))) _ _ Hfind)|].
    split; [unfold live, deleted; rewrite Get_Set_eq; discriminate|].
    split.
    + intros e w' Hn. rewrite Hdelete. exact (bind_Abort _ _ _ _ _ _ Hn).
    + intros ctxN wN Hn. split; [rewrite Hdelete; now rewrite (bind_Ok _ _ _ _ _ _ _ Hn)|].
      intros Hk. rewrite (docsOf_store _ _ _ (runCallbacks_store _ _ _ _ _ _ Hk Hn)).
      apply docsOf_putDocs.
  - intros ctx w ctx' w'. now apply loadModel_live with (key := key).
  - intros ctx w ctx' w'. now apply loadModels_live with (key := key).
  - intros owner models whitelist rel ctx w name entry ctx' w' Hg H.
    exact (preloadRelationship_live g owner c field key models whitelist rel ctx w name entry
             ctx' w' Hg Hs HL HF Hcol H).
Qed.

Lemma C3_witness :
  let entity := blog.comment 11%N "first" VNull 1%N in
  let ctx := setTransaction true (setOperation Delete
               (blog.incoming (blog.commentRequest DeleteResource (Hex 11%N)) None)) in
  let w := blog.world [] [entity; blog.comment 12%N "second" VNull 1%N] [] in
  exists ctx' w',
    deleteResource blog.group blog.comments ctx w = Ok tt ctx' w' /\
    Header ctx' = Some StatusNoContent /\
    length (docsOf blog.commentMeta w') = 2%nat /\
    exists d, In (Set_ d "Deleted" (VTime 1000)) (docsOf blog.commentMeta w') /\ DocID d = 11%N.
Proof.
  intros entity ctx w.
  destruct (C3_soft_delete_visibility blog.group blog.comments "Deleted" "deleted_at")
    as (Hdelete & _); try reflexivity.
  - repeat split; intros; reflexivity.
  - intros cb [].
  - pose (loaded := loadModel blog.comments ctx w).
    pose (ctxL := match loaded with Ok _ x _ => x | Abort _ _ => ctx end).
    pose (locked := default entity (Model_ ctxL)).
    destruct (Hdelete ctx w ctxL (worldOf loaded) ctxL (worldOf loaded) locked locked)
      as (wR & Hrun & Hlen & Hin & _ & _ & Hok); try (vm_compute; reflexivity).
    destruct (Hok ctxL wR eq_refl) as [Hret Hdocs].
    exists (setHeader (Some StatusNoContent) ctxL), wR.
    split; [exact Hret|]. split; [reflexivity|]. split; [exact Hlen|].
    exists locked. split; [exact Hin | reflexivity].
Defined.

(** A comment is deleted through [handle]: the answer is 204 and both
    comments are still stored, the deleted one with its timestamp; after
    that the comment is not found, the list of the comments and the
    comments relationship of its post hold the other comment only. *)
Example soft_delete_hides :
  let w := blog.world [blog.post 1%N "Hello" "c1" "" VNull []]
             [blog.comment 11%N "first" VNull 1%N; blog.comment 12%N "second" VNull 1%N] [] in
  let deleted := handle blog.group blog.comments ∅
                   (blog.incoming (blog.commentRequest DeleteResource (Hex 11%N)) None) w in
  let w' := worldOf deleted in
  let found := handle blog.group blog.comments ∅
                 (blog.incoming (blog.commentRequest FindResource (Hex 11%N)) None) w' in
  let all := handle blog.group blog.comments ∅
               (blog.incoming (blog.commentRequest ListResources "") None) w' in
  let post := handle blog.group blog.posts ∅
                (blog.incoming (blog.request FindResource (Hex 1%N)) None) w' in
  responseStatus deleted = StatusNoContent /\
  List.map (fun d => (DocID d, Get d "Deleted")) (docsOf blog.commentMeta w')
    = [(11%N, Some (VTime 1000)); (12%N, Some VNull)] /\
  responseStatus found = StatusNotFound /\
  listed all = [Hex 12%N] /\
  referenced "comments" post = [Hex 12%N].
Proof. vm_compute. repeat split. Qed.

(** * Further properties of the controller *)

(** ** Callbacks *)

Lemma runCallbacks_app l1 l2 status ctx w :
  runCallbacks (l1 ++ l2) status ctx w
    = (runCallbacks l1 status;; runCallbacks l2 status) ctx w.
Proof.
  revert ctx w. induction l1 as [|cb l1 IH]; intros ctx w; [reflexivity|].
  cbn [app runCallbacks]. mstep.
  destruct (Matcher cb ctx).
  - destruct (runHandler (Handler cb) status ctx w) as [[] ctx1 w1|e w1]; [|reflexivity].
    rewrite IH. reflexivity.
  - rewrite IH. reflexivity.
Qed.

(** X1. The callbacks of a list run in order on the context and the world
    the earlier ones leave. A callback whose matcher rejects the context
    is skipped. The first error ends the run: a safe error is answered
    with the status of the list and the message of the error, any other
    error is passed on as it is; the callbacks after it do not run. *)
Theorem callbacks_run_in_order (before after : list Callback) (cb : Callback) (status : Z)
    (ctx : Context) (w : World) (ctx1 : Context) (w1 : World) :
  runCallbacks before status ctx w = Ok tt ctx1 w1 ->
  let run := runCallbacks (before ++ cb :: after) status ctx w in
  (Matcher cb ctx1 = false -> run = runCallbacks after status ctx1 w1) /\
  (Matcher cb ctx1 = true ->
   (forall ctx2 w2, Handler cb ctx1 w1 = CbOk ctx2 w2 ->
      run = runCallbacks after status ctx2 w2) /\
   (forall msg w2, Handler cb ctx1 w1 = CbSafe msg w2 ->
      run = Abort (JSONAPIError status msg) w2) /\
   (forall e w2, Handler cb ctx1 w1 = CbFail e w2 -> run = Abort e w2)).
Proof.
  intros Hbefore run. subst run. rewrite runCallbacks_app.
  rewrite (bind_Ok _ _ _ _ _ _ _ Hbefore). cbn [runCallbacks]. mstep.
  split; [intros ->; reflexivity|]. intros ->. unfold runHandler.
  repeat split; intros; now rewrite H.
Qed.

Lemma callbacks_run_in_order_witness :
  let ctx := blog.incoming (blog.request FindResource (Hex 1%N)) None in
  let w := blog.world [] [] [] in
  runCallbacks ([blog.allow] ++ blog.deny :: [blog.allow]) StatusUnauthorized ctx w
    = Abort (JSONAPIError StatusUnauthorized "access denied") w.
Proof.
  intros ctx w.
  destruct (callbacks_run_in_order [blog.allow] [blog.allow] blog.deny StatusUnauthorized ctx w ctx w eq_refl)
    as (_ & H).
  destruct (H eq_refl) as (_ & Hsafe & _).
  exact (Hsafe "access denied" w eq_refl).
Defined.

(** ** The dispatch of [handle] *)

(** X2. A request whose resource id is not a hexadecimal object id is
    rejected with 400 (invalid resource id) before the operation is set
    and before anything is loaded, once its document, when one is
    expected, has been parsed. *)
Theorem handle_rejects_invalid_id (g : Group) (c : Controller) (selector : gmap string Cond)
    (ctx : Context) (w : World) :
  parsed ctx ->
  ResourceID (JSONAPIRequest ctx) <> "" ->
  IsHex (ResourceID (JSONAPIRequest ctx)) = false ->
  handle g c selector ctx w = Abort (BadRequest "invalid resource id") w.
Proof.
  intros Hp Hid Hhex. unfold handle, handleWith. mstep.
  apply String.eqb_neq in Hid.
  destruct (Request_ ctx) as [doc|] eqn:Er;
    [|destruct (DocumentExpected _) eqn:Ee;
      [destruct (Body ctx) as [doc|] eqn:Eb; [|now destruct (Hp Er Ee)]|]];
    mstep; rewrite Hid, Hhex; reflexivity.
Qed.

Lemma handle_rejects_invalid_id_witness :
  let body := Some (blog.document "12" [("title", VString "Hello")]) in
  handle blog.group blog.posts ∅ (blog.incoming (blog.request UpdateResource "12") body)
    (blog.world [] [] [])
  = Abort (BadRequest "invalid resource id") (blog.world [] [] []).
Proof.
  intros body.
  apply handle_rejects_invalid_id; [intros _ _; discriminate | discriminate | reflexivity].
Defined.

(** X3. A request for an operation that the controller does not support
    is rejected with 405 (unsupported operation): no callback runs and
    the world is left as it is. The predicate sees the context with the
    operation of the intent and with the document of the request, when
    one is expected, parsed. *)
Theorem handle_rejects_unsupported (g : Group) (c : Controller) (selector : gmap string Cond)
    (ctx : Context) (w : World) :
  parsed ctx ->
  (ResourceID (JSONAPIRequest ctx) = "" \/ IsHex (ResourceID (JSONAPIRequest ctx)) = true) ->
  Supported c (setOperation (operationOf (Intent_ (JSONAPIRequest ctx))) (received ctx)) = false ->
  handle g c selector ctx w
    = Abort (ErrorFromStatus StatusMethodNotAllowed "unsupported operation") w.
Proof.
  intros Hp Hid Hs. unfold handle, handleWith. unfold received in Hs. mstep.
  assert (Hv : negb (String.eqb (ResourceID (JSONAPIRequest ctx)) "")
               && negb (IsHex (ResourceID (JSONAPIRequest ctx))) = false).
  { destruct Hid as [-> | ->]; [reflexivity|]. apply andb_false_r. }
  destruct (Request_ ctx) as [doc|] eqn:Er;
    [|destruct (DocumentExpected _) eqn:Ee;
      [destruct (Body ctx) as [doc|] eqn:Eb; [|now destruct (Hp Er Ee)]|]];
    mstep; rewrite Hv; mstep; rewrite Hs; reflexivity.
Qed.

Lemma handle_rejects_unsupported_witness :
  let body := Some (blog.document (Hex 1%N) [("title", VString "Hello")]) in
  let w := blog.world [blog.post 1%N "Hello" "c1" "" VNull []] [] [] in
  handle blog.group (blog.readOnly blog.postMeta) ∅
    (blog.incoming (blog.request UpdateResource (Hex 1%N)) body) w
  = Abort (ErrorFromStatus StatusMethodNotAllowed "unsupported operation") w.
Proof.
  intros body w.
  apply handle_rejects_unsupported; [intros _ _; discriminate | right; reflexivity | reflexivity].
Defined.

(** ** Sparse fieldsets *)

Lemma Contains_In list str : Contains list str = true <-> In str list.
Proof.
  unfold Contains. rewrite existsb_exists. split.
  - intros (x & Hin & Heq). apply String.eqb_eq in Heq. now subst.
  - intros H. exists str. split; [exact H | apply String.eqb_refl].
Qed.

Lemma Intersect_In a b x : In x (Intersect a b) <-> In x a /\ In x b.
Proof. unfold Intersect. rewrite filter_In, Contains_In. reflexivity. Qed.

Lemma Forall2_In_r {A B : Type} (R : A -> B -> Prop) l res b :
  Forall2 R l res -> In b res -> exists a, In a l /\ R a b.
Proof.
  induction 1 as [|a b' l res Hab _ IH]; intros Hin; [destruct Hin|].
  destruct Hin as [->|Hin]; [exists a; split; [now left | exact Hab]|].
  destruct (IH Hin) as (a' & Ha & HR). exists a'. split; [now right | exact HR].
Qed.

Lemma Forall2_In_l {A B : Type} (R : A -> B -> Prop) l res a :
  Forall2 R l res -> In a l -> exists b, In b res /\ R a b.
Proof.
  induction 1 as [|a' b l res Hab _ IH]; intros Hin; [destruct Hin|].
  destruct Hin as [->|Hin]; [exists b; split; [now left | exact Hab]|].
  destruct (IH Hin) as (b' & Hb & HR). exists b'. split; [now right | exact HR].
Qed.

(** X4. The initial field list of a request. Without a sparse fieldset it
    is the list of all attributes and relationships. With one, every key
    has to name an attribute or a relationship, or the request is rejected
    with 400 (invalid sparse field) for a key that does not; the list is
    then made of the fields the keys stand for, and of nothing else: it
    never holds a name that is not a field of the model, and never one
    that was not asked for. The context and the world are left alone. *)
Theorem initialFields_sparse (c : Controller) (r : Request) (ctx : Context) (w : World) :
  (requestedFields c r = [] -> initialFields c (Some r) ctx w = Ok (allFields c) ctx w) /\
  initialFields c None ctx w = Ok (allFields c) ctx w /\
  (forall fields ctx' w',
     requestedFields c r <> [] ->
     initialFields c (Some r) ctx w = Ok fields ctx' w' ->
     ctx' = ctx /\ w' = w /\
     Forall (fun key => sparseField c key <> None) (requestedFields c r) /\
     forall name, In name fields <->
       In name (allFields c) /\
       exists key f, In key (requestedFields c r) /\ sparseField c key = Some f /\ Name f = name) /\
  (forall key, In key (requestedFields c r) -> sparseField c key = None ->
     exists bad, In bad (requestedFields c r) /\ sparseField c bad = None /\
       initialFields c (Some r) ctx w
         = Abort (BadRequest ("invalid sparse field " ++ quoted bad)) w).
Proof.
  set (resolve := fun field : string =>
         match Attributes (meta c) field with
         | Some f => mret (Name f)
         | None =>
             match Relationships (meta c) field with
             | Some f => mret (Name f)
             | None => abort (BadRequest ("invalid sparse field " ++ quoted field))
             end
         end : M string).
  assert (Hreads : forall a, reads (resolve a)).
  { intros a. unfold resolve.
    destruct (Attributes (meta c) a); [apply reads_ret|].
    destruct (Relationships (meta c) a); [apply reads_ret | apply reads_abort]. }
  assert (Hres : forall key, resolve key ctx w =
            match sparseField c key with
            | Some f => Ok (Name f) ctx w
            | None => Abort (BadRequest ("invalid sparse field " ++ quoted key)) w
            end).
  { intros key. unfold resolve, sparseField.
    destruct (Attributes (meta c) key); [reflexivity|].
    destruct (Relationships (meta c) key); reflexivity. }
  assert (Hlong : requestedFields c r <> [] ->
            initialFields c (Some r) ctx w
              = (requested ← mapEach resolve (requestedFields c r);
                 mret (Intersect requested (allFields c))) ctx w).
  { intros Hne. unfold initialFields. fold (requestedFields c r). fold (allFields c).
    destruct (requestedFields c r); [congruence | reflexivity]. }
  split; [|split; [|split]].
  - unfold requestedFields, initialFields. intros ->. reflexivity.
  - reflexivity.
  - intros fields ctx' w' Hne H. rewrite (Hlong Hne) in H.
    apply bind_inv_Ok in H as (requested & ctx1 & w1 & Hmap & Hret).
    apply mapEach_reads_Ok in Hmap as (-> & -> & Hall); [|exact Hreads].
    inversion Hret; subst fields ctx' w'. clear Hret.
    split; [reflexivity|]. split; [reflexivity|].
    assert (Hall' : Forall2 (fun key name => exists f, sparseField c key = Some f /\ Name f = name)
                      (requestedFields c r) requested).
    { eapply Forall2_impl; [exact Hall|]. intros key name Hk. cbn beta in Hk.
      rewrite Hres in Hk. destruct (sparseField c key) as [f|]; [|discriminate].
      inversion Hk. now exists f. }
    clear Hall. split.
    + apply List.Forall_forall. intros key Hin.
      destruct (Forall2_In_l _ _ _ _ Hall' Hin) as (name & _ & f & Hf & _). congruence.
    + intros name. rewrite Intersect_In. split.
      * intros [Hin Hlist]. split; [exact Hlist|].
        destruct (Forall2_In_r _ _ _ _ Hall' Hin) as (key & Hk & f & Hf & Hn).
        now exists key, f.
      * intros [Hlist (key & f & Hin & Hf & Hn)]. split; [|exact Hlist].
        destruct (Forall2_In_l _ _ _ _ Hall' Hin) as (name' & Hin' & f' & Hf' & Hn').
        congruence.
  - intros key Hin Hnone.
    assert (Hne : requestedFields c r <> []) by (intros E; rewrite E in Hin; destruct Hin).
    destruct (mapEach_aborts resolve (requestedFields c r) key ctx w
                (BadRequest ("invalid sparse field " ++ quoted key)) Hreads Hin)
      as (bad & e' & Hbad & Hfb & Hrun).
    { rewrite Hres, Hnone. reflexivity. }
    rewrite Hres in Hfb. destruct (sparseField c bad) as [f|] eqn:Eb; [discriminate|].
    inversion Hfb; subst e'.
    exists bad. split; [exact Hbad|]. split; [exact Eb|].
    rewrite (Hlong Hne). now rewrite (bind_Abort _ _ _ _ _ _ Hrun).
Qed.

Lemma initialFields_sparse_witness :
  let ctx := blog.incoming (blog.request FindResource (Hex 1%N)) None in
  let w := blog.world [] [] [] in
  exists bad,
    In bad ["title"; "author"] /\
    initialFields blog.posts (Some (blog.sparseRequest ["title"; "author"])) ctx w
      = Abort (BadRequest ("invalid sparse field " ++ quoted bad)) w.
Proof.
  intros ctx w.
  destruct (initialFields_sparse blog.posts (blog.sparseRequest ["title"; "author"]) ctx w)
    as (_ & _ & _ & H).
  destruct (H "author") as (bad & Hin & _ & Hrun); [right; now left | reflexivity |].
  exists bad. split; [exact Hin | exact Hrun].
Defined.

(** The title and the comments of a post are asked for: the response has
    the title as its one attribute and the comments as its one
    relationship. *)
Example sparse_fieldset :
  let w := blog.world [blog.post 1%N "Hello" "c1" "" VNull []] [] [] in
  let found := handle blog.group blog.posts ∅
                 (blog.incoming (blog.sparseRequest ["title"; "comments"]) None) w in
  match found with
  | Ok _ ctx _ =>
      (fun one => (List.map fst (RAttributes one), List.map fst (RRelationships one)))
        <$> ((Response ctx ≫= Data) ≫= One)
  | Abort _ _ => None
  end = Some (["title"], ["comments"]).
Proof. vm_compute. reflexivity. Qed.

(** ** The load of a list *)

Lemma forEach_Ok_inv {A : Type} (P : Context -> World -> Prop) (Q : A -> Prop)
    (f : A -> M unit) (l : list A) :
  (forall x c1 w1 c2 w2, In x l -> P c1 w1 -> f x c1 w1 = Ok tt c2 w2 -> P c2 w2 /\ Q x) ->
  forall ctx w ctx' w',
    P ctx w -> forEach f l ctx w = Ok tt ctx' w' -> P ctx' w' /\ Forall Q l.
Proof.
  induction l as [|x l IH]; intros Hf ctx w ctx' w' HP H.
  - cbn in H. inversion H; subst. split; [exact HP | constructor].
  - cbn [forEach] in H. apply bind_inv_Ok in H as ([] & c1 & w1 & H1 & H2).
    destruct (Hf x ctx w c1 w1 (or_introl eq_refl) HP H1) as [HP1 HQ].
    destruct (IH (fun y a b d e Hy => Hf y a b d e (or_intror Hy)) _ _ _ _ HP1 H2) as [HP' HQs].
    split; [exact HP' | now constructor].
Qed.

Lemma parseID_Ok detail str id ctx w ctx' w' :
  parseID detail str ctx w = Ok id ctx' w' -> FromHex str = Some id.
Proof. unfold parseID. destruct (FromHex str); intros H; inversion H; reflexivity. Qed.

(** The stages of [loadModels]. *)
Lemma loadModels_inv c ctx w ctx' w' :
  loadModels c ctx w = Ok tt ctx' w' ->
  Forall (validFilter c) (ReqFilters (JSONAPIRequest ctx)) /\
  Forall (validSorter c) (ReqSorting (JSONAPIRequest ctx)) /\
  exists ctx5 ctx6 w6 models,
    JSONAPIRequest ctx5 = limited c (JSONAPIRequest ctx) /\
    Transaction ctx5 = Transaction ctx /\
    Operation_ ctx5 = Operation_ ctx /\
    (if SoftDelete c
     then exists field key,
            L (meta c) "fire-soft-delete" = Some field /\ F (meta c) field = Some key /\
            Selector ctx5 = <[key := CEq VNull]> (Selector ctx)
     else Selector ctx5 = Selector ctx) /\
    (exists fs, Filters ctx5 = (Filters ctx ++ fs)%list) /\
    runCallbacks (Authorizers c) StatusUnauthorized ctx5 w = Ok tt ctx6 w6 /\
    (let r := JSONAPIRequest ctx6 in
     let paginate := (0 <? PageNumber r) && (0 <? PageSize r) in
     FindAll (Transaction ctx6) (meta c) (Query_ ctx6) (Sorting ctx6)
       (if paginate then int64 ((PageNumber r - 1) * PageSize r) else 0)
       (if paginate then PageSize r else 0) false w6 = inr (models, w')) /\
    ctx' = setModels models ctx6.
Proof.
  intros H. unfold loadModels in H.
  apply bind_inv_Ok in H as ([] & ctx1 & w1 & H1 & H).
  assert (Hs1 : w1 = w /\ JSONAPIRequest ctx1 = JSONAPIRequest ctx /\
                Transaction ctx1 = Transaction ctx /\ Operation_ ctx1 = Operation_ ctx /\
                Filters ctx1 = Filters ctx /\
                if SoftDelete c
                then exists field key,
                       L (meta c) "fire-soft-delete" = Some field /\
                       F (meta c) field = Some key /\
                       Selector ctx1 = <[key := CEq VNull]> (Selector ctx)
                else Selector ctx1 = Selector ctx).
  { destruct (SoftDelete c); cbn [when] in H1.
    - unfold flagged in H1. destruct (L (meta c) "fire-soft-delete") as [field|] eqn:EL;
        [|discriminate]. mstep_in H1.
      unfold bsonKey in H1. destruct (F (meta c) field) as [key|] eqn:EF; [|discriminate].
      mstep_in H1. inversion H1; subst. repeat split. now exists field, key.
    - inversion H1; subst. repeat split. }
  clear H1. destruct Hs1 as (-> & Hr1 & Ht1 & Ho1 & Hf1 & Hsel1).
  apply bind_inv_Ok in H as (ctx0 & ctx2 & w2 & H2 & H).
  unfold getCtx in H2. inversion H2; subst ctx0 ctx2 w2. clear H2.
  set (P := fun (x : Context) (v : World) =>
              v = w /\ JSONAPIRequest x = JSONAPIRequest ctx1 /\
              Transaction x = Transaction ctx1 /\ Operation_ x = Operation_ ctx1 /\
              Selector x = Selector ctx1 /\
              exists fs, Filters x = (Filters ctx1 ++ fs)%list).
  assert (HP1 : P ctx1 w).
  { repeat split. exists []. now rewrite app_nil_r. }
  apply bind_inv_Ok in H as ([] & ctx3 & w3 & H3 & H).
  apply (forEach_Ok_inv P (validFilter c)) in H3 as [HP3 Hfilters]; [| |exact HP1].
  2:{ intros [name values] ca wa cb wb _ (-> & Hra & Hta & Hoa & Hsa & fs & Hfa) Hb.
      unfold validFilter. cbn [fst snd].
      assert (Hadd : forall m, addFilter m ca w = Ok tt cb wb -> P cb wb).
      { intros m Hm. inversion Hm; subst. repeat split; try assumption.
        exists (fs ++ [m])%list. cbn. rewrite Hfa. now rewrite app_assoc. }
      destruct (Attributes (meta c) name) as [f|].
      - destruct (Contains (CFilters c) (Name f)); [|discriminate]. cbn [negb] in Hb.
        split; [|reflexivity].
        destruct (bool_decide (Type_ f = TBool) && (length values =? 1)%nat);
          eapply Hadd; exact Hb.
      - destruct (Relationships (meta c) name) as [f|]; [|discriminate].
        destruct (ToOne f) eqn:E1, (ToMany f) eqn:E2,
          (Contains (CFilters c) (Name f)) eqn:E3; try discriminate;
          cbn [negb andb orb] in Hb;
          apply bind_inv_Ok in Hb as (ids & c1 & w1' & Hm & Ha);
          apply mapEach_reads_Ok in Hm as (-> & -> & Hids);
          try (intros a; apply reads_parseID);
          (split; [eapply Hadd; exact Ha|]);
          (split; [auto|]); (split; [reflexivity|]);
          apply List.Forall_forall; intros value Hv;
          destruct (Forall2_In_l _ _ _ _ Hids Hv) as (id & _ & Hid);
          apply parseID_Ok in Hid; unfold IsHex; now rewrite Hid. }
  destruct HP3 as (-> & Hr3 & Ht3 & Ho3 & Hs3 & fs & Hf3).
  set (P' := fun (x : Context) (v : World) =>
               v = w /\ JSONAPIRequest x = JSONAPIRequest ctx1 /\
               Transaction x = Transaction ctx1 /\ Operation_ x = Operation_ ctx1 /\
               Selector x = Selector ctx1 /\
               Filters x = Filters ctx3).
  apply bind_inv_Ok in H as ([] & ctx4 & w4 & H4 & H).
  apply (forEach_Ok_inv P' (validSorter c)) in H4 as [HP4 Hsorters];
    [| |repeat split; assumption].
  2:{ intros sorter ca wa cb wb _ (-> & Hra & Hta & Hoa & Hsa & Hfa) Hb.
      unfold validSorter.
      destruct (Attributes (meta c) (TrimPrefix sorter "-")) as [f|]; [|discriminate].
      destruct (Contains (Sorters c) (Name f)) eqn:E; [|discriminate]. cbn [negb] in Hb.
      split; [|now exists f].
      destruct (String.prefix "-" sorter); inversion Hb; subst; repeat split; assumption. }
  destruct HP4 as (-> & Hr4 & Ht4 & Ho4 & Hs4 & Hf4).
  apply bind_inv_Ok in H as ([] & ctx5 & w5 & H5 & H).
  unfold modifyCtx in H5. inversion H5; subst w5. clear H5.
  rename H1 into E5.
  apply bind_inv_Ok in H as ([] & ctx6 & w6 & H6 & H).
  apply bind_inv_Ok in H as (ctx0 & ctx7 & w7 & H7 & H).
  unfold getCtx in H7. inversion H7; subst ctx0 ctx7 w7. clear H7.
  cbn zeta in H.
  apply bind_inv_Ok in H as (res & ctx8 & w8 & H8 & H).
  unfold call in H8.
  destruct (FindAll _ _ _ _ _ _ _ _) as [e|[models w9]] eqn:EF;
    inversion H8; subst res ctx8 w8; [discriminate|]. clear H8.
  cbn [abortIf] in H. mstep_in H. inversion H; subst ctx' w'. clear H.
  rewrite Hr1 in *.
  split; [exact Hfilters|]. split; [exact Hsorters|].
  exists ctx5, ctx6, w6, models.
  assert (E5' : ctx5 = if (0 <? ListLimit c) &&
                           ((PageSize (JSONAPIRequest ctx4) =? 0) ||
                            (ListLimit c <? PageSize (JSONAPIRequest ctx4)))
                        then setJSONAPIRequest
                               (setPage (if PageNumber (JSONAPIRequest ctx4) =? 0 then 1
                                         else PageNumber (JSONAPIRequest ctx4))
                                  (ListLimit c) (JSONAPIRequest ctx4)) ctx4
                        else ctx4) by (symmetry; exact E5).
  clear E5. rewrite Hr4 in E5'.
  set (over := (0 <? ListLimit c) &&
               ((PageSize (JSONAPIRequest ctx) =? 0) ||
                (ListLimit c <? PageSize (JSONAPIRequest ctx)))) in *.
  assert (Hr5 : JSONAPIRequest ctx5 = limited c (JSONAPIRequest ctx)).
  { unfold limited. fold over. rewrite E5'. destruct over; [reflexivity | exact Hr4]. }
  assert (Ht5 : Transaction ctx5 = Transaction ctx).
  { rewrite E5'. destruct over; cbn; congruence. }
  assert (Ho5 : Operation_ ctx5 = Operation_ ctx).
  { rewrite E5'. destruct over; cbn; congruence. }
  assert (Hs5 : Selector ctx5 = Selector ctx1).
  { rewrite E5'. destruct over; cbn; congruence. }
  assert (Hf5 : Filters ctx5 = Filters ctx4).
  { rewrite E5'. destruct over; reflexivity. }
  split; [exact Hr5|]. split; [exact Ht5|]. split; [exact Ho5|].
  split; [rewrite Hs5; exact Hsel1|].
  split; [exists fs; congruence|].
  split; [|split].
  - exact H6.
  - exact EF.
  - reflexivity.
Qed.

(** X5. A list is loaded only when every filter of the request names a
    filterable attribute or a filterable to-one or to-many relationship
    (with object ids as values) and every sorter names a sortable
    attribute. A request whose first filter (the first that the loop
    visits) names neither an attribute nor a relationship is rejected with
    400 (invalid filter), and a request without filters whose first sorter
    names no attribute with 400 (invalid sorter); no authorizer has run
    then and the world is as it was. (The controller is one without soft
    delete.) *)
Theorem loadModels_validates (c : Controller) (ctx : Context) (w : World) :
  (forall ctx' w',
     loadModels c ctx w = Ok tt ctx' w' ->
     Forall (validFilter c) (ReqFilters (JSONAPIRequest ctx)) /\
     Forall (validSorter c) (ReqSorting (JSONAPIRequest ctx))) /\
  (forall name values rest,
     SoftDelete c = false ->
     ReqFilters (JSONAPIRequest ctx) = (name, values) :: rest ->
     Attributes (meta c) name = None -> Relationships (meta c) name = None ->
     loadModels c ctx w = Abort (BadRequest ("invalid filter " ++ quoted name)) w) /\
  (forall sorter rest,
     SoftDelete c = false ->
     ReqFilters (JSONAPIRequest ctx) = [] ->
     ReqSorting (JSONAPIRequest ctx) = sorter :: rest ->
     Attributes (meta c) (TrimPrefix sorter "-") = None ->
     loadModels c ctx w
       = Abort (BadRequest ("invalid sorter " ++ quoted (TrimPrefix sorter "-"))) w).
Proof.
  split; [|split].
  - intros ctx' w' H. apply loadModels_inv in H as (Hf & Hs & _). now split.
  - intros name values rest Hsd Hreq Ha Hr. unfold loadModels. rewrite Hsd.
    cbn [when]. mstep. rewrite Hreq. cbn [forEach]. mstep. now rewrite Ha, Hr.
  - intros sorter rest Hsd Hreq Hsort Ha. unfold loadModels. rewrite Hsd.
    cbn [when]. mstep. rewrite Hreq, Hsort. cbn [forEach]. mstep. now rewrite Ha.
Qed.

Lemma loadModels_validates_witness :
  let ctx := blog.incoming (blog.filterRequest [("author", ["x"])] []) None in
  let w := blog.world [] [] [] in
  loadModels blog.plainPosts ctx w = Abort (BadRequest ("invalid filter " ++ quoted "author")) w.
Proof.
  intros ctx w.
  destruct (loadModels_validates blog.plainPosts ctx w) as (_ & H & _).
  now apply (H "author" ["x"] []).
Defined.

Lemma page_length skip limit (ds : list Model) :
  0 < limit -> Z.of_nat (length (page skip limit ds)) <= limit.
Proof.
  intros H. unfold page.
  replace (0 <? limit) with true by (symmetry; apply Z.ltb_lt; lia).
  pose proof (List.firstn_le_length (Z.to_nat limit)
                (if 0 <? skip then List.skipn (Z.to_nat skip) ds else ds)).
  lia.
Qed.

(** X6. With a list limit, a List loads at most that many models, unless
    the request carries a page size within the limit and no page number:
    the limit is applied to a request without a page size or with one
    above the limit, and that request is then paginated. (Page number and
    page size are not negative, and the authorizers leave the request as
    it is.) *)
Theorem list_limit_bounds (c : Controller) (ctx : Context) (w : World)
    (ctx' : Context) (w' : World) :
  let r := JSONAPIRequest ctx in
  0 < ListLimit c -> 0 <= PageNumber r -> 0 <= PageSize r ->
  (PageNumber r = 0 -> PageSize r = 0 \/ ListLimit c < PageSize r) ->
  keepRequest (Authorizers c) ->
  loadModels c ctx w = Ok tt ctx' w' ->
  Z.of_nat (length (Models ctx')) <= ListLimit c.
Proof.
  intros r Hlimit Hnumber Hsize Hpage Hkeep H.
  apply loadModels_inv in H
    as (_ & _ & ctx5 & ctx6 & w6 & models & Hr5 & _ & _ & _ & _ & Hauth & Hfind & ->).
  assert (Hr6 : JSONAPIRequest ctx6 = limited c r).
  { apply (runCallbacks_invariant (fun x _ => JSONAPIRequest x = limited c r) _ _
             ltac:(intros cb Hin ca wa cb' wb HP Hcb; cbn beta in *;
                   rewrite (Hkeep cb Hin ca wa cb' wb Hcb); exact HP)
             _ _ _ _ Hr5 Hauth). }
  cbn zeta in Hfind. rewrite Hr6 in Hfind. cbn [Models setModels].
  unfold FindAll in Hfind. destruct (negb (Transaction ctx6)); [discriminate|].
  cbn [andb] in Hfind. inversion Hfind; subst models w'. clear Hfind.
  assert (Hlim : 0 < PageNumber (limited c r) /\ 0 < PageSize (limited c r) <= ListLimit c).
  { unfold limited.
    destruct (Z.ltb_spec 0 (ListLimit c)); [|lia]. cbn [andb].
    destruct (Z.eqb_spec (PageSize r) 0) as [E0|E0]; cbn [orb].
    - cbn. destruct (Z.eqb_spec (PageNumber r) 0); lia.
    - destruct (Z.ltb_spec (ListLimit c) (PageSize r)).
      + cbn. destruct (Z.eqb_spec (PageNumber r) 0); lia.
      + lia. }
  destruct Hlim as (Hn & Hs & Hle).
  replace (0 <? PageNumber (limited c r)) with true by (symmetry; apply Z.ltb_lt; lia).
  replace (0 <? PageSize (limited c r)) with true by (symmetry; apply Z.ltb_lt; lia).
  cbn [andb].
  etransitivity; [apply page_length; exact Hs | exact Hle].
Qed.

Lemma list_limit_bounds_witness :
  let three := List.map (fun id => blog.post id "Hello" "" "" VNull []) [1; 2; 3]%N in
  let ctx := setTransaction true (blog.incoming (blog.pageRequest 0 0) None) in
  let w := blog.world three [] [] in
  match loadModels (blog.limitedPosts 2) ctx w with
  | Ok _ ctx' _ => Z.of_nat (length (Models ctx')) <= 2
  | Abort _ _ => False
  end.
Proof.
  intros three ctx w.
  destruct (loadModels (blog.limitedPosts 2) ctx w) as [[] ctx' w'|e w'] eqn:E;
    [|vm_compute in E; discriminate].
  refine (list_limit_bounds (blog.limitedPosts 2) ctx w ctx' w' _ _ _ _ _ E).
  - reflexivity.
  - discriminate.
  - discriminate.
  - intros _. left. reflexivity.
  - intros cb [].
Defined.

(** A page size within the limit and no page number: the three posts are
    all listed, the limit of two notwithstanding. *)
Example list_limit_escape :
  let three := List.map (fun id => blog.post id "Hello" "" "" VNull []) [1; 2; 3]%N in
  let ctx := setTransaction true (blog.incoming (blog.pageRequest 0 1) None) in
  match loadModels (blog.limitedPosts 2) ctx (blog.world three [] []) with
  | Ok _ ctx' _ => length (Models ctx')
  | Abort _ _ => 0%nat
  end = 3%nat.
Proof. vm_compute. reflexivity. Qed.

(** A negative page number is kept when the limit is applied, and the
    request is then not paginated: the three posts are all listed, the
    limit of two notwithstanding. *)
Example list_limit_negative_page :
  let three := List.map (fun id => blog.post id "Hello" "" "" VNull []) [1; 2; 3]%N in
  let ctx := setTransaction true (blog.incoming (blog.pageRequest (-1) 0) None) in
  match loadModels (blog.limitedPosts 2) ctx (blog.world three [] []) with
  | Ok _ ctx' _ => length (Models ctx')
  | Abort _ _ => 0%nat
  end = 3%nat.
Proof. vm_compute. reflexivity. Qed.

(** ** Appending to and removing from a relationship: the loops *)

Lemma coalContains_In ids x : coal.Contains ids x = true <-> In x ids.
Proof.
  induction ids as [|id ids IH]; cbn; [split; [discriminate | tauto]|].
  destruct (N.eqb_spec id x) as [->|Hne]; [split; auto|].
  rewrite IH. split; [auto | intros [H|H]; [contradiction | exact H]].
Qed.

Lemma coalContains_not_In ids x : coal.Contains ids x = false <-> ~ In x ids.
Proof.
  rewrite <- coalContains_In. destruct (coal.Contains ids x); split; congruence.
Qed.

(** X7. Appending the references of a document to a to-many relationship
    (the loop of [appendToRelationship]): the ids the model has stay where
    they are, and the requested ids that it does not have are added
    behind them, each once. No other id is added, and a list without
    duplicates stays without. *)
Theorem append_loop (rel : Field) (refs : list Resource) (xs : list ID)
    (ctx : Context) (w : World) (model : Model) (ids : list ID) :
  Model_ ctx = Some model -> Get model (Name rel) = Some (VIDs ids) ->
  refer rel refs xs ->
  exists added ctx',
    forEach (appendReference rel) refs ctx w = Ok tt ctx' w /\
    fieldOf (Name rel) ctx' = Some (VIDs (ids ++ added)) /\
    List.NoDup added /\
    (forall x, In x added <-> In x xs /\ ~ In x ids) /\
    (List.NoDup ids -> List.NoDup (ids ++ added)).
Proof.
  intros Hm Hg Href. revert ctx model ids Hm Hg.
  induction Href as [|ref x refs xs [Ht Hx] _ IH]; intros ctx model ids Hm Hg.
  - exists [], ctx. split; [reflexivity|]. rewrite app_nil_r.
    split; [unfold fieldOf; rewrite Hm; exact Hg|].
    split; [constructor|]. split; [|trivial]. intros x. cbn. tauto.
  - cbn [forEach].
    pose proof (appendReference_run rel ref ctx w model ids x Hm Hg Ht Hx) as Hstep.
    destruct (coal.Contains ids x) eqn:Ec.
    + apply coalContains_In in Ec.
      destruct (IH ctx model ids Hm Hg) as (added & ctx' & Hrun & Hf & Hnd & Hin & Hk).
      exists added, ctx'. rewrite (bind_Ok _ _ _ _ _ _ _ Hstep).
      split; [exact Hrun|]. split; [exact Hf|]. split; [exact Hnd|]. split; [|exact Hk].
      intros y. rewrite Hin. cbn. split; [tauto|].
      intros [[->|Hy] Hn]; [contradiction | tauto].
    + apply coalContains_not_In in Ec.
      destruct (IH (setModel (Some (Set_ model (Name rel) (VIDs (ids ++ [x])))) ctx)
                  (Set_ model (Name rel) (VIDs (ids ++ [x]))) (ids ++ [x])%list
                  eq_refl (Get_Set_eq _ _ _))
        as (added & ctx' & Hrun & Hf & Hnd & Hin & Hk).
      exists (x :: added), ctx'. rewrite (bind_Ok _ _ _ _ _ _ _ Hstep).
      split; [exact Hrun|].
      replace (ids ++ x :: added)%list with ((ids ++ [x]) ++ added)%list
        by (rewrite <- app_assoc; reflexivity).
      split; [exact Hf|].
      assert (Hx' : ~ In x added).
      { intros H. apply Hin in H as [_ H]. apply H. apply in_or_app. right. now left. }
      split; [now constructor|]. split.
      * intros y. cbn. rewrite Hin. rewrite in_app_iff. cbn. split.
        -- intros [<-|[Hy Hn]]; [tauto|]. split; [tauto|]. tauto.
        -- intros [[<-|Hy] Hn]; [tauto|].
           destruct (N.eq_dec x y) as [->|Hne]; [tauto|]. right. split; [exact Hy|].
           intros [H|[H|[]]]; tauto.
      * intros Hids. apply Hk. apply List.NoDup_app; [exact Hids | |].
        -- constructor; [intros [] | constructor].
        -- intros y Hy [<-|[]]. contradiction.
Qed.

Lemma append_loop_witness :
  let model := blog.post 1%N "Hello" "c1" "" VNull [2; 3]%N in
  let ctx := setModel (Some model)
               (blog.incoming (blog.relationshipRequest AppendToRelationship (Hex 1%N) "related")
                  None) in
  let rel := blog.toMany "Related" "related_ids" "related" "posts" in
  let refs := List.map (reference "posts") [3; 4; 4]%N in
  exists added ctx',
    forEach (appendReference rel) refs ctx (blog.world [model] [] []) = Ok tt ctx' (blog.world [model] [] []) /\
    fieldOf "Related" ctx' = Some (VIDs ([2; 3]%N ++ added)) /\
    (forall x, In x added <-> In x [3; 4; 4]%N /\ ~ In x [2; 3]%N).
Proof.
  intros model ctx rel refs.
  destruct (append_loop rel refs [3; 4; 4]%N ctx (blog.world [model] [] []) model [2; 3]%N)
    as (added & ctx' & Hrun & Hf & _ & Hin & _); try reflexivity.
  - repeat constructor.
  - exists added, ctx'. split; [exact Hrun|]. split; [exact Hf | exact Hin].
Defined.

Lemma markPosition_app a b x i pos :
  markPosition (a ++ b) x i pos
    = markPosition b x (i + Z.of_nat (length a)) (markPosition a x i pos).
Proof.
  revert i pos. induction a as [|y a IH]; intros i pos; cbn [app markPosition length].
  - f_equal. lia.
  - rewrite IH. f_equal. lia.
Qed.

Lemma markPosition_last pre post x :
  ~ In x post -> markPosition (pre ++ x :: post) x 0 (-1) = Z.of_nat (length pre).
Proof.
  intros H. rewrite markPosition_app. cbn [markPosition]. rewrite N.eqb_refl.
  apply markPosition_absent. now apply coalContains_not_In.
Qed.

Lemma removeAt_middle pre post x :
  removeAt (pre ++ x :: post) (Z.of_nat (length pre)) = (pre ++ post)%list.
Proof.
  unfold removeAt. rewrite Nat2Z.id.
  replace (Z.to_nat (Z.of_nat (length pre) + 1)) with (length pre + 1)%nat by lia.
  rewrite List.firstn_app, Nat.sub_diag, List.firstn_all. cbn [List.firstn].
  rewrite app_nil_r. f_equal.
  rewrite List.skipn_app, List.skipn_all2 by lia.
  replace (length pre + 1 - length pre)%nat with 1%nat by lia. reflexivity.
Qed.

Lemma filter_absent (x : ID) ids :
  ~ In x ids -> List.filter (fun y => negb (N.eqb y x)) ids = ids.
Proof.
  induction ids as [|y ids IH]; intros H; cbn; [reflexivity|].
  destruct (N.eqb_spec y x) as [->|Hne]; [exfalso; apply H; now left|].
  cbn. f_equal. apply IH. intros Hin. apply H. now right.
Qed.

(** X8. Removing a reference from a to-many relationship (the loop body
    of [removeFromRelationship]) removes the last occurrence of the id and
    nothing else: the ids before it and after it stay in their order, and
    an earlier occurrence of the same id stays as well. On a list without
    duplicates the loop over the references of a document leaves exactly
    the ids that the document does not name. *)
Theorem remove_loop (rel : Field) :
  (forall ref x ctx w model pre post,
     Model_ ctx = Some model ->
     Get model (Name rel) = Some (VIDs (pre ++ x :: post)) ->
     RType ref = RelType rel -> FromHex (RID ref) = Some x ->
     ~ In x post ->
     removeReference rel ref ctx w
       = Ok tt (setModel (Some (Set_ model (Name rel) (VIDs (pre ++ post)))) ctx) w) /\
  (forall refs xs ctx w model ids,
     Model_ ctx = Some model -> Get model (Name rel) = Some (VIDs ids) ->
     refer rel refs xs -> List.NoDup ids ->
     exists ctx',
       forEach (removeReference rel) refs ctx w = Ok tt ctx' w /\
       fieldOf (Name rel) ctx'
         = Some (VIDs (List.filter (fun y => negb (coal.Contains xs y)) ids))).
Proof.
  assert (Hstep : forall ref x ctx w model pre post,
     Model_ ctx = Some model ->
     Get model (Name rel) = Some (VIDs (pre ++ x :: post)) ->
     RType ref = RelType rel -> FromHex (RID ref) = Some x ->
     ~ In x post ->
     removeReference rel ref ctx w
       = Ok tt (setModel (Some (Set_ model (Name rel) (VIDs (pre ++ post)))) ctx) w).
  { intros ref x ctx w model pre post Hm Hg Ht Hx Hpost.
    rewrite (removeReference_run rel ref ctx w model _ x Hm Hg Ht Hx). cbn zeta.
    rewrite (markPosition_last pre post x Hpost).
    replace (0 <=? Z.of_nat (length pre)) with true by (symmetry; apply Z.leb_le; lia).
    now rewrite removeAt_middle. }
  split; [exact Hstep|].
  intros refs xs ctx w model ids Hm Hg Href. revert ctx model ids Hm Hg.
  induction Href as [|ref x refs xs [Ht Hx] _ IH]; intros ctx model ids Hm Hg Hnd.
  - exists ctx. split; [reflexivity|]. unfold fieldOf. rewrite Hm. cbn.
    rewrite Hg. do 2 f_equal. clear. induction ids as [|y ids IHi]; [reflexivity|].
    cbn. now f_equal.
  - cbn [forEach].
    assert (Hfilter : forall l : list ID,
              List.filter (fun y => negb (coal.Contains (x :: xs) y)) l
              = List.filter (fun y => negb (coal.Contains xs y))
                  (List.filter (fun y => negb (N.eqb y x)) l)).
    { induction l as [|y l IHl]; [reflexivity|]. cbn [List.filter].
      change (coal.Contains (x :: xs) y)
        with (if N.eqb x y then true else coal.Contains xs y).
      rewrite (N.eqb_sym x y), IHl.
      destruct (N.eqb y x); cbn [negb List.filter]; [reflexivity|].
      now destruct (coal.Contains xs y). }
    rewrite Hfilter.
    destruct (in_dec N.eq_dec x ids) as [Hin|Hout].
    + apply in_split in Hin as (pre & post & ->).
      pose proof (List.NoDup_remove_2 _ _ _ Hnd) as Hx'.
      rewrite in_app_iff in Hx'.
      rewrite (bind_Ok _ _ _ _ _ _ _
                 (Hstep ref x ctx w model pre post Hm Hg Ht Hx ltac:(tauto))).
      destruct (IH (setModel (Some (Set_ model (Name rel) (VIDs (pre ++ post)))) ctx)
                  (Set_ model (Name rel) (VIDs (pre ++ post))) (pre ++ post)%list
                  eq_refl (Get_Set_eq _ _ _) (List.NoDup_remove_1 _ _ _ Hnd))
        as (ctx' & Hrun & Hf).
      exists ctx'. split; [exact Hrun|]. rewrite Hf. do 3 f_equal.
      rewrite List.filter_app. cbn [List.filter]. rewrite N.eqb_refl. cbn [negb].
      rewrite <- List.filter_app. symmetry. apply filter_absent.
      rewrite in_app_iff. tauto.
    + assert (E : removeReference rel ref ctx w = Ok tt ctx w).
      { rewrite (removeReference_run rel ref ctx w model ids x Hm Hg Ht Hx). cbn zeta.
        rewrite (markPosition_absent ids x 0 (-1)) by now apply coalContains_not_In.
        reflexivity. }
      destruct (IH ctx model ids Hm Hg Hnd) as (ctx' & Hrun & Hf).
      exists ctx'. rewrite (bind_Ok _ _ _ _ _ _ _ E).
      split; [exact Hrun|]. rewrite Hf. do 3 f_equal. symmetry. now apply filter_absent.
Qed.

Lemma remove_loop_witness :
  let model := blog.post 1%N "Hello" "c1" "" VNull [2; 3; 2]%N in
  let ctx := setModel (Some model)
               (blog.incoming (blog.relationshipRequest RemoveFromRelationship (Hex 1%N) "related")
                  None) in
  let rel := blog.toMany "Related" "related_ids" "related" "posts" in
  let w := blog.world [model] [] [] in
  removeReference rel (reference "posts" 2%N) ctx w
    = Ok tt (setModel (Some (Set_ model "Related" (VIDs [2; 3]%N))) ctx) w.
Proof.
  intros model ctx rel w.
  destruct (remove_loop rel) as [Hstep _].
  exact (Hstep (reference "posts" 2%N) 2%N ctx w model [2; 3]%N [] eq_refl eq_refl eq_refl
           eq_refl (fun H => H)).
Defined.

(** ** The document of a create and of an update *)

(** X9. The document of a create and of an update is checked before
    anything else happens. A create or an update that succeeds had a
    document with one resource of the type of the request, without an id
    for a create and with the id of the request for an update. A document
    without a resource is rejected with 400 (missing document), one of
    another type with 400 (resource type mismatch), a create that names an
    id with 400 (unnecessary resource id) and an update that names another
    id with 400 (resource id mismatch): no callback has run then and the
    world is as it was. *)
Theorem document_checked (g : Group) (c : Controller) (ctx : Context) (w : World) :
  (forall ctx' w', createResource g c ctx w = Ok tt ctx' w' ->
     exists doc one,
       Request_ ctx = Some doc /\ Data doc ≫= One = Some one /\
       RType one = ResourceType (JSONAPIRequest ctx) /\ RID one = "") /\
  (forall ctx' w', updateResource g c ctx w = Ok tt ctx' w' ->
     exists doc one,
       Request_ ctx = Some doc /\ Data doc ≫= One = Some one /\
       RType one = ResourceType (JSONAPIRequest ctx) /\
       RID one = ResourceID (JSONAPIRequest ctx)) /\
  (forall doc, Request_ ctx = Some doc -> Data doc ≫= One = None ->
     createResource g c ctx w = Abort (BadRequest "missing document") w /\
     updateResource g c ctx w = Abort (BadRequest "missing document") w) /\
  (forall doc one, Request_ ctx = Some doc -> Data doc ≫= One = Some one ->
     RType one <> ResourceType (JSONAPIRequest ctx) ->
     createResource g c ctx w = Abort (BadRequest "resource type mismatch") w /\
     updateResource g c ctx w = Abort (BadRequest "resource type mismatch") w) /\
  (forall doc one, Request_ ctx = Some doc -> Data doc ≫= One = Some one ->
     RType one = ResourceType (JSONAPIRequest ctx) ->
     (RID one <> "" ->
      createResource g c ctx w = Abort (BadRequest "unnecessary resource id") w) /\
     (RID one <> ResourceID (JSONAPIRequest ctx) ->
      updateResource g c ctx w = Abort (BadRequest "resource id mismatch") w)).
Proof.
  split; [|split; [|split; [|split]]].
  - intros ctx' w' H. unfold createResource in H.
    apply bind_inv_Ok in H as (one & ctx1 & w1 & H1 & H).
    apply requestResource_inv in H1 as (-> & -> & doc & Hd & Ho).
    exists doc, one. split; [exact Hd|]. split; [exact Ho|]. mstep_in H.
    destruct (String.eqb_spec (RType one) (ResourceType (JSONAPIRequest ctx)));
      [|discriminate]. cbn [negb] in H. cbn beta iota in H.
    destruct (String.eqb_spec (RID one) ""); [|discriminate]. now split.
  - intros ctx' w' H. unfold updateResource in H.
    apply bind_inv_Ok in H as (one & ctx1 & w1 & H1 & H).
    apply requestResource_inv in H1 as (-> & -> & doc & Hd & Ho).
    exists doc, one. split; [exact Hd|]. split; [exact Ho|]. mstep_in H.
    destruct (String.eqb_spec (RType one) (ResourceType (JSONAPIRequest ctx)));
      [|discriminate]. cbn [negb] in H. cbn beta iota in H.
    destruct (String.eqb_spec (RID one) (ResourceID (JSONAPIRequest ctx))); [|discriminate].
    now split.
  - intros doc Hd Ho. pose proof (requestResource_run ctx w doc Hd) as Hr.
    rewrite Ho in Hr. unfold createResource, updateResource.
    now rewrite !(bind_Abort _ _ _ _ _ _ Hr).
  - intros doc one Hd Ho Ht. pose proof (requestResource_run ctx w doc Hd) as Hr.
    rewrite Ho in Hr. apply String.eqb_neq in Ht. unfold createResource, updateResource.
    rewrite !(bind_Ok _ _ _ _ _ _ _ Hr). mstep. now rewrite Ht.
  - intros doc one Hd Ho Ht. pose proof (requestResource_run ctx w doc Hd) as Hr.
    rewrite Ho in Hr. apply String.eqb_eq in Ht. unfold createResource, updateResource.
    rewrite !(bind_Ok _ _ _ _ _ _ _ Hr). mstep. rewrite Ht. cbn [negb]. cbn beta iota.
    split; intros Hid; apply String.eqb_neq in Hid; now rewrite Hid.
Qed.

(** A client-generated id is refused, and nothing is stored. *)
Example create_with_id :
  let body := Some (blog.document (Hex 7%N) [("title", VString "Hello")]) in
  let ctx := blog.incoming (blog.request CreateResource "") body in
  let w := blog.world [] [] [] in
  handle blog.group blog.plainPosts ∅ ctx w
    = Abort (BadRequest "unnecessary resource id") w.
Proof. vm_compute. reflexivity. Qed.

(** ** The kinds of relationships that can be changed *)

Lemma loadModel_writable c ctx w ctx' w' :
  keepWritable (Authorizers c) ->
  loadModel c ctx w = Ok tt ctx' w' -> WritableFields ctx' = WritableFields ctx.
Proof.
  intros Hkeep H.
  apply loadModel_inv in H as (id & sel & ctx1 & w1 & model & _ & _ & Hauth & _ & ->).
  assert (H1 : WritableFields ctx1 = WritableFields ctx).
  { apply (runCallbacks_invariant (fun x _ => WritableFields x = WritableFields ctx) _ _
             ltac:(intros cb Hin ca wa cb' wb HP Hcb; cbn beta in *;
                   rewrite (Hkeep cb Hin ca wa cb' wb Hcb); exact HP)
             (setSelector sel ctx) _ _ _ eq_refl Hauth). }
  now destruct (bool_decide _).
Qed.

Lemma changes_inv (c : Controller) (kind : Field -> bool) (body : Field -> Context -> M unit)
    ctx w ctx' w' :
  (when (ConsistentUpdate c) (abort partialUpdatesNotAllowed);;
   ctx ← getCtx;
   match Relationships (meta c) (Relationship (JSONAPIRequest ctx)) with
   | None => abort (BadRequest "invalid relationship")
   | Some rel =>
       when (negb (kind rel)) (abort (BadRequest "invalid relationship"));;
       loadModel c;;
       ctx ← getCtx;
       when (negb (Contains (WritableFields ctx) (Name rel)))
         (abort (BadRequest "relationship is not writable"));;
       body rel ctx
   end) ctx w = Ok tt ctx' w' ->
  changeable c ctx kind.
Proof.
  intros H. destruct (ConsistentUpdate c) eqn:Ec; [discriminate|].
  split; [exact Ec|]. mstep_in H.
  destruct (Relationships (meta c) (Relationship (JSONAPIRequest ctx))) as [rel|];
    [|discriminate].
  exists rel. split; [reflexivity|].
  destruct (kind rel); [|discriminate]. split; [reflexivity|]. intros Hkeep.
  cbn [negb] in H. cbn beta iota in H.
  destruct (loadModel c ctx w) as [[] ctx1 w1|] eqn:El; [|discriminate].
  apply (loadModel_writable _ _ _ _ _ Hkeep) in El. rewrite <- El.
  destruct (Contains (WritableFields ctx1) (Name rel)) eqn:E; [|discriminate].
  now apply Contains_In.
Qed.

(** X10. Only a to-one or a to-many relationship can be set, and only a
    to-many relationship can be appended to or removed from. A request
    that changes a relationship and succeeds named a relationship of such
    a kind, on a controller without consistent update, and (when the
    authorizers leave the writable fields alone) one that is writable. On
    a controller without consistent update, a request for a relationship
    of another kind, has-one and has-many among them, is rejected with 400
    (invalid relationship) before the model is loaded, with the world as
    it was. *)
Theorem relationship_kind_checked (g : Group) (c : Controller) (ctx : Context) (w : World) :
  (forall ctx' w', setRelationship g c ctx w = Ok tt ctx' w' ->
     changeable c ctx (fun rel => ToOne rel || ToMany rel)) /\
  (forall ctx' w', appendToRelationship g c ctx w = Ok tt ctx' w' ->
     changeable c ctx ToMany) /\
  (forall ctx' w', removeFromRelationship g c ctx w = Ok tt ctx' w' ->
     changeable c ctx ToMany) /\
  (forall rel,
     ConsistentUpdate c = false ->
     Relationships (meta c) (Relationship (JSONAPIRequest ctx)) = Some rel ->
     (ToOne rel = false -> ToMany rel = false ->
      setRelationship g c ctx w = Abort (BadRequest "invalid relationship") w) /\
     (ToMany rel = false ->
      appendToRelationship g c ctx w = Abort (BadRequest "invalid relationship") w /\
      removeFromRelationship g c ctx w = Abort (BadRequest "invalid relationship") w)).
Proof.
  split; [|split; [|split]].
  - intros ctx' w' H.
    apply changes_inv with (kind := fun rel => ToOne rel || ToMany rel)
      (body := fun rel ctx =>
         request ← must "nil pointer dereference: no request document" (Request_ ctx);
         assignRelationship c request rel;; replaceAndRespond g c)
      (w := w) (ctx' := ctx') (w' := w').
    rewrite <- H. unfold setRelationship. mstep.
    destruct (ConsistentUpdate c); [reflexivity|]. cbn beta iota.
    destruct (Relationships _ _) as [rel|]; [|reflexivity].
    rewrite negb_orb. reflexivity.
  - intros ctx' w' H.
    apply changes_inv with (kind := ToMany)
      (body := fun rel _ =>
         refs ← requestMany; forEach (appendReference rel) refs;; replaceAndRespond g c)
      (w := w) (ctx' := ctx') (w' := w').
    exact H.
  - intros ctx' w' H.
    apply changes_inv with (kind := ToMany)
      (body := fun rel _ =>
         refs ← requestMany; forEach (removeReference rel) refs;; replaceAndRespond g c)
      (w := w) (ctx' := ctx') (w' := w').
    exact H.
  - intros rel Hc Hr. split.
    + intros H1 H2. unfold setRelationship. rewrite Hc. mstep. rewrite Hr, H1, H2. reflexivity.
    + intros H2. unfold appendToRelationship, removeFromRelationship. rewrite Hc. mstep.
      rewrite Hr, H2. split; reflexivity.
Qed.

(** The comments of a post are a has-many relationship: they cannot be
    set through the post, and the world remains as it was. *)
Example set_has_many :
  let body := Some (blog.references "comments" [11%N]) in
  let ctx := blog.incoming (blog.relationshipRequest SetRelationship (Hex 1%N) "comments") body in
  let w := blog.world [blog.post 1%N "Hello" "" "" VNull []] [blog.comment 11%N "Hi" VNull 2%N] [] in
  handle blog.group blog.plainPosts ∅ ctx w = Abort (BadRequest "invalid relationship") w.
Proof. vm_compute. reflexivity. Qed.

(** ** The idempotent create token of an update *)




(** ** Writable and readable fields *)

Lemma fieldKeys_In c what names ctx w keys ctx' w' :
  fieldKeys c what names ctx w = Ok keys ctx' w' ->
  ctx' = ctx /\ w' = w /\ forall key, In key keys <-> standsFor c names key.
Proof.
  intros H. unfold fieldKeys in H.
  apply bind_inv_Ok in H as (parts & ctx1 & w1 & H1 & H).
  apply mapEach_reads_Ok in H1 as (-> & -> & Hall); [|intros a; reader].
  cbn in H. inversion H; subst keys ctx' w'. clear H.
  split; [reflexivity|]. split; [reflexivity|]. intros key.
  rewrite in_concat. unfold standsFor. split.
  - intros (part & Hpart & Hkey).
    destruct (Forall2_In_r _ _ _ _ Hall Hpart) as (name & Hname & Hrun).
    mstep_in Hrun. destruct (coal.Fields (meta c) name) as [f|] eqn:Ef;
      cbn beta iota in Hrun; [|discriminate].
    inversion Hrun; subst part. clear Hrun.
    assert (Hk : key = keyOf f /\ key <> "").
    { unfold keyOf. destruct (String.eqb_spec (JSONKey f) "") as [Ej|Ej]; cbn [negb] in *.
      - destruct (String.eqb_spec (RelName f) "") as [Er|Er]; cbn [negb] in *;
          [destruct Hkey|].
        destruct Hkey as [<-|[]]. now split.
      - destruct Hkey as [<-|[]]. now split. }
    destruct Hk as [-> Hne]. split; [exact Hne|]. now exists name, f.
  - intros (Hne & name & f & Hname & Hf & Hkey).
    destruct (Forall2_In_l _ _ _ _ Hall Hname) as (part & Hpart & Hrun).
    exists part. split; [exact Hpart|].
    mstep_in Hrun. rewrite Hf in Hrun. cbn beta iota in Hrun.
    inversion Hrun; subst part. clear Hrun. unfold keyOf in Hkey.
    destruct (String.eqb_spec (JSONKey f) "") as [Ej|Ej]; cbn [negb] in *.
    + destruct (String.eqb_spec (RelName f) "") as [Er|Er]; cbn [negb] in *;
        [congruence | now left].
    + now left.
Qed.

(** X12. Only writable fields are assigned. With violations not
    tolerated, an assignment that succeeds had a document whose attribute
    keys and relationship names all stand for writable fields. With or
    without tolerance, a field of the model is left as it was when none
    of the keys of the document that address it stands for a writable
    field. *)
Theorem assignData_writable (c : Controller) (res : Resource) (ctx : Context) (w : World)
    (ctx' : Context) (w' : World) :
  assignData c res ctx w = Ok tt ctx' w' ->
  (TolerateViolations c = false ->
   forall key f, addresses c res key f -> standsFor c (WritableFields ctx) key) /\
  (forall field,
     (forall key f, addresses c res key f -> Name f = field ->
        ~ standsFor c (WritableFields ctx) key) ->
     fieldOf field ctx' = fieldOf field ctx).
Proof.
  intros H. unfold assignData in H.
  rewrite (bind_Ok getCtx _ ctx w ctx ctx w eq_refl) in H.
  apply bind_inv_Ok in H as (whitelist & ca & wa & H0 & H).
  apply fieldKeys_In in H0 as (-> & -> & Hwl).
  apply bind_inv_Ok in H as (attributes & cb & wb & H0 & H).
  apply mapEach_reads_Ok in H0 as (-> & -> & Hall).
  2:{ intros [name value]. destruct (Attributes (meta c) name); [|apply reads_abort].
      destruct (negb _); [destruct (TolerateViolations c)|]; auto with reads. }
  apply bind_inv_Ok in H as ([] & cc & wc & H1 & H2).
  assert (Hkept : forall key value, In (key, value) (List.concat attributes) ->
            In (key, value) (RAttributes res) /\ In key whitelist).
  { intros key value Hin. apply in_concat in Hin as (part & Hpart & Hin).
    destruct (Forall2_In_r _ _ _ _ Hall Hpart) as ([name v] & Hnv & Hrun).
    cbn beta iota in Hrun.
    destruct (Attributes (meta c) name); [|discriminate].
    destruct (Contains whitelist name) eqn:Ew; cbn [negb] in Hrun.
    - inversion Hrun; subst part. destruct Hin as [Hin|[]]. inversion Hin; subst.
      split; [exact Hnv | now apply Contains_In].
    - destruct (TolerateViolations c); [|discriminate].
      inversion Hrun; subst part. destruct Hin. }
  split.
  - intros Htol key f [[Hkey Hf]|[Hkey Hf]]; apply Hwl.
    + apply in_map_iff in Hkey as ([name v] & <- & Hnv). cbn [fst] in *.
      destruct (Forall2_In_l _ _ _ _ Hall Hnv) as (part & _ & Hrun).
      cbn beta iota in Hrun. rewrite Hf, Htol in Hrun.
      destruct (Contains whitelist name) eqn:Ew; [|discriminate]. now apply Contains_In.
    + apply in_map_iff in Hkey as ([name rel] & <- & Hnr). cbn [fst] in *.
      destruct (Contains whitelist name) eqn:Ew; [now apply Contains_In|]. exfalso.
      clear - H2 Hnr Hf Htol Ew. revert cc wc H2.
      induction (RRelationships res) as [|nr rest IH]; intros cc wc H2; [destruct Hnr|].
      cbn [forEach] in H2. apply bind_inv_Ok in H2 as ([] & c1 & w1 & Hx & H2).
      destruct Hnr as [->|Hnr]; [|exact (IH Hnr _ _ H2)].
      cbn beta iota in Hx. rewrite Hf, Ew, Htol in Hx. discriminate.
  - intros field Hun.
    apply (Assign_keeps c field) in H1.
    2:{ intros key value f Hin Hf Hname.
        destruct (Hkept key value Hin) as [Hdoc Hw].
        apply (Hun key f); [|exact Hname|now apply Hwl].
        left. split; [|exact Hf]. apply in_map_iff. now exists (key, value). }
    rewrite <- H1.
    apply (forEach_invariant (fun x => fieldOf field x = fieldOf field cc)) in H2;
      [exact H2 | | reflexivity].
    intros [name rel] Hin x v x' v' HP Hx.
    destruct (Relationships (meta c) name) as [f|] eqn:Ef; [|discriminate].
    destruct (Contains whitelist name) eqn:Ew; cbn [negb orb] in Hx.
    + destruct (negb (ToOne f) && negb (ToMany f)).
      * destruct (TolerateViolations c); [|discriminate]. cbn in Hx. inversion Hx. now subst.
      * rewrite <- HP. eapply assignRelationship_keeps; [|exact Hx].
        intros Hname. apply (Hun name f); [|exact Hname|apply Hwl; now apply Contains_In].
        right. split; [|exact Ef]. apply in_map_iff. now exists (name, rel).
    + destruct (TolerateViolations c); [|discriminate]. cbn in Hx. inversion Hx. now subst.
Qed.

Lemma assignData_writable_witness :
  let stored := blog.post 1%N "Hello" "c1" "" VNull [] in
  let res := MkResource "posts" (Hex 1%N)
               [("title", VString "Hi"); ("create-token", VString "c2")] [] in
  let ctx := setWritableFields ["Title"]
               (setModel (Some stored)
                  (blog.incoming (blog.request UpdateResource (Hex 1%N)) None)) in
  match assignData blog.tolerantPosts res ctx (blog.world [stored] [] []) with
  | Ok _ ctx' _ =>
      fieldOf "Title" ctx' = Some (VString "Hi") /\
      fieldOf "CreateToken" ctx' = Some (VString "c1")
  | Abort _ _ => False
  end.
Proof.
  intros stored res ctx.
  destruct (assignData blog.tolerantPosts res ctx (blog.world [stored] [] []))
    as [[] ctx' w'|e w'] eqn:E; [|vm_compute in E; discriminate].
  split; [vm_compute in E; inversion E; reflexivity|].
  destruct (assignData_writable _ _ _ _ _ _ E) as [_ H].
  rewrite (H "CreateToken"); [reflexivity|].
  intros key f Haddr Hname (_ & name & f' & [<-|[]] & Hf' & Hk).
  vm_compute in Hf'. inversion Hf'; subst f'. vm_compute in Hk. subst key.
  destruct Haddr as [[_ Ha]|[_ Ha]]; vm_compute in Ha; inversion Ha; subst f;
    vm_compute in Hname; discriminate.
Defined.

Lemma constructRelationship_name c model relationships whitelist base field ctx w part :
  constructRelationship c model relationships whitelist base field ctx w = Ok part ctx w ->
  (forall name, In name (List.map fst part) ->
     name = RelName field /\ Contains whitelist (RelName field) = true) /\
  (Contains whitelist (RelName field) = true ->
   ToOne field || ToMany field || HasOne field || HasMany field = true ->
   List.map fst part = [RelName field]).
Proof.
  unfold constructRelationship.
  destruct (Contains whitelist (RelName field)); cbn [negb].
  2:{ intros H. inversion H. split; [intros name []|discriminate]. }
  assert (Hset : forall (m : M (list (string * Document))),
            (m ctx w = Ok part ctx w -> List.map fst part = [RelName field]) ->
            m ctx w = Ok part ctx w ->
            (forall name, In name (List.map fst part) -> name = RelName field /\ true = true) /\
            (true = true -> ToOne field || ToMany field || HasOne field || HasMany field = true ->
             List.map fst part = [RelName field])).
  { intros m Hm H. rewrite (Hm H). split; [|reflexivity].
    intros name [<-|[]]. now split. }
  destruct (ToOne field).
  { apply Hset. intros H. mstep_in H.
    destruct (getField model (Name field) ctx w) as [v c1 w1|]; [|discriminate].
    destruct (Optional field).
    - destruct (asOptionalID v c1 w1); inversion H; reflexivity.
    - destruct (asID v c1 w1); inversion H; reflexivity. }
  destruct (ToMany field).
  { apply Hset. intros H. mstep_in H.
    destruct (getField model (Name field) ctx w) as [v c1 w1|]; [|discriminate].
    destruct (asIDs v c1 w1); inversion H; reflexivity. }
  destruct (HasOne field).
  { apply Hset. intros H. destruct relationships as [rs|]; [|inversion H; reflexivity].
    destruct (1 <? length _)%nat; [discriminate | inversion H; reflexivity]. }
  destruct (HasMany field).
  { apply Hset. intros H. destruct relationships as [rs|]; inversion H; reflexivity. }
  intros H. inversion H. split; [intros name []|discriminate].
Qed.

(** X13. Only readable fields are shown. The resource of a model has the
    plural name of the model as its type and the hex form of the id of
    the model as its id; its attributes are the attributes of the model
    whose JSON key stands for a readable field, and its relationships are
    the relationships of the model whose name stands for a readable field.
    Nothing else is in the resource, and the context and the world are
    left alone. *)
Theorem constructResource_readable (c : Controller) (model : Model)
    (relationships : option (gmap string (gmap ID (list ID))))
    (ctx : Context) (w : World) (res : Resource) (ctx' : Context) (w' : World) :
  constructResource c model relationships ctx w = Ok res ctx' w' ->
  ctx' = ctx /\ w' = w /\
  RType res = PluralName (meta c) /\ RID res = Hex (DocID model) /\
  (forall key, In key (List.map fst (RAttributes res)) <->
     standsFor c (ReadableFields ctx) key /\
     exists f, In f (AttributeList (meta c)) /\ JSONKey f = key) /\
  (forall name, In name (List.map fst (RRelationships res)) ->
     standsFor c (ReadableFields ctx) name /\
     exists f, In f (RelationshipList (meta c)) /\ RelName f = name) /\
  (forall f, In f (RelationshipList (meta c)) ->
     standsFor c (ReadableFields ctx) (RelName f) ->
     ToOne f || ToMany f || HasOne f || HasMany f = true ->
     In (RelName f) (List.map fst (RRelationships res))).
Proof.
  intros H. unfold constructResource in H.
  rewrite (bind_Ok getCtx _ ctx w ctx ctx w eq_refl) in H.
  apply bind_inv_Ok in H as (whitelist & ca & wa & H0 & H).
  apply fieldKeys_In in H0 as (-> & -> & Hwl). cbn zeta in H.
  apply bind_inv_Ok in H as (rels & cb & wb & H0 & H).
  apply mapEach_reads_Ok in H0 as (-> & -> & Hall);
    [|intros a; apply reads_constructRelationship].
  cbn in H. inversion H; subst res ctx' w'. clear H. cbn [RType RID RAttributes RRelationships].
  split; [reflexivity|]. split; [reflexivity|]. split; [reflexivity|]. split; [reflexivity|].
  split; [|split].
  - intros key. unfold StructToMap. rewrite in_map_iff. split.
    + intros ([k v] & <- & Hin). cbn [fst]. apply in_flat_map in Hin as (f & Hf & Hin).
      destruct (Contains whitelist (JSONKey f)) eqn:Ew; [|destruct Hin].
      destruct Hin as [Hin|[]]. inversion Hin; subst k v.
      split; [apply Hwl; now apply Contains_In | now exists f].
    + intros [Hs (f & Hf & <-)].
      exists (JSONKey f, default VNull (Get model (Name f))). split; [reflexivity|].
      apply in_flat_map. exists f. split; [exact Hf|].
      apply Hwl, Contains_In in Hs. rewrite Hs. now left.
  - intros name Hin. apply in_map_iff in Hin as ([k doc] & <- & Hin). cbn [fst].
    apply in_concat in Hin as (part & Hpart & Hin).
    destruct (Forall2_In_r _ _ _ _ Hall Hpart) as (f & Hf & Hrun).
    apply constructRelationship_name in Hrun as [Hname _].
    destruct (Hname k) as [-> Hw]; [apply in_map_iff; now exists (k, doc)|].
    split; [apply Hwl; now apply Contains_In | now exists f].
  - intros f Hf Hs Hkind.
    destruct (Forall2_In_l _ _ _ _ Hall Hf) as (part & Hpart & Hrun).
    apply constructRelationship_name in Hrun as [_ Hname].
    apply Hwl, Contains_In in Hs. specialize (Hname Hs Hkind).
    destruct part as [|[k doc] rest]; [discriminate|]. cbn in Hname. inversion Hname.
    apply in_map_iff. exists (RelName f, doc). split; [reflexivity|].
    apply in_concat. exists ((k, doc) :: rest). split; [exact Hpart|]. subst k. now left.
Qed.

Lemma constructResource_readable_witness :
  let model := blog.post 1%N "Hello" "c1" "u1" VNull [2%N] in
  let ctx := setReadableFields ["Title"; "Related"]
               (blog.incoming (blog.request FindResource (Hex 1%N)) None) in
  match constructResource blog.posts model None ctx (blog.world [model] [] []) with
  | Ok res _ _ =>
      RID res = Hex 1%N /\
      forall key, In key (List.map fst (RAttributes res)) ->
        standsFor blog.posts ["Title"; "Related"] key
  | Abort _ _ => False
  end.
Proof.
  intros model ctx.
  destruct (constructResource blog.posts model None ctx (blog.world [model] [] []))
    as [res ctx' w'|e w'] eqn:E; [|vm_compute in E; discriminate].
  destruct (constructResource_readable _ _ _ _ _ _ _ _ E) as (_ & _ & _ & Hid & Hattr & _).
  split; [exact Hid|]. intros key Hin. now apply Hattr in Hin as [Hs _].
Defined.

(** The title is readable, the tokens are not: the resource of the post
    shows the title only. *)
Example readable_title :
  let model := blog.post 1%N "Hello" "c1" "u1" VNull [2%N] in
  let ctx := setReadableFields ["Title"; "Related"]
               (blog.incoming (blog.request FindResource (Hex 1%N)) None) in
  match constructResource blog.posts model None ctx (blog.world [model] [] []) with
  | Ok res _ _ => (RAttributes res, List.map fst (RRelationships res))
  | Abort _ _ => ([], [])
  end = ([("title", VString "Hello")], ["related"]).
Proof. vm_compute. reflexivity. Qed.

(** ** The references of a preload *)

Lemma collect_references_of rm rel modelID references (acc : gmap ID (list ID)) owner :
  List.fold_left (fun entry reference =>
      match referencesTo rm rel modelID reference with
      | [] => entry
      | ids => <[modelID := (default [] (entry !! modelID) ++ ids)%list]> entry
      end) references acc !! owner
  = if decide (owner = modelID)
    then match List.flat_map (referencesTo rm rel modelID) references with
         | [] => acc !! modelID
         | ids => Some (default [] (acc !! modelID) ++ ids)%list
         end
    else acc !! owner.
Proof.
  revert acc. induction references as [|r rs IH]; intros acc; cbn [List.fold_left List.flat_map].
  - destruct (decide (owner = modelID)) as [->|]; reflexivity.
  - rewrite IH. destruct (decide (owner = modelID)) as [->|Hne].
    + destruct (referencesTo rm rel modelID r) as [|i ids] eqn:E; [reflexivity|].
      rewrite lookup_insert_eq. cbn [app].
      destruct (List.flat_map (referencesTo rm rel modelID) rs) as [|j more]; cbn [default].
      * unfold id. now rewrite app_nil_r.
      * unfold id. rewrite <- app_assoc. reflexivity.
    + destruct (referencesTo rm rel modelID r) as [|i ids]; [reflexivity|].
      now rewrite lookup_insert_ne by congruence.
Qed.

Lemma collect_references rm rel modelIDs references (acc : gmap ID (list ID)) owner :
  List.NoDup modelIDs -> (forall id, In id modelIDs -> acc !! id = None) ->
  List.fold_left (fun entry modelID =>
      List.fold_left (fun entry reference =>
        match referencesTo rm rel modelID reference with
        | [] => entry
        | ids => <[modelID := (default [] (entry !! modelID) ++ ids)%list]> entry
        end) references entry) modelIDs acc !! owner
  = if coal.Contains modelIDs owner
    then match List.flat_map (referencesTo rm rel owner) references with
         | [] => None
         | ids => Some ids
         end
    else acc !! owner.
Proof.
  revert acc. induction modelIDs as [|m ms IH]; intros acc Hnd Hacc; [reflexivity|].
  cbn [List.fold_left coal.Contains]. inversion Hnd as [|? ? Hm Hms]; subst.
  rewrite IH; [|exact Hms|].
  2:{ intros id Hid. rewrite collect_references_of.
      destruct (decide (id = m)) as [->|]; [contradiction|]. apply Hacc. now right. }
  destruct (N.eqb_spec m owner) as [->|Hne].
  - replace (coal.Contains ms owner) with false
      by (symmetry; now apply coalContains_not_In).
    rewrite collect_references_of. destruct (decide (owner = owner)); [|congruence].
    rewrite (Hacc owner) by now left. reflexivity.
  - destruct (coal.Contains ms owner); [reflexivity|].
    rewrite collect_references_of. destruct (decide (owner = m)); [congruence | reflexivity].
Qed.

(** X14. The references that a preload collects for the owners of a
    has-one or has-many relationship (the owners being distinct): the
    entry of an owner lists the ids of the references that point to it,
    in the order of the references, once for each time a reference names
    the owner; an owner that no reference points to has no entry, and
    there is no entry for anything that is not an owner. A reference
    points to an owner through a to-one field when the field holds the id
    of the owner. *)
Theorem collectReferences_exact (rm : Meta) (rel : Field) (modelIDs : list ID)
    (references : list Model) (owner : ID) :
  List.NoDup modelIDs ->
  let entry := collectReferences rm rel modelIDs references in
  let pointing := List.flat_map (referencesTo rm rel owner) references in
  (In owner modelIDs -> default [] (entry !! owner) = pointing) /\
  (entry !! owner = None <-> ~ In owner modelIDs \/ pointing = []) /\
  (ToOne rel = true -> ToMany rel = false -> IsZero owner = false ->
   pointing = List.map DocID
                (List.filter (fun reference =>
                   bool_decide (docValue rm reference (BSONField rel) = VID owner))
                   references)).
Proof.
  intros Hnd entry pointing.
  assert (E : entry !! owner =
              if coal.Contains modelIDs owner
              then match pointing with [] => None | i :: l => Some (i :: l) end
              else None).
  { unfold entry, collectReferences. rewrite collect_references; [|exact Hnd|].
    - destruct (coal.Contains modelIDs owner); [reflexivity | apply lookup_empty].
    - intros id _. apply lookup_empty. }
  assert (H3 : ToOne rel = true -> ToMany rel = false -> IsZero owner = false ->
               pointing = List.map DocID
                 (List.filter (fun reference =>
                    bool_decide (docValue rm reference (BSONField rel) = VID owner))
                    references)).
  { intros H1 H2 Hz. unfold pointing, referencesTo. rewrite H1, H2.
    clear - Hz. induction references as [|r rs IH]; [reflexivity|].
    cbn [List.flat_map List.filter]. rewrite IH. rewrite app_nil_r.
    destruct (docValue rm r (BSONField rel)) as [| | | | |rid|] eqn:Ev;
      try (rewrite bool_decide_eq_false_2 by discriminate; reflexivity).
    destruct (N.eqb_spec rid owner) as [->|Hne].
    - rewrite Hz. cbn [negb andb]. rewrite bool_decide_eq_true_2 by reflexivity. reflexivity.
    - rewrite andb_false_r. rewrite bool_decide_eq_false_2 by congruence. reflexivity. }
  clearbody entry pointing.
  split; [|split; [|exact H3]].
  - intros Hin. rewrite E. apply coalContains_In in Hin. rewrite Hin.
    now destruct pointing.
  - rewrite E. destruct (coal.Contains modelIDs owner) eqn:Ec.
    + apply coalContains_In in Ec. destruct pointing; (split; [intros H|intros [H|H]]);
        try contradiction; try discriminate; auto.
    + apply coalContains_not_In in Ec. tauto.
Qed.

Lemma collectReferences_exact_witness :
  let comments := [blog.comment 11%N "a" VNull 1%N; blog.comment 12%N "b" VNull 2%N;
                   blog.comment 13%N "c" VNull 1%N] in
  let post := blog.toOne "Post" "post_id" "post" "posts" in
  collectReferences blog.commentMeta post [1; 2; 3]%N comments !! 1%N = Some [11; 13]%N /\
  collectReferences blog.commentMeta post [1; 2; 3]%N comments !! 3%N = None.
Proof.
  intros comments post.
  assert (Hnd : List.NoDup [1; 2; 3]%N).
  { repeat constructor; cbn; intuition discriminate. }
  destruct (collectReferences_exact blog.commentMeta post [1; 2; 3]%N comments 1%N Hnd)
    as (H1 & _ & _).
  destruct (collectReferences_exact blog.commentMeta post [1; 2; 3]%N comments 3%N Hnd)
    as (_ & H3 & _).
  split.
  - specialize (H1 ltac:(now left)).
    destruct (collectReferences blog.commentMeta post [1; 2; 3]%N comments !! 1%N) eqn:E;
      [cbn in H1; now subst | vm_compute in E; discriminate].
  - apply H3. right. reflexivity.
Defined.

(** ** The assignment of a relationship *)

Lemma mapEach_run {A B : Type} (f : A -> M B) (l : list A) (res : list B) ctx w :
  Forall2 (fun a b => f a ctx w = Ok b ctx w) l res -> mapEach f l ctx w = Ok res ctx w.
Proof.
  induction 1 as [|a b l res Hab _ IH]; [reflexivity|].
  cbn [mapEach]. rewrite (bind_Ok _ _ _ _ _ _ _ Hab), (bind_Ok _ _ _ _ _ _ _ IH). reflexivity.
Qed.

(** X15. The assignment of a relationship document to a to-one or a
    to-many field. A to-one document without data clears the field: a
    field that is not optional is set to the zero id, an optional one to
    nil; with a resource of the type of the relationship the field is set
    to the id of the resource (an optional field to nil when that id is
    the zero id). A to-many document sets the field to the ids of its
    resources, in their order, and to the empty list without data. A
    resource of another type is rejected with 400 (resource type
    mismatch), an id that is no object id with 400 (invalid relationship
    id), and the model is then left as it was. *)
Theorem assignRelationship_sets (c : Controller) (rel : Document) (field : Field)
    (ctx : Context) (w : World) (model : Model) (old : Value) :
  Model_ ctx = Some model -> Get model (Name field) = Some old ->
  let set v := Ok tt (setModel (Some (Set_ model (Name field) v)) ctx) w in
  (ToOne field = true -> ToMany field = false ->
   match Data rel ≫= One with
   | None => assignRelationship c rel field ctx w
             = set (if Optional field then VNull else VID 0%N)
   | Some one =>
       if negb (String.eqb (RType one) (RelType field))
       then assignRelationship c rel field ctx w
            = Abort (BadRequest "resource type mismatch") w
       else match FromHex (RID one) with
            | None => assignRelationship c rel field ctx w
                      = Abort (BadRequest "invalid relationship id") w
            | Some id => assignRelationship c rel field ctx w
                         = set (if Optional field && IsZero id then VNull else VID id)
            end
   end) /\
  (ToOne field = false -> ToMany field = true ->
   (Data rel = None -> assignRelationship c rel field ctx w = set (VIDs [])) /\
   (forall data ids, Data rel = Some data -> refer field (Many data) ids ->
      assignRelationship c rel field ctx w = set (VIDs ids)) /\
   (forall data ref, Data rel = Some data -> In ref (Many data) ->
      RType ref <> RelType field \/ FromHex (RID ref) = None ->
      exists e, assignRelationship c rel field ctx w = Abort e w /\
                statusOf e = StatusBadRequest)).
Proof.
  intros Hm Hg set.
  assert (Hset : forall v, MustSet (Name field) v ctx w = set v).
  { intros v. exact (MustSet_Ok _ v ctx w model old Hm Hg). }
  split.
  - intros H1 H2. unfold assignRelationship. rewrite H1, H2. cbn [when].
    destruct (Data rel ≫= One) as [one|].
    + destruct (negb (String.eqb (RType one) (RelType field))); [reflexivity|].
      unfold parseID. destruct (FromHex (RID one)) as [id|]; [|reflexivity].
      mstep. destruct (Optional field); cbn [negb andb].
      * destruct (IsZero id); cbn [negb]; now rewrite Hset.
      * now rewrite Hset.
    + mstep. change (IsZero 0%N) with true.
      destruct (Optional field); cbn [negb]; now rewrite Hset.
  - intros H1 H2. unfold assignRelationship. rewrite H1, H2. cbn [when].
    split; [|split].
    + intros ->. mstep. now rewrite Hset.
    + intros data ids -> Href.
      rewrite (bind_Ok _ _ _ _ _ _ _ eq_refl).
      match goal with
      | |- (mapEach ?f _ ≫= _) _ _ = _ =>
          assert (Hmap : mapEach f (Many data) ctx w = Ok ids ctx w)
      end.
      { apply mapEach_run. eapply Forall2_impl; [exact Href|].
        intros ref x [Ht Hx]. cbn beta.
        apply String.eqb_eq in Ht. rewrite Ht. cbn [negb].
        unfold parseID. now rewrite Hx. }
      rewrite (bind_Ok _ _ _ _ _ _ _ Hmap). now rewrite Hset.
    + intros data ref -> Hin Hbad.
      rewrite (bind_Ok _ _ _ _ _ _ _ eq_refl).
      set (f := fun r : Resource =>
                  if negb (String.eqb (RType r) (RelType field))
                  then abort (BadRequest "resource type mismatch")
                  else parseID "invalid relationship id" (RID r)).
      assert (Hreads : forall a, reads (f a)).
      { intros a. unfold f. destruct (negb _); [apply reads_abort | apply reads_parseID]. }
      assert (Hf : forall r e, f r ctx w = Abort e w -> statusOf e = StatusBadRequest).
      { intros r e. unfold f, parseID.
        destruct (negb _); [|destruct (FromHex (RID r))]; intros H; inversion H; reflexivity. }
      assert (Href : exists e, f ref ctx w = Abort e w).
      { unfold f, parseID. destruct Hbad as [Hbad|Hbad].
        - apply String.eqb_neq in Hbad. rewrite Hbad. eauto.
        - destruct (negb _); [eauto|]. rewrite Hbad. eauto. }
      destruct Href as (e & He).
      destruct (mapEach_aborts f (Many data) ref ctx w e Hreads Hin He)
        as (bad & e' & _ & Hfb & Hrun).
      exists e'. split; [|exact (Hf _ _ Hfb)].
      now rewrite (bind_Abort _ _ _ _ _ _ Hrun).
Qed.

Lemma assignRelationship_sets_witness :
  let model := blog.comment 11%N "Hi" VNull 1%N in
  let ctx := setModel (Some model) (blog.incoming (blog.commentRequest UpdateResource (Hex 11%N)) None) in
  let w := blog.world [] [model] [] in
  assignRelationship blog.comments (MkDocument None None)
    (blog.toOne "Post" "post_id" "post" "posts") ctx w
  = Ok tt (setModel (Some (Set_ model "Post" (VID 0%N))) ctx) w.
Proof.
  intros model ctx w.
  destruct (assignRelationship_sets blog.comments (MkDocument None None)
              (blog.toOne "Post" "post_id" "post" "posts") ctx w model (VID 1%N)
              eq_refl eq_refl) as [H _].
  exact (H eq_refl eq_refl).
Defined.

(** ** Authorization comes first *)






(** An authorizer that denies: the delete is answered with 401 and the
    post is still stored. *)
Example denied_delete :
  let guarded :=
    {| meta := blog.postMeta; Supported := fun _ => true; CFilters := []; Sorters := [];
       Authorizers := [blog.deny]; Validators := []; Decorators := []; Notifiers := [];
       ListLimit := 0; CollectionActions := ∅; ResourceActions := ∅;
       TolerateViolations := false; IdempotentCreate := false;
       ConsistentUpdate := false; SoftDelete := false |} in
  let w := blog.world [blog.post 1%N "Hello" "c1" "u1" VNull []] [] [] in
  let ctx := blog.incoming (blog.request DeleteResource (Hex 1%N)) None in
  handle blog.group guarded ∅ ctx w
    = Abort (JSONAPIError StatusUnauthorized "access denied") w.
Proof. vm_compute. reflexivity. Qed.

(** ** The resources of a list *)

Lemma constructResource_id c model relationships ctx w res ctx' w' :
  constructResource c model relationships ctx w = Ok res ctx' w' ->
  RType res = PluralName (meta c) /\ RID res = Hex (DocID model).
Proof.
  intros H. unfold constructResource in H.
  rewrite (bind_Ok getCtx _ ctx w ctx ctx w eq_refl) in H.
  apply bind_inv_Ok in H as (whitelist & ca & wa & _ & H). cbn zeta in H.
  apply bind_inv_Ok in H as (rels & cb & wb & _ & H).
  cbn in H. inversion H. split; reflexivity.
Qed.

(** X17. The resources of a list are the resources of its models, one
    for each model and in the order of the models: each has the plural
    name of the model as its type and the hex form of the id of its model
    as its id. Composing them leaves the context and the world alone. *)
Theorem resourcesForModels_order (c : Controller) (models : list Model)
    (relationships : option (gmap string (gmap ID (list ID))))
    (ctx : Context) (w : World) (many : list Resource) (ctx' : Context) (w' : World) :
  resourcesForModels c models relationships ctx w = Ok many ctx' w' ->
  ctx' = ctx /\ w' = w /\
  List.map RID many = List.map (fun model => Hex (DocID model)) models /\
  Forall (fun res => RType res = PluralName (meta c)) many.
Proof.
  intros H. unfold resourcesForModels in H.
  apply mapEach_reads_Ok in H as (-> & -> & Hall);
    [|intros model; apply reads_constructResource].
  split; [reflexivity|]. split; [reflexivity|].
  induction Hall as [|model res models many Hres _ [IH1 IH2]]; [split; constructor|].
  apply constructResource_id in Hres as [Ht Hi]. split.
  - cbn [List.map]. now rewrite Hi, IH1.
  - now constructor.
Qed.

Lemma resourcesForModels_order_witness :
  let models := [blog.post 2%N "b" "" "" VNull []; blog.post 1%N "a" "" "" VNull []] in
  let ctx := setReadableFields ["Title"]
               (blog.incoming (blog.pageRequest 0 0) None) in
  match resourcesForModels blog.posts models None ctx (blog.world models [] []) with
  | Ok many _ _ => List.map RID many = [Hex 2%N; Hex 1%N]
  | Abort _ _ => False
  end.
Proof.
  intros models ctx.
  destruct (resourcesForModels blog.posts models None ctx (blog.world models [] []))
    as [many ctx' w'|e w'] eqn:E; [|vm_compute in E; discriminate].
  destruct (resourcesForModels_order _ _ _ _ _ _ _ _ E) as (_ & _ & H & _). exact H.
Defined.

(** ** Strategies of authorizers *)

Lemma callList_app l1 l2 ctx w :
  ash.callList (l1 ++ l2) ctx w
    = match ash.callList l1 ctx w with
      | inl r => inl r
      | inr (ctx1, w1) => ash.callList l2 ctx1 w1
      end.
Proof.
  revert ctx w. induction l1 as [|a l1 IH]; intros ctx w; [reflexivity|].
  cbn [app ash.callList]. destruct (negb (ash.Matcher a ctx)); [apply IH|].
  destruct (ash.Handler a ctx w) as [[es|] c1 w1| |]; try reflexivity. apply IH.
Qed.

Lemma call_concat lists ctx w : ash.call lists ctx w = ash.call [concat lists] ctx w.
Proof.
  revert ctx w. induction lists as [|l lists IH]; intros ctx w; [reflexivity|].
  cbn [ash.call concat]. rewrite callList_app.
  destruct (ash.callList l ctx w) as [r|[ctx1 w1]]; [reflexivity|].
  rewrite IH. reflexivity.
Qed.

Lemma callList_passes l ctx w :
  Forall (passes ctx w) l -> ash.callList l ctx w = inr (ctx, w).
Proof.
  induction 1 as [|a l [Ha|Ha] _ IH]; [reflexivity| |]; cbn [ash.callList].
  - now rewrite Ha.
  - destruct (negb (ash.Matcher a ctx)); [exact IH|]. now rewrite Ha.
Qed.

(** X18. A strategy consults the authorizers of its lists as one list, in
    order. The authorizers that do not match, or that return no set of
    enforcers, are passed over; the first authorizer that matches and
    does more decides: its error is the error of the call, and when it
    returns a set of enforcers the call runs those enforcers and no
    further authorizer is consulted. *)
Theorem call_first_grant (lists : list (list ash.Authorizer))
    (before after : list ash.Authorizer) (a : ash.Authorizer) (ctx : Context) (w : World) :
  concat lists = (before ++ a :: after)%list ->
  Forall (passes ctx w) before ->
  ash.Matcher a ctx = true ->
  ash.call lists ctx w =
    match ash.Handler a ctx w with
    | ash.Enforcers (Some enforcers) ctx1 w1 => ash.enforce enforcers ctx1 w1
    | ash.Enforcers None ctx1 w1 => ash.call [after] ctx1 w1
    | ash.Safe msg w1 => CbSafe msg w1
    | ash.Fail e w1 => CbFail e w1
    end.
Proof.
  intros Hl Hbefore Ha. rewrite call_concat, Hl. cbn [ash.call].
  rewrite callList_app, (callList_passes _ _ _ Hbefore). cbn [ash.callList].
  rewrite Ha. cbn [negb].
  destruct (ash.Handler a ctx w) as [[es|] c1 w1| |]; reflexivity.
Qed.

Lemma call_first_grant_witness :
  let ctx := blog.incoming (blog.request FindResource (Hex 1%N)) None in
  let w := blog.world [] [] [] in
  ash.call [[blog.abstain]; [blog.grant; blog.refuse]] ctx w = CbOk ctx w.
Proof.
  intros ctx w.
  rewrite (call_first_grant [[blog.abstain]; [blog.grant; blog.refuse]]
             [blog.abstain] [blog.refuse] blog.grant ctx w eq_refl).
  - reflexivity.
  - constructor; [right; reflexivity | constructor].
  - reflexivity.
Defined.

(** X19. A strategy without an authorizer that decides denies access.
    When every authorizer that the strategy consults for the operation of
    the request passes the decision on, the callback of the strategy
    returns the access denied error, and the authorizers of a controller
    that has the callback abort the request with 401 (access denied),
    with the world as it was. *)
Theorem strategy_denies (s : ash.Strategy) (ctx : Context) (w : World) :
  Forall (passes ctx w) (concat (consulted s ctx)) ->
  Handler (ash.Callback s) ctx w = CbFail ash.ErrAccessDenied w /\
  runCallbacks [ash.Callback s] StatusUnauthorized ctx w
    = Abort (ErrorFromStatus StatusUnauthorized "access denied") w.
Proof.
  intros H.
  assert (E : Handler (ash.Callback s) ctx w = ash.call (consulted s ctx) ctx w).
  { unfold consulted. cbn. now destruct (Operation_ ctx). }
  assert (E' : Handler (ash.Callback s) ctx w = CbFail ash.ErrAccessDenied w).
  { rewrite E, call_concat. cbn [ash.call]. now rewrite (callList_passes _ _ _ H). }
  split; [exact E'|].
  cbn [runCallbacks]. mstep. cbn [Matcher ash.Callback]. unfold runHandler.
  now rewrite E'.
Qed.

Lemma strategy_denies_witness :
  let ctx := setOperation Delete (blog.incoming (blog.request DeleteResource (Hex 1%N)) None) in
  let w := blog.world [blog.post 1%N "Hello" "" "" VNull []] [] [] in
  runCallbacks [ash.Callback blog.readers] StatusUnauthorized ctx w
    = Abort (ErrorFromStatus StatusUnauthorized "access denied") w.
Proof.
  intros ctx w. apply strategy_denies.
  constructor; [right; reflexivity | constructor].
Defined.

(** The readers strategy in front of the posts: a find is answered, a
    delete is refused with 401 and the post stays. *)
Example readers_only :
  let w := blog.world [blog.post 1%N "Hello" "" "" VNull []] [] [] in
  let find := blog.incoming (blog.request FindResource (Hex 1%N)) None in
  let delete := blog.incoming (blog.request DeleteResource (Hex 1%N)) None in
  responseStatus (handle blog.group (blog.guardedPosts blog.readers) ∅ find w) = StatusOK /\
  handle blog.group (blog.guardedPosts blog.readers) ∅ delete w
    = Abort (ErrorFromStatus StatusUnauthorized "access denied") w.
Proof. vm_compute. split; reflexivity. Qed.

(** ** The combinators of authorizers *)

Lemma enforce_app e1 e2 ctx w :
  ash.enforce (e1 ++ e2) ctx w
    = match ash.enforce e1 ctx w with
      | CbOk ctx1 w1 => ash.enforce e2 ctx1 w1
      | r => r
      end.
Proof.
  revert ctx w. induction e1 as [|e e1 IH]; intros ctx w; [reflexivity|].
  cbn [app ash.enforce]. destruct (negb (Matcher e ctx)); [reflexivity|].
  destruct (Handler e ctx w); try reflexivity. apply IH.
Qed.

(** X20. [And] grants only when both authorizers grant. The authorizer
    of two authorizers matches when both match, and it returns a set of
    enforcers exactly when the first matches and returns a set and the
    second, on the context and the world that the first leaves, matches
    and returns a set; the set is then the two sets, one after the other,
    and a strategy runs the enforcers of the first before those of the
    second. *)
Theorem And_grants (a b : ash.Authorizer) (ctx : Context) (w : World) :
  ash.Matcher (ash.And a b) ctx = ash.Matcher a ctx && ash.Matcher b ctx /\
  (forall enforcers ctx' w',
     ash.Handler (ash.And a b) ctx w = ash.Enforcers (Some enforcers) ctx' w' <->
     exists e1 e2 ctx1 w1,
       ash.Matcher a ctx = true /\ ash.Handler a ctx w = ash.Enforcers (Some e1) ctx1 w1 /\
       ash.Matcher b ctx1 = true /\ ash.Handler b ctx1 w1 = ash.Enforcers (Some e2) ctx' w' /\
       enforcers = (e1 ++ e2)%list) /\
  (forall e1 e2 ctx1 w1,
     ash.enforce (e1 ++ e2) ctx1 w1
       = match ash.enforce e1 ctx1 w1 with
         | CbOk ctx2 w2 => ash.enforce e2 ctx2 w2
         | r => r
         end).
Proof.
  split; [reflexivity|]. split; [|intros; apply enforce_app].
  intros enforcers ctx' w'. cbn [ash.And ash.A ash.Handler]. split.
  - intros H. destruct (ash.Matcher a ctx) eqn:Ea; [|discriminate]. cbn [negb] in H.
    destruct (ash.Handler a ctx w) as [[e1|] ctx1 w1| |] eqn:Ha; try discriminate.
    destruct (ash.Matcher b ctx1) eqn:Eb; [|discriminate]. cbn [negb] in H.
    destruct (ash.Handler b ctx1 w1) as [[e2|] ctx2 w2| |] eqn:Hb; try discriminate.
    inversion H; subst. exists e1, e2, ctx1, w1. repeat split; assumption.
  - intros (e1 & e2 & ctx1 & w1 & -> & -> & -> & -> & ->). reflexivity.
Qed.

(** X21. [Or] is associative. The authorizer of two authorizers matches
    when one of them matches; it returns what the first returns when that
    one matches and returns a set of enforcers or an error, and otherwise
    what the second returns when that one matches. Three authorizers
    combined with [Or] behave the same however they are grouped, on every
    context and in every world. *)
Theorem Or_assoc (a b c : ash.Authorizer) (ctx : Context) (w : World) :
  ash.Matcher (ash.Or (ash.Or a b) c) ctx = ash.Matcher (ash.Or a (ash.Or b c)) ctx /\
  ash.Handler (ash.Or (ash.Or a b) c) ctx w = ash.Handler (ash.Or a (ash.Or b c)) ctx w.
Proof.
  split; [cbn; now rewrite orb_assoc|].
  cbn [ash.Or ash.A ash.Handler ash.Matcher default from_option id].
  destruct (ash.Matcher a ctx) eqn:Ea; cbn [orb].
  - destruct (ash.Handler a ctx w) as [[e1|] ctx1 w1| |]; try reflexivity.
    destruct (ash.Matcher b ctx1) eqn:Eb; cbn [orb].
    + destruct (ash.Handler b ctx1 w1) as [[e2|] ctx2 w2| |]; reflexivity.
    + destruct (ash.Matcher c ctx1); reflexivity.
  - destruct (ash.Matcher b ctx) eqn:Eb; cbn [orb].
    + destruct (ash.Handler b ctx w) as [[e2|] ctx2 w2| |]; reflexivity.
    + destruct (ash.Matcher c ctx); reflexivity.
Qed.

(** ** The cardinality of a preloaded has-one relationship *)

(** X22. When the preloaded references of a readable has-one relationship
    hold two or more ids for the model, the assembly of the relationship
    aborts with the plain error "has one relationship returned more than
    one result", and so the assembly of the resource aborts with a plain
    error, which is answered as an internal server error: no resource is
    returned. *)
Theorem has_one_preload_checked (c : Controller) (model : Model)
    (relationships : gmap string (gmap ID (list ID))) (whitelist : list string)
    (field : Field) (refs : list ID) (ctx : Context) (w : World) :
  HasOne field = true -> ToOne field = false -> ToMany field = false ->
  In field (RelationshipList (meta c)) ->
  fieldKeys c "readable" (ReadableFields ctx) ctx w = Ok whitelist ctx w ->
  Contains whitelist (RelName field) = true ->
  relationships !! RelName field ≫= (fun entry => entry !! DocID model) = Some refs ->
  (2 <= length refs)%nat ->
  (forall base,
     constructRelationship c model (Some relationships) whitelist base field ctx w =
       Abort (PlainError "has one relationship returned more than one result") w) /\
  (exists msg,
     constructResource c model (Some relationships) ctx w = Abort (PlainError msg) w /\
     resourceForModel c model (Some relationships) ctx w = Abort (PlainError msg) w /\
     statusOf (PlainError msg) = StatusInternalServerError).
Proof.
  intros Hone Hto Hmany Hin Hkeys Hwl Hrefs Hlen.
  assert (Hrel : forall base,
     constructRelationship c model (Some relationships) whitelist base field ctx w =
       Abort (PlainError "has one relationship returned more than one result") w).
  { intros base. unfold constructRelationship.
    rewrite Hwl, Hto, Hmany, Hone, Hrefs. cbn [negb].
    change (default [] (Some refs)) with refs.
    destruct (1 <? length refs)%nat eqn:E; [reflexivity|].
    apply Nat.ltb_ge in E. lia. }
  split; [exact Hrel|].
  unfold resourceForModel, constructResource.
  rewrite (bind_Ok _ _ _ _ _ _ _ (eq_refl : getCtx ctx w = Ok ctx ctx w)).
  rewrite (bind_Ok _ _ _ _ _ _ _ Hkeys). cbn zeta.
  match goal with |- context [mapEach ?f ?l] =>
    destruct (mapEach_aborts f l field ctx w _
                (fun a => reads_constructRelationship _ _ _ _ _ a) Hin (Hrel _))
      as (y & e' & _ & Hy & Hl)
  end.
  apply plain_constructRelationship in Hy as [msg ->].
  exists msg. now rewrite (bind_Abort _ _ _ _ _ _ Hl).
Qed.

Lemma has_one_preload_checked_witness :
  let field := blog.hasOne "Note" "note" "notes" "post" in
  let model := blog.post 1%N "Hello" "c1" "u1" VNull [] in
  let relationships : gmap string (gmap ID (list ID)) := {[ "note" := {[ 1%N := [7%N; 8%N] ]} ]} in
  let ctx := setReadableFields ["Title"; "Note"]
               (blog.incoming (blog.request FindResource (Hex 1%N)) None) in
  let w := blog.world [model] [] [blog.note 7%N "a" 1%N; blog.note 8%N "b" 1%N] in
  exists msg, constructResource blog.posts model (Some relationships) ctx w
              = Abort (PlainError msg) w.
Proof.
  intros field model relationships ctx w.
  destruct (has_one_preload_checked blog.posts model relationships ["title"; "note"] field
              [7%N; 8%N] ctx w) as (_ & msg & H & _); try reflexivity; cbn; try first [tauto | lia].
  now exists msg.
Defined.

(** Two notes for one post, through [handle]: the post is not found with
    its relationships but answered with an internal server error. *)
Example find_with_two_notes :
  let w := blog.world [blog.post 1%N "Hello" "c1" "u1" VNull []] []
             [blog.note 7%N "a" 1%N; blog.note 8%N "b" 1%N] in
  responseStatus (handle blog.group blog.posts ∅
                    (blog.incoming (blog.request FindResource (Hex 1%N)) None) w)
    = StatusInternalServerError.
Proof. vm_compute. reflexivity. Qed.

(** ** The links of a list below [2 ^ 53] documents *)

(** X23. For a List request with page number and page size both positive,
    over [N] matching documents with [N] below [2 ^ 53], the links are
    computed and the last page is the quotient of [N] by the page size
    rounded up; the previous link is present exactly when the page number
    is greater than 1, and the next link exactly when the page number is
    less than the last page. *)
Theorem listLinks_pages (c : Controller) (self : string) (ctx : Context) (w : World) :
  let r := JSONAPIRequest ctx in
  let N := Z.of_nat (length (matching c ctx w)) in
  let S := PageSize r in
  let last := (N + S - 1) / S in
  0 < PageNumber r -> 0 < S < 2 ^ 63 -> N < 2 ^ 53 -> Transaction ctx = true ->
  exists links,
    listLinks c self ctx w = Ok links ctx w /\
    lastPage N S = last /\
    (last - 1) * S < N <= last * S /\
    LLast links = pageLink self last S /\
    (LPrevious links <> "" <-> 1 < PageNumber r) /\
    (LNext links <> "" <-> PageNumber r < last).
Proof.
  intros r N S last Hnumber Hsize Hcount Htxn.
  assert (Hlast : lastPage N S = last) by (apply lastPage_spec; lia).
  unfold listLinks. mstep. fold r. fold S.
  replace (0 <? PageNumber r) with true by (symmetry; apply Z.ltb_lt; lia).
  replace (0 <? S) with true by (symmetry; apply Z.ltb_lt; lia).
  cbn [andb]. unfold call, Count. rewrite Htxn. cbn [negb andb].
  rewrite page_all. fold (matching c ctx w). fold N. cbn [abortIf]. mstep.
  rewrite Hlast.
  eexists. split; [reflexivity|]. cbn [LLast LPrevious LNext].
  split; [reflexivity|]. split; [apply ceil_div_spec; lia|]. split; [reflexivity|].
  split.
  - destruct (Z.ltb_spec 1 (PageNumber r)); split; intros H'; try lia.
    + apply pageLink_nonempty.
    + now contradiction H'.
  - destruct (Z.ltb_spec (PageNumber r) last); split; intros H'; try lia.
    + apply pageLink_nonempty.
    + now contradiction H'.
Qed.

Lemma listLinks_pages_witness :
  let five := List.map (fun id => blog.post id "Hello" "" "" VNull []) [1; 2; 3; 4; 5]%N in
  let ctx := setTransaction true (blog.incoming (blog.pageRequest 2 2) None) in
  let w := blog.world five [] [] in
  exists links,
    listLinks blog.posts "/posts" ctx w = Ok links ctx w /\
    LLast links = "/posts?page[number]=3&page[size]=2" /\
    LPrevious links <> "" /\ LNext links <> "".
Proof.
  intros five ctx w.
  destruct (listLinks_pages blog.posts "/posts" ctx w)
    as (links & Hrun & _ & _ & Hlast & Hprevious & Hnext).
  - reflexivity.
  - split; reflexivity.
  - reflexivity.
  - reflexivity.
  - exists links. split; [exact Hrun|]. split; [exact Hlast|].
    split; [apply Hprevious | apply Hnext]; reflexivity.
Defined.
